(* ===================================================================== *)
(*  Verification of the capture engine of the STM32MPU camera HAL.       *)
(*                                                                       *)
(*  The C++ sources are embedded shallowly: fixed-width integers are     *)
(*  values of Z with the wrap-around written out, vectors and lists are  *)
(*  Rocq lists, unordered maps are stdpp finite maps, and code that      *)
(*  mutates an object returns the updated object next to its result.     *)
(*  Calls that leave the repository (libyuv, the V4L2 ioctl, the client  *)
(*  callbacks) are either section variables or events of a log.          *)
(* ===================================================================== *)

From Stdlib Require Import ZArith Lia List Bool.
From stdpp Require Import base option list gmap.
Import ListNotations.

Local Open Scope Z_scope.

(* --------------------------------------------------------------------- *)
(*  Machine integers and constants                                        *)
(* --------------------------------------------------------------------- *)

Module MachineInt.

Definition two32 : Z := 2 ^ 32.
Definition two31 : Z := 2 ^ 31.

(* The value of a mathematical integer once stored in a uint32_t. *)
Definition to_uint32 (x : Z) : Z := x mod two32.

(* The value of an integer once stored in an int (two's complement). *)
Definition to_int32 (x : Z) : Z :=
  let u := x mod two32 in
  if u <? two31 then u else u - two32.

Definition is_uint32 (x : Z) : Prop := 0 <= x < two32.

Definition int_min : Z := - two31.
Definition int_max : Z := two31 - 1.

(* Signed arithmetic whose result leaves the range of int is undefined
   in C++: it is modelled as the absence of a result. *)
Definition checked_int (x : Z) : option Z :=
  if (int_min <=? x) && (x <=? int_max) then Some x else None.

End MachineInt.

(* errno values returned (negated) by the HAL. *)
Module Errno.
Definition EPERM : Z := 1.
Definition ENODEV : Z := 19.
Definition EINVAL : Z := 22.
End Errno.

(* The four-character codes of linux/videodev2.h used by the HAL. *)
Module FourCC.

Definition v4l2_fourcc (a b c d : Z) : Z :=
  Z.lor a (Z.lor (Z.shiftl b 8) (Z.lor (Z.shiftl c 16) (Z.shiftl d 24))).

(* 'Y'=89 'V'=86 'U'=85 '1'=49 '2'=50 'N'=78 'B'=66 'G'=71 'R'=82 '4'=52
   'M'=77 'J'=74 'P'=80 'E'=69 *)
Definition V4L2_PIX_FMT_YVU420 : Z := Eval cbv in v4l2_fourcc 89 86 49 50.
Definition V4L2_PIX_FMT_YUV420 : Z := Eval cbv in v4l2_fourcc 89 85 49 50.
Definition V4L2_PIX_FMT_NV21 : Z := Eval cbv in v4l2_fourcc 78 86 50 49.
Definition V4L2_PIX_FMT_BGR32 : Z := Eval cbv in v4l2_fourcc 66 71 82 52.
Definition V4L2_PIX_FMT_RGB32 : Z := Eval cbv in v4l2_fourcc 82 71 66 52.
Definition V4L2_PIX_FMT_YUYV : Z := Eval cbv in v4l2_fourcc 89 85 89 86.
Definition V4L2_PIX_FMT_MJPEG : Z := Eval cbv in v4l2_fourcc 77 74 80 71.
Definition V4L2_PIX_FMT_JPEG : Z := Eval cbv in v4l2_fourcc 74 80 69 71.

Definition V4L2_BUF_TYPE_VIDEO_CAPTURE : Z := 1.

End FourCC.

(* --------------------------------------------------------------------- *)
(*  common/v4l2/stream_format.cpp                                         *)
(* --------------------------------------------------------------------- *)

Module StreamFormat.

(* class StreamFormat: four uint32_t members. *)
Record t : Type := mk {
  type_ : Z;
  v4l2_pixel_format_ : Z;
  width_ : Z;
  height_ : Z
}.

(* StreamFormat(uint32_t format, uint32_t width, uint32_t height) *)
Definition make (format width height : Z) : t :=
  mk FourCC.V4L2_BUF_TYPE_VIDEO_CAPTURE format width height.

(* operator== compares the type, the pixel format, the width and the
   height. *)
Definition eqb (a b : t) : bool :=
  (type_ a =? type_ b) && (v4l2_pixel_format_ a =? v4l2_pixel_format_ b)
  && (width_ a =? width_ b) && (height_ a =? height_ b).

Definition neqb (a b : t) : bool := negb (eqb a b).

(* The for loop of FindMatchingFormat, started at index [i]. *)
Fixpoint FindMatchingFormat_from (i : Z) (formats : list t)
    (v4l2_pixel_format width height : Z) : Z :=
  match formats with
  | [] => -1
  | format :: rest =>
      if (v4l2_pixel_format_ format =? v4l2_pixel_format)
         && (width_ format =? width) && (height_ format =? height)
      then i
      else FindMatchingFormat_from (i + 1) rest v4l2_pixel_format width height
  end.

Definition FindMatchingFormat (formats : list t)
    (v4l2_pixel_format width height : Z) : Z :=
  FindMatchingFormat_from 0 formats v4l2_pixel_format width height.

(* The for loop of FindFormatByResolution, started at index [i].  The
   size_t position is returned as an int; vectors of formats are far too
   short for that conversion to matter. *)
Fixpoint FindFormatByResolution_from (i : Z) (formats : list t)
    (width height : Z) : Z :=
  match formats with
  | [] => -1
  | format :: rest =>
      if (width_ format =? width) && (height_ format =? height)
      then i
      else FindFormatByResolution_from (i + 1) rest width height
  end.

Definition FindFormatByResolution (formats : list t) (width height : Z) : Z :=
  FindFormatByResolution_from 0 formats width height.

(* Body of the inner loop of GetQualifiedStreams: [qualified_streams] is
   the vector built so far.  The duplicate test is the source's
   [FindFormatByResolution(...) > 0]. *)
Definition qualify_step (qualified_format : Z) (qualified_streams : list t)
    (supported_stream : t) : list t :=
  if negb (v4l2_pixel_format_ supported_stream =? qualified_format)
  then qualified_streams
  else if 0 <? FindFormatByResolution qualified_streams
                 (width_ supported_stream) (height_ supported_stream)
  then qualified_streams
  else qualified_streams ++ [supported_stream].

Definition GetQualifiedStreams (qualified_formats : list Z)
    (supported_streams : list t) : list t :=
  fold_left
    (fun qualified_streams qualified_format =>
       fold_left (qualify_step qualified_format) supported_streams
                 qualified_streams)
    qualified_formats [].

(* The supported streams that carry a qualified format, grouped by format
   in the priority order of the qualified formats and, within a format,
   in the order of the supported list. *)
Definition by_priority (qualified_formats : list Z)
    (supported_streams : list t) : list t :=
  concat
    (map (fun q => filter (fun s => v4l2_pixel_format_ s = q) supported_streams)
         qualified_formats).

(* Two entries of a list at different positions share a resolution. *)
Definition has_duplicate_resolution (l : list t) : Prop :=
  exists (i j : nat) (a b : t),
    i <> j /\ l !! i = Some a /\ l !! j = Some b /\
    width_ a = width_ b /\ height_ a = height_ b.

(* What the duplicate test of GetQualifiedStreams does ensure: a
   resolution found twice in the list is the resolution of its first
   entry. *)
Definition only_first_resolution_repeats (l : list t) : Prop :=
  forall (i j : nat) (a b : t),
    i <> j -> l !! i = Some a -> l !! j = Some b ->
    width_ a = width_ b -> height_ a = height_ b ->
    exists f, l !! 0%nat = Some f /\ width_ f = width_ a /\ height_ f = height_ a.

End StreamFormat.

(* --------------------------------------------------------------------- *)
(*  HIDL types of android.hardware.camera.device@3.2 used by the tracker  *)
(* --------------------------------------------------------------------- *)

Module Hidl.

Inductive BufferStatus : Type := BUFFER_OK | BUFFER_ERROR.

Inductive StreamType : Type := OUTPUT | INPUT.

Inductive Status : Type :=
  | OK
  | ILLEGAL_ARGUMENT
  | CAMERA_DISCONNECTED
  | INTERNAL_ERROR.

Inductive ErrorCode : Type :=
  | ERROR_DEVICE
  | ERROR_REQUEST
  | ERROR_RESULT
  | ERROR_BUFFER.

(* StreamRotation: ROTATION_0 = 0, ROTATION_90 = 1, ROTATION_180 = 2,
   ROTATION_270 = 3. *)
Definition ROTATION_0 : Z := 0.

(* PixelFormat::IMPLEMENTATION_DEFINED *)
Definition IMPLEMENTATION_DEFINED : Z := 34.

(* Buffer handles and fences are pointers: None is nullptr. *)
Record StreamBuffer : Type := mkStreamBuffer {
  streamId : Z;
  bufferId : Z;
  buffer : option Z;
  status : BufferStatus;
  acquireFence : option Z;
  releaseFence : option Z
}.

Record Stream : Type := mkStream {
  stream_id : Z;
  streamType : StreamType;
  stream_width : Z;
  stream_height : Z;
  stream_format : Z;
  usage : Z;
  dataSpace : Z;
  rotation : Z
}.

(* The members of CaptureRequest the tracker reads.  The settings travel
   separately (setCaptureSettings). *)
Record CaptureRequest : Type := mkCaptureRequest {
  frameNumber : Z;
  inputBuffer : StreamBuffer;
  outputBuffers : list StreamBuffer
}.

Definition StreamType_eqb (a b : StreamType) : bool :=
  match a, b with
  | OUTPUT, OUTPUT | INPUT, INPUT => true
  | _, _ => false
  end.

(* The generated operator== of the HIDL struct compares every member. *)
Definition Stream_eqb (a b : Stream) : bool :=
  (stream_id a =? stream_id b)
  && StreamType_eqb (streamType a) (streamType b)
  && (stream_width a =? stream_width b)
  && (stream_height a =? stream_height b)
  && (stream_format a =? stream_format b)
  && (usage a =? usage b)
  && (dataSpace a =? dataSpace b)
  && (rotation a =? rotation b).

Definition Status_eqb (a b : Status) : bool :=
  match a, b with
  | OK, OK | ILLEGAL_ARGUMENT, ILLEGAL_ARGUMENT
  | CAMERA_DISCONNECTED, CAMERA_DISCONNECTED
  | INTERNAL_ERROR, INTERNAL_ERROR => true
  | _, _ => false
  end.

End Hidl.

(* --------------------------------------------------------------------- *)
(*  device/3.2/camera_tracker.cpp                                         *)
(* --------------------------------------------------------------------- *)

Module CameraTracker.
Import Hidl.

(* struct TrackedCapture; the std::queue is a list whose head is the
   front of the queue. *)
Record TrackedCapture : Type := mkTrackedCapture {
  id : Z;
  output_buffers : list StreamBuffer;
  input_buffer : StreamBuffer;
  output_results : list StreamBuffer;
  input_result : StreamBuffer
}.

(* struct TrackedSettings; the shared_ptr to the metadata is an optional
   handle. *)
Record TrackedSettings : Type := mkTrackedSettings {
  settings : option Z;
  partial_count : Z
}.

(* The members of CameraTracker.  stream_buffers_ (the imported buffer
   handles) is read by none of the capture methods and is left out. *)
Record t : Type := mk {
  tracked_streams_ : gmap Z Stream;
  capture_list_ : list TrackedCapture;
  tracked_settings_ : gmap Z TrackedSettings
}.

Definition InvalidStream : Stream :=
  mkStream (-1) OUTPUT 0 0 IMPLEMENTATION_DEFINED 0 0 ROTATION_0.

Definition InvalidStreamBuffer : StreamBuffer :=
  mkStreamBuffer (-1) 0 None BUFFER_ERROR None None.

Definition empty : t := mk ∅ [] ∅.

Definition set_capture_list (l : list TrackedCapture) (tr : t) : t :=
  mk (tracked_streams_ tr) l (tracked_settings_ tr).

Definition set_tracked_settings (m : gmap Z TrackedSettings) (tr : t) : t :=
  mk (tracked_streams_ tr) (capture_list_ tr) m.

(* Tracked Stream methods.  The map is keyed by uint32_t: the int32_t
   stream id is converted on the way in. *)
Definition trackStream (stream : Stream) (tr : t) : t :=
  mk (<[MachineInt.to_uint32 (stream_id stream) := stream]> (tracked_streams_ tr))
     (capture_list_ tr) (tracked_settings_ tr).

Definition getStream (sid : Z) (tr : t) : Stream :=
  match tracked_streams_ tr !! MachineInt.to_uint32 sid with
  | None => InvalidStream
  | Some s => s
  end.

(* Tracked Capture methods *)

Definition with_null_buffer (b : StreamBuffer) : StreamBuffer :=
  mkStreamBuffer (streamId b) (bufferId b) None (status b)
                 (acquireFence b) (releaseFence b).

(* The TrackedCapture that trackCapture builds from a request. *)
Definition tracked_capture_of (request : CaptureRequest) : TrackedCapture :=
  mkTrackedCapture
    (frameNumber request)
    (map with_null_buffer (outputBuffers request))
    (if streamId (inputBuffer request) =? -1
     then InvalidStreamBuffer
     else with_null_buffer (inputBuffer request))
    []
    InvalidStreamBuffer.

(* int trackCapture(const CaptureRequest&): the uint32_t capture id is
   returned as an int. *)
Definition trackCapture (request : CaptureRequest) (tr : t) : Z * t :=
  let capture_id := frameNumber request in
  let tracked_capture := tracked_capture_of request in
  (MachineInt.to_int32 capture_id,
   set_capture_list (capture_list_ tr ++ [tracked_capture]) tr).

Definition hasActiveCapture (tr : t) : bool :=
  (0 <? Z.of_nat (length (capture_list_ tr))).

Definition set_output_buffers (q : list StreamBuffer) (c : TrackedCapture)
    : TrackedCapture :=
  mkTrackedCapture (id c) q (input_buffer c) (output_results c) (input_result c).

Definition set_output_results (r : list StreamBuffer) (c : TrackedCapture)
    : TrackedCapture :=
  mkTrackedCapture (id c) (output_buffers c) (input_buffer c) r (input_result c).

Definition set_input_result (r : StreamBuffer) (c : TrackedCapture)
    : TrackedCapture :=
  mkTrackedCapture (id c) (output_buffers c) (input_buffer c) (output_results c) r.

(* The loop of popNextOutputBuffer over capture_list_: the popped buffer,
   the value stored through capture_id, and the list after the pop. *)
Fixpoint popNextOutputBuffer_list (l : list TrackedCapture)
    : StreamBuffer * Z * list TrackedCapture :=
  match l with
  | [] => (InvalidStreamBuffer, -1, [])
  | capture :: rest =>
      match output_buffers capture with
      | res :: q =>
          (res, MachineInt.to_int32 (id capture),
           set_output_buffers q capture :: rest)
      | [] =>
          let '(res, capture_id, rest') := popNextOutputBuffer_list rest in
          (res, capture_id, capture :: rest')
      end
  end.

Definition popNextOutputBuffer (tr : t) : StreamBuffer * Z * t :=
  let '(res, capture_id, l) := popNextOutputBuffer_list (capture_list_ tr) in
  (res, capture_id, set_capture_list l tr).

Fixpoint saveOutputBuffer_list (stream_buffer : StreamBuffer) (capture_id : Z)
    (l : list TrackedCapture) : Z * list TrackedCapture :=
  match l with
  | [] => (-1, [])
  | capture :: rest =>
      if id capture =? capture_id
      then (0, set_output_results (output_results capture ++ [stream_buffer])
                                  capture :: rest)
      else
        let '(r, rest') := saveOutputBuffer_list stream_buffer capture_id rest in
        (r, capture :: rest')
  end.

Definition saveOutputBuffer (stream_buffer : StreamBuffer) (capture_id : Z)
    (tr : t) : Z * t :=
  let '(r, l) := saveOutputBuffer_list stream_buffer capture_id (capture_list_ tr) in
  (r, set_capture_list l tr).

(* int isCaptureCompleted(uint32_t) const: the bool of the first capture
   with that id converted to int, or -1. *)
Fixpoint isCaptureCompleted_list (capture_id : Z) (l : list TrackedCapture) : Z :=
  match l with
  | [] => -1
  | capture :: rest =>
      if id capture =? capture_id
      then
        if (Z.of_nat (length (output_buffers capture)) =? 0)
           && (streamId (input_buffer capture) =? -1)
        then 1 else 0
      else isCaptureCompleted_list capture_id rest
  end.

Definition isCaptureCompleted (capture_id : Z) (tr : t) : Z :=
  isCaptureCompleted_list capture_id (capture_list_ tr).

Fixpoint popOutputResults_list (capture_id : Z) (l : list TrackedCapture)
    : list StreamBuffer * list TrackedCapture :=
  match l with
  | [] => ([], [])
  | capture :: rest =>
      if id capture =? capture_id
      then (output_results capture, set_output_results [] capture :: rest)
      else
        let '(r, rest') := popOutputResults_list capture_id rest in
        (r, capture :: rest')
  end.

Definition popOutputResults (capture_id : Z) (tr : t)
    : list StreamBuffer * t :=
  let '(r, l) := popOutputResults_list capture_id (capture_list_ tr) in
  (r, set_capture_list l tr).

Fixpoint popInputResult_list (capture_id : Z) (l : list TrackedCapture)
    : StreamBuffer * list TrackedCapture :=
  match l with
  | [] => (InvalidStreamBuffer, [])
  | capture :: rest =>
      if id capture =? capture_id
      then (input_result capture, set_input_result InvalidStreamBuffer capture :: rest)
      else
        let '(r, rest') := popInputResult_list capture_id rest in
        (r, capture :: rest')
  end.

Definition popInputResult (capture_id : Z) (tr : t) : StreamBuffer * t :=
  let '(r, l) := popInputResult_list capture_id (capture_list_ tr) in
  (r, set_capture_list l tr).

Definition setCaptureSettings (capture_id : Z) (s : option Z) (tr : t) : Z * t :=
  match tracked_settings_ tr !! capture_id with
  | None =>
      (0, set_tracked_settings
            (<[capture_id := mkTrackedSettings s 1]> (tracked_settings_ tr)) tr)
  | Some res =>
      (0, set_tracked_settings
            (<[capture_id :=
                 mkTrackedSettings s (MachineInt.to_uint32 (partial_count res + 1))]>
               (tracked_settings_ tr)) tr)
  end.

(* getCaptureSettings(capture_id, &partial_count): the settings pointer
   and the value of *partial_count afterwards, [partial_count0] being its
   value before the call. *)
Definition getCaptureSettings (capture_id : Z) (partial_count0 : Z) (tr : t)
    : option Z * Z :=
  match tracked_settings_ tr !! capture_id with
  | None => (None, partial_count0)
  | Some s => (settings s, partial_count s)
  end.

(* Erase the first capture whose id matches. *)
Fixpoint untrackCapture_list (capture_id : Z) (l : list TrackedCapture)
    : list TrackedCapture :=
  match l with
  | [] => []
  | capture :: rest =>
      if id capture =? capture_id then rest
      else capture :: untrackCapture_list capture_id rest
  end.

Definition untrackCapture (capture_id : Z) (tr : t) : Z * t :=
  (0, mk (tracked_streams_ tr)
         (untrackCapture_list capture_id (capture_list_ tr))
         (delete capture_id (tracked_settings_ tr))).

Definition clearCaptures (tr : t) : t :=
  mk (tracked_streams_ tr) [] ∅.

(* The first tracked capture with a given id: the one every by-id method
   of the tracker works on. *)
Definition first_with_id (capture_id : Z) (tr : t) : option TrackedCapture :=
  find (fun c => id c =? capture_id) (capture_list_ tr).

(* Number of pending (not yet popped) output buffers over all captures. *)
Definition pending_outputs (l : list TrackedCapture) : nat :=
  list_sum (map (fun c => length (output_buffers c)) l).

(* A tracked capture as the session leaves it between two operations: at
   least one output buffer still pending, no pending input buffer, and a
   frame number that survives the conversion to int. *)
Definition awaiting_output (c : TrackedCapture) : Prop :=
  output_buffers c <> [] /\ streamId (input_buffer c) = -1 /\
  0 <= id c < MachineInt.two31.

(* A tracked capture whose settings are tracked and are not null: what
   getCaptureSettings must find for its id before it is dereferenced. *)
Definition has_settings (tr : t) (c : TrackedCapture) : Prop :=
  exists metadata count,
    tracked_settings_ tr !! id c = Some (mkTrackedSettings (Some metadata) count).

End CameraTracker.

(* --------------------------------------------------------------------- *)
(*  device/3.2/camera_device_session.cpp                                  *)
(* --------------------------------------------------------------------- *)

Module CameraDeviceSession.
Import Hidl.

(* What the session sends to the client through ICameraDeviceCallback. *)
Inductive NotifyMsg : Type :=
  | MsgError (frame : Z) (errorStreamId : Z) (errorCode : ErrorCode)
  | MsgShutter (frame : Z) (timestamp : Z).

Record CaptureResult : Type := mkCaptureResult {
  res_frameNumber : Z;
  fmqResultSize : Z;
  result_metadata : option Z;
  res_outputBuffers : list StreamBuffer;
  res_inputBuffer : StreamBuffer;
  partialResult : Z
}.

Inductive Event : Type :=
  | Notify (msg : NotifyMsg)
  | ProcessCaptureResult (result : CaptureResult).

Record HalStream : Type := mkHalStream {
  hal_id : Z;
  overrideFormat : Z;
  producerUsage : Z;
  consumerUsage : Z;
  maxBuffers : Z
}.

Record StreamConfiguration : Type := mkStreamConfiguration {
  streams : list Stream;
  operationMode : Z
}.

Definition HalStreamConfiguration : Type := list HalStream.

(* A per-buffer error notification, as flush sends them. *)
Definition is_buffer_error (e : Event) : bool :=
  match e with
  | Notify (MsgError _ _ ERROR_BUFFER) => true
  | _ => false
  end.

Definition count_buffer_errors (log : list Event) : nat :=
  length (filter (fun e => is_buffer_error e = true) log).

Section Session.

(* The V4L2 wrapper together with the mapped driver buffers. *)
Context {Driver : Type}.

(* The members of CameraDeviceSession the modelled methods read or write.
   The mutexes are not members of the record: where a method waits for a
   mutex that its own thread holds, its outcome says so. *)
Record Session : Type := mkSession {
  camera_tracker_ : CameraTracker.t;
  init_fail_ : bool;
  disconnected_ : bool;
  closed_ : bool;
  started_ : bool;
  driver_ : Driver
}.

Definition set_tracker (tr : CameraTracker.t) (s : Session) : Session :=
  mkSession tr (init_fail_ s) (disconnected_ s) (closed_ s) (started_ s)
            (driver_ s).

(* What a call makes of the thread that runs it: it returns; or its
   behaviour is undefined; or it never returns, and then the session and
   the events sent are those at the point where the thread stops. *)
Inductive Outcome (A : Type) : Type :=
  | Returns (a : A)
  | Undefined
  | NeverReturns (s : Session) (log : list Event).

Arguments Returns {A} a.
Arguments Undefined {A}.
Arguments NeverReturns {A} s log.

(* v4l2_wrapper_->StreamOff() *)
Context (StreamOff : Driver -> Z * Driver).
(* processCaptureResultMetadata: fills the metadata of the result from
   the settings of the capture, which it takes by reference. *)
Context (processCaptureResultMetadata : Z -> CaptureResult -> CaptureResult).
(* MetadataCommon::SingleTagValue of ANDROID_SENSOR_TIMESTAMP in the
   settings, taken by reference (0 when the tag is absent). *)
Context (sensor_timestamp : Z -> Z).
(* The end of close(): capture_active_.signal() and
   capture_result_thread_->join(), on objects of the C++ library. *)
Context (join_capture_thread : Session -> Outcome (Session * list Event)).
(* The stages of configureStreams after the verification. *)
Context (configureStreamClean : StreamConfiguration -> Session -> Status * Session).
Context (configureDriverStream : StreamConfiguration -> Session -> Status * Session).
Context (configureStreamResult :
           StreamConfiguration -> Session -> Status * HalStreamConfiguration * Session).

Definition initStatus (s : Session) : Status :=
  if init_fail_ s then INTERNAL_ERROR
  else if disconnected_ s then CAMERA_DISCONNECTED
  else if closed_ s then INTERNAL_ERROR
  else OK.

(* First loop of configureStreamsVerification: None when a stream has a
   rotation, otherwise the (input, output) counters. *)
Fixpoint count_streams (l : list Stream) (input output : Z) : option (Z * Z) :=
  match l with
  | [] => Some (input, output)
  | stream :: rest =>
      if ROTATION_0 <? rotation stream then None
      else
        match streamType stream with
        | OUTPUT => count_streams rest input (MachineInt.to_uint32 (output + 1))
        | INPUT => count_streams rest (MachineInt.to_uint32 (input + 1)) output
        end
  end.

(* Second loop: the properties of already tracked streams must not change. *)
Fixpoint check_existing_streams (l : list Stream) (tr : CameraTracker.t) : Status :=
  match l with
  | [] => OK
  | stream :: rest =>
      let s := CameraTracker.getStream (stream_id stream) tr in
      if Stream_eqb s CameraTracker.InvalidStream
      then check_existing_streams rest tr
      else if negb (StreamType_eqb (streamType s) (streamType stream))
              || negb (stream_width s =? stream_width stream)
              || negb (stream_height s =? stream_height stream)
              || negb (stream_format s =? stream_format stream)
              || negb (dataSpace s =? dataSpace stream)
      then ILLEGAL_ARGUMENT
      else check_existing_streams rest tr
  end.

Definition configureStreamsVerification
    (requested_configuration : StreamConfiguration) (s : Session) : Status :=
  let status := initStatus s in
  if CameraTracker.hasActiveCapture (camera_tracker_ s) then INTERNAL_ERROR
  else if negb (Status_eqb status OK) then status
  else if Z.of_nat (length (streams requested_configuration)) =? 0
  then ILLEGAL_ARGUMENT
  else
    match count_streams (streams requested_configuration) 0 0 with
    | None => ILLEGAL_ARGUMENT
    | Some (input, output) =>
        if (1 <? input) || (output <? 1) then ILLEGAL_ARGUMENT
        else check_existing_streams (streams requested_configuration)
                                    (camera_tracker_ s)
    end.

(* configureStreams: the arguments of the _hidl_cb call and the session
   afterwards. *)
Definition configureStreams (requested_configuration : StreamConfiguration)
    (s : Session) : (Status * HalStreamConfiguration) * Session :=
  let configuration : HalStreamConfiguration := [] in
  let status := configureStreamsVerification requested_configuration s in
  if negb (Status_eqb status OK) then ((status, configuration), s)
  else
    let '(status, s1) := configureStreamClean requested_configuration s in
    if negb (Status_eqb status OK) then ((status, configuration), s1)
    else
      let '(status, s2) := configureDriverStream requested_configuration s1 in
      if negb (Status_eqb status OK) then ((status, configuration), s2)
      else
        let '(status, configuration, s3) :=
          configureStreamResult requested_configuration s2 in
        ((status, configuration), s3).

(* processCaptureResult(capture_id, stream_buffer).  For a completed
   capture the settings pointer that getCaptureSettings returns is
   dereferenced: None where it is null (no settings tracked for the id,
   or null settings tracked), which C++ leaves undefined. *)
Definition processCaptureResult (capture_id : Z) (stream_buffer : StreamBuffer)
    (s : Session) : option (Status * Session * list Event) :=
  let '(res, tr1) :=
    CameraTracker.saveOutputBuffer stream_buffer capture_id (camera_tracker_ s) in
  let res := if 0 <=? res then CameraTracker.isCaptureCompleted capture_id tr1
             else res in
  if res <? 0 then Some (INTERNAL_ERROR, set_tracker tr1 s, [])
  else if 0 <? res then
    let '(settings, partial_count) :=
      CameraTracker.getCaptureSettings capture_id 0 tr1 in
    let '(input_result, tr2) := CameraTracker.popInputResult capture_id tr1 in
    let '(output_results, tr3) := CameraTracker.popOutputResults capture_id tr2 in
    let result :=
      mkCaptureResult capture_id 0 None output_results input_result partial_count in
    match settings with
    | None => None
    | Some metadata =>
        let result := processCaptureResultMetadata metadata result in
        let timestamp := sensor_timestamp metadata in
        let '(_, tr4) := CameraTracker.untrackCapture capture_id tr3 in
        Some (OK, set_tracker tr4 s,
              [Notify (MsgShutter (res_frameNumber result) timestamp);
               ProcessCaptureResult result])
    end
  else Some (OK, set_tracker tr1 s, []).

(* Return<void> close(), as the error paths call it: from a thread that
   holds flush_queue_lock_ (processOneCaptureRequest, flush) or
   flush_result_lock_ (flush, captureRequestThread).  On a session that
   is not closed close() starts with flush(), which takes these two
   android::Mutex, not recursive: the thread waits for itself and stops
   there.  On a closed session only the end of close() runs. *)
Definition close (s : Session) : Outcome (Session * list Event) :=
  if negb (closed_ s) then NeverReturns s []
  else join_capture_thread s.

(* processCaptureBufferError(capture_id, stream_buffer, error) *)
Definition processCaptureBufferError (capture_id : Z)
    (stream_buffer : StreamBuffer) (error : ErrorCode) (s : Session)
    : Outcome (Status * Session * list Event) :=
  let error_msg := Notify (MsgError capture_id (streamId stream_buffer) error) in
  match error with
  | ERROR_DEVICE =>
      let s1 := set_tracker (CameraTracker.clearCaptures (camera_tracker_ s)) s in
      match close s1 with
      | Returns (s2, log) => Returns (OK, s2, error_msg :: log)
      | Undefined => Undefined
      | NeverReturns s2 log => NeverReturns s2 (error_msg :: log)
      end
  | ERROR_REQUEST => Returns (OK, s, [error_msg])
  | ERROR_RESULT => Returns (OK, s, [error_msg])
  | ERROR_BUFFER =>
      let stream_buffer' :=
        mkStreamBuffer (streamId stream_buffer) (bufferId stream_buffer)
                       (buffer stream_buffer) BUFFER_ERROR
                       None (acquireFence stream_buffer) in
      match processCaptureResult capture_id stream_buffer' s with
      | Some (_, s1, log) => Returns (OK, s1, error_msg :: log)
      | None => Undefined
      end
  end.

(* One iteration of the while loop of flush. *)
Definition flush_step (s : Session) : Outcome (Session * list Event) :=
  let '(stream_buffer, capture_id, tr1) :=
    CameraTracker.popNextOutputBuffer (camera_tracker_ s) in
  let s1 := set_tracker tr1 s in
  if 0 <=? capture_id then
    match processCaptureBufferError (MachineInt.to_uint32 capture_id)
                                    stream_buffer ERROR_BUFFER s1 with
    | Returns (_, s2, log) => Returns (s2, log)
    | Undefined => Undefined
    | NeverReturns s2 log => NeverReturns s2 log
    end
  else Returns (s1, []).

(* while (camera_tracker_.hasActiveCapture()) { ... }: at most [fuel]
   iterations; None when the loop is still going after them. *)
Fixpoint flush_loop (fuel : nat) (s : Session) (log : list Event)
    : option (Outcome (Session * list Event)) :=
  if CameraTracker.hasActiveCapture (camera_tracker_ s) then
    match fuel with
    | O => None
    | S fuel' =>
        match flush_step s with
        | Returns (s1, log1) => flush_loop fuel' s1 (log ++ log1)
        | Undefined => Some Undefined
        | NeverReturns s1 log1 => Some (NeverReturns s1 (log ++ log1))
        end
    end
  else Some (Returns (s, log)).

(* Return<Status> flush(): the returned status, the session afterwards and
   everything sent to the client. *)
Definition flush (fuel : nat) (s : Session)
    : option (Outcome (Status * Session * list Event)) :=
  let status := initStatus s in
  if Status_eqb status OK then
    match flush_loop fuel s [] with
    | None => None
    | Some Undefined => Some Undefined
    | Some (NeverReturns s1 log) => Some (NeverReturns s1 log)
    | Some (Returns (s1, log)) =>
        let '(_, d) := StreamOff (driver_ s1) in
        Some (Returns (status,
                       mkSession (camera_tracker_ s1) (init_fail_ s1)
                                 (disconnected_ s1) (closed_ s1) false d,
                       log))
    end
  else Some (Returns (status, s, [])).

End Session.

Arguments Session : clear implicits.
Arguments Outcome : clear implicits.
Arguments Returns {Driver A} a.
Arguments Undefined {Driver A}.
Arguments NeverReturns {Driver A} s log.

End CameraDeviceSession.

(* --------------------------------------------------------------------- *)
(*  common/arc/frame_buffer.cpp                                           *)
(* --------------------------------------------------------------------- *)

Module FrameBuffer.

(* The concrete classes behind the FrameBuffer interface; SetDataSize is
   virtual and only AllocatedFrameBuffer overrides it. *)
Inductive Kind : Type := Allocated | V4L2 | Gralloc.

(* The members of FrameBuffer.  [data_] is the content of the backing
   memory, one Z per byte; the sizes are size_t values. *)
Record t : Type := mk {
  kind : Kind;
  data_ : list Z;
  data_size_ : Z;
  buffer_size_ : Z;
  width_ : Z;
  height_ : Z;
  fourcc_ : Z
}.

Definition GetWidth (f : t) : Z := width_ f.
Definition GetHeight (f : t) : Z := height_ f.
Definition GetFourcc (f : t) : Z := fourcc_ f.
Definition GetDataSize (f : t) : Z := data_size_ f.
Definition GetBufferSize (f : t) : Z := buffer_size_ f.

Definition SetFourcc (fourcc : Z) (f : t) : t :=
  mk (kind f) (data_ f) (data_size_ f) (buffer_size_ f) (width_ f) (height_ f)
     fourcc.

(* The invariant stated for the buffer: used size within capacity. *)
Definition size_ok (f : t) : Prop := data_size_ f <= buffer_size_ f.

Section Allocation.

(* The content of an array obtained from new uint8_t[size]: the bytes are
   indeterminate, nothing is assumed about them.  The allocation itself
   is taken to succeed. *)
Context (new_array : Z -> list Z).

(* int FrameBuffer::SetDataSize(size_t data_size) *)
Definition FrameBuffer_SetDataSize (data_size : Z) (f : t) : Z * t :=
  if buffer_size_ f <? data_size then (- Errno.EINVAL, f)
  else (0, mk (kind f) (data_ f) data_size (buffer_size_ f) (width_ f)
              (height_ f) (fourcc_ f)).

(* int AllocatedFrameBuffer::SetDataSize(size_t size) *)
Definition AllocatedFrameBuffer_SetDataSize (size : Z) (f : t) : Z * t :=
  let f1 :=
    if buffer_size_ f <? size
    then mk (kind f) (new_array size) (data_size_ f) size (width_ f)
            (height_ f) (fourcc_ f)
    else f in
  (0, mk (kind f1) (data_ f1) size (buffer_size_ f1) (width_ f1) (height_ f1)
         (fourcc_ f1)).

(* The virtual call out_frame->SetDataSize(size). *)
Definition SetDataSize (size : Z) (f : t) : Z * t :=
  match kind f with
  | Allocated => AllocatedFrameBuffer_SetDataSize size f
  | V4L2 | Gralloc => FrameBuffer_SetDataSize size f
  end.

End Allocation.

End FrameBuffer.

(* --------------------------------------------------------------------- *)
(*  common/arc/image_processor.cpp                                        *)
(* --------------------------------------------------------------------- *)

Module ImageProcessor.
Import FourCC.

(* The pixel kernels ConvertFormat dispatches to. *)
Inductive Kernel : Type :=
  | YUY2ToI420
  | YU12ToYV12
  | Memcpy
  | YU12ToNV21
  | I420ToABGR
  | I420ToARGB
  | ConvertToJpeg
  | MJPGToI420.

Section Target.

(* Width of size_t on the target, in bits: 32 on the STM32MP1 family and
   64 on the STM32MP2 family. *)
Context (size_bits : Z).

Definition to_size_t (x : Z) : Z := x mod 2 ^ size_bits.

(* inline static size_t Align16(size_t value) { return (value + 15) & ~15; } *)
Definition Align16 (value : Z) : Z :=
  Z.land (to_size_t (value + 15)) (to_size_t (Z.lnot 15)).

(* size_t GetConvertedSize(int fourcc, uint32_t width, uint32_t height).
   The products of the two uint32_t arguments are computed in 32 bits and
   only then widened; the YV12 case is computed in size_t. *)
Definition GetConvertedSize (fourcc width height : Z) : Z :=
  if negb (width mod 2 =? 0) || negb (height mod 2 =? 0) then 0
  else if fourcc =? V4L2_PIX_FMT_YVU420 then
    to_size_t (to_size_t (Align16 width * height)
               + to_size_t (Align16 (width / 2) * height))
  else if (fourcc =? V4L2_PIX_FMT_YUV420) || (fourcc =? V4L2_PIX_FMT_NV21) then
    to_size_t
      (MachineInt.to_uint32 (MachineInt.to_uint32 (width * height) * 3) / 2)
  else if (fourcc =? V4L2_PIX_FMT_BGR32) || (fourcc =? V4L2_PIX_FMT_RGB32) then
    to_size_t (MachineInt.to_uint32 (MachineInt.to_uint32 (width * height) * 4))
  else 0.

Definition supported_fourcc (fourcc : Z) : Prop :=
  fourcc = V4L2_PIX_FMT_YVU420 \/ fourcc = V4L2_PIX_FMT_YUV420 \/
  fourcc = V4L2_PIX_FMT_NV21 \/ fourcc = V4L2_PIX_FMT_BGR32 \/
  fourcc = V4L2_PIX_FMT_RGB32.

Context (new_array : Z -> list Z).
(* CameraMetadata, read only by the JPEG path. *)
Context {CameraMetadata : Type}.
(* A pixel kernel run on the two frames: its result (an int, or the bool
   of ConvertToJpeg as 0 or 1) and the output frame it leaves. *)
Context (run_kernel : Kernel -> CameraMetadata -> FrameBuffer.t -> FrameBuffer.t
                      -> Z * FrameBuffer.t).

Definition kernel_result (k : Kernel) (metadata : CameraMetadata)
    (in_frame out_frame : FrameBuffer.t) : Z * FrameBuffer.t :=
  let '(res, out') := run_kernel k metadata in_frame out_frame in
  match k with
  | Memcpy => (0, out')
  | ConvertToJpeg => (if res =? 0 then - Errno.EINVAL else 0, out')
  | _ => (if negb (res =? 0) then - Errno.EINVAL else 0, out')
  end.

(* int ConvertFormat(metadata, in_frame, out_frame): the returned code and
   the output frame afterwards. *)
Definition ConvertFormat (metadata : CameraMetadata)
    (in_frame out_frame : FrameBuffer.t) : Z * FrameBuffer.t :=
  if negb (FrameBuffer.GetWidth in_frame mod 2 =? 0)
     || negb (FrameBuffer.GetHeight in_frame mod 2 =? 0)
  then (- Errno.EINVAL, out_frame)
  else
    let data_size :=
      GetConvertedSize (FrameBuffer.GetFourcc out_frame)
                       (FrameBuffer.GetWidth in_frame)
                       (FrameBuffer.GetHeight in_frame) in
    let '(r, out1) := FrameBuffer.SetDataSize new_array data_size out_frame in
    if negb (r =? 0) then (- Errno.EINVAL, out1)
    else
      let src := FrameBuffer.GetFourcc in_frame in
      let dst := FrameBuffer.GetFourcc out1 in
      if src =? V4L2_PIX_FMT_YUYV then
        if dst =? V4L2_PIX_FMT_YUV420
        then kernel_result YUY2ToI420 metadata in_frame out1
        else (- Errno.EINVAL, out1)
      else if src =? V4L2_PIX_FMT_YUV420 then
        if dst =? V4L2_PIX_FMT_YVU420
        then kernel_result YU12ToYV12 metadata in_frame out1
        else if dst =? V4L2_PIX_FMT_YUV420
        then kernel_result Memcpy metadata in_frame out1
        else if dst =? V4L2_PIX_FMT_NV21
        then kernel_result YU12ToNV21 metadata in_frame out1
        else if dst =? V4L2_PIX_FMT_BGR32
        then kernel_result I420ToABGR metadata in_frame out1
        else if dst =? V4L2_PIX_FMT_RGB32
        then kernel_result I420ToARGB metadata in_frame out1
        else if dst =? V4L2_PIX_FMT_JPEG
        then kernel_result ConvertToJpeg metadata in_frame out1
        else (- Errno.EINVAL, out1)
      else if src =? V4L2_PIX_FMT_MJPEG then
        if dst =? V4L2_PIX_FMT_YUV420
        then kernel_result MJPGToI420 metadata in_frame out1
        else (- Errno.EINVAL, out1)
      else (- Errno.EINVAL, out1).

End Target.

End ImageProcessor.

(* --------------------------------------------------------------------- *)
(*  common/arc/cached_frame.cpp                                           *)
(* --------------------------------------------------------------------- *)

Module CachedFrame.

Inductive RotationMode : Type := kRotate90 | kRotate270.

(* The geometry arguments of libyuv::ConvertToI420 as CropRotateScale
   passes them (the plane pointers are determined by the strides and the
   rotated height). *)
Record ConvertToI420Args : Type := mkConvertToI420Args {
  sample_size : Z;
  dst_stride_y : Z;
  dst_stride_u : Z;
  dst_stride_v : Z;
  crop_x : Z;
  crop_y : Z;
  src_width : Z;
  src_height : Z;
  crop_width : Z;
  crop_height : Z;
  rotation : RotationMode
}.

(* The geometry arguments of libyuv::I420Scale. *)
Record I420ScaleArgs : Type := mkI420ScaleArgs {
  scale_src_stride_y : Z;
  scale_src_stride_u : Z;
  scale_src_stride_v : Z;
  scale_src_width : Z;
  scale_src_height : Z;
  scale_dst_stride_y : Z;
  scale_dst_stride_u : Z;
  scale_dst_stride_v : Z;
  scale_dst_width : Z;
  scale_dst_height : Z
}.

Inductive LibyuvCall : Type :=
  | CallConvertToI420 (args : ConvertToI420Args)
  | CallI420Scale (args : I420ScaleArgs).

(* int x = e for an int expression e: undefined when e overflows. *)
Definition int_mul (a b : Z) : option Z := MachineInt.checked_int (a * b).
Definition int_add (a b : Z) : option Z := MachineInt.checked_int (a + b).

(* if (cropped_width % 2 == 1) cropped_width++; *)
Definition make_even (cropped_width : Z) : Z :=
  if Z.rem cropped_width 2 =? 1 then cropped_width + 1 else cropped_width.

(* The crop width the comment of the source describes: height * height /
   width, moved up to the next even number when it is odd. *)
Definition rounded_crop_width (width height : Z) : Z :=
  let q := height * height / width in
  if Z.odd q then q + 1 else q.

Definition rotation_of (rotate_degree : Z) : option RotationMode :=
  if rotate_degree =? 90 then Some kRotate90
  else if rotate_degree =? 270 then Some kRotate270
  else None.

Section Libyuv.

Context (size_bits : Z).
(* Result codes of the two libyuv routines for given arguments. *)
Context (ConvertToI420 : ConvertToI420Args -> Z).
Context (I420Scale : I420ScaleArgs -> Z).

(* int CachedFrame::CropRotateScale(int rotate_degree), reading the
   dimensions and data size of yu12_frame_ and cropped_buffer_capacity_.
   The result is None where the C++ is undefined (division by zero, signed
   overflow); otherwise the returned code, the capacity of the cropped
   buffer afterwards and the libyuv calls made, in order. *)
Definition CropRotateScale (yu12_frame_ : FrameBuffer.t)
    (cropped_buffer_capacity_ : Z) (rotate_degree : Z)
    : option (Z * Z * list LibyuvCall) :=
  let width := FrameBuffer.GetWidth yu12_frame_ in
  let height := FrameBuffer.GetHeight yu12_frame_ in
  if negb (height mod 2 =? 0) || negb (width mod 2 =? 0)
  then Some (- Errno.EINVAL, cropped_buffer_capacity_, [])
  else if width <? height
  then Some (- Errno.EINVAL, cropped_buffer_capacity_, [])
  else if width =? 0 then None (* height * height / 0 *)
  else
    let cropped_width :=
      make_even
        (MachineInt.to_int32 (MachineInt.to_uint32 (height * height) / width)) in
    let cropped_height := MachineInt.to_int32 height in
    let margin :=
      MachineInt.to_int32 (MachineInt.to_uint32 (width - cropped_width) / 2) in
    let rotated_height := cropped_width in
    let rotated_width := cropped_height in
    let rotated_y_stride := rotated_width in
    let rotated_uv_stride := Z.quot rotated_width 2 in
    y_size ← int_mul rotated_y_stride rotated_height;
    uv_size ← int_mul rotated_uv_stride rotated_height;
    rotated_size_int ← int_add y_size uv_size;
    let rotated_size := ImageProcessor.to_size_t size_bits rotated_size_int in
    let capacity :=
      if cropped_buffer_capacity_ <? rotated_size then rotated_size
      else cropped_buffer_capacity_ in
    match rotation_of rotate_degree with
    | None => Some (- Errno.EINVAL, capacity, [])
    | Some rotation_mode =>
        let rotate_args :=
          mkConvertToI420Args
            (FrameBuffer.GetDataSize yu12_frame_)
            rotated_y_stride rotated_uv_stride rotated_uv_stride
            margin 0
            (MachineInt.to_int32 width) (MachineInt.to_int32 height)
            cropped_width cropped_height rotation_mode in
        let res := ConvertToI420 rotate_args in
        if negb (res =? 0)
        then Some (res, capacity, [CallConvertToI420 rotate_args])
        else
          let scale_args :=
            mkI420ScaleArgs
              rotated_y_stride rotated_uv_stride rotated_uv_stride
              rotated_width rotated_height
              (MachineInt.to_int32 width)
              (MachineInt.to_int32 (width / 2))
              (MachineInt.to_int32 (width / 2))
              (MachineInt.to_int32 width) (MachineInt.to_int32 height) in
          let res := I420Scale scale_args in
          Some (res, capacity,
                [CallConvertToI420 rotate_args; CallI420Scale scale_args])
    end.

End Libyuv.

End CachedFrame.

(* --------------------------------------------------------------------- *)
(*  common/v4l2/v4l2_wrapper.cpp                                          *)
(* --------------------------------------------------------------------- *)

Module V4L2Wrapper.

(* The members of struct v4l2_format that SetFormat writes or reads; the
   request zeroes all the others. *)
Record v4l2_format : Type := mk_v4l2_format {
  fmt_type : Z;
  pixelformat : Z;
  pix_width : Z;
  pix_height : Z;
  sizeimage : Z
}.

(* void StreamFormat::FillFormatRequest(v4l2_format* format) const *)
Definition FillFormatRequest (f : StreamFormat.t) : v4l2_format :=
  mk_v4l2_format (StreamFormat.type_ f) (StreamFormat.v4l2_pixel_format_ f)
                 (StreamFormat.width_ f) (StreamFormat.height_ f) 0.

(* StreamFormat::StreamFormat(const v4l2_format& format) *)
Definition StreamFormat_of (format : v4l2_format) : StreamFormat.t :=
  StreamFormat.mk (fmt_type format) (pixelformat format) (pix_width format)
                  (pix_height format).

(* The members of V4L2Wrapper that SetFormat touches; [connected] is
   device_fd_.get() >= 0. *)
Record t : Type := mk {
  connected : bool;
  format_ : option StreamFormat.t;
  buffer_size_ : Z
}.

(* Commands that reached the device. *)
Inductive DeviceCommand : Type :=
  | VIDIOC_S_FMT (request : v4l2_format).

(* format_ && resolved_format == *format_ *)
Definition already_negotiated (resolved_format : StreamFormat.t) (w : t) : bool :=
  match format_ w with
  | Some f => StreamFormat.eqb resolved_format f
  | None => false
  end.

Section Device.

(* ioctl(fd, VIDIOC_S_FMT, &format) on the open device: the returned value
   and the content of the structure afterwards. *)
Context (device_s_fmt : v4l2_format -> Z * v4l2_format).

(* ioctlLocked(VIDIOC_S_FMT, &new_format) *)
Definition ioctlLocked_S_FMT (w : t) (new_format : v4l2_format)
    : Z * v4l2_format * list DeviceCommand :=
  if negb (connected w) then (- Errno.ENODEV, new_format, [])
  else
    let '(r, reported) := device_s_fmt new_format in
    (r, reported, [VIDIOC_S_FMT new_format]).

(* int V4L2Wrapper::SetFormat(const StreamFormat& resolved_format): the
   returned code, the wrapper afterwards and the device commands issued. *)
Definition SetFormat (resolved_format : StreamFormat.t) (w : t)
    : Z * t * list DeviceCommand :=
  if already_negotiated resolved_format w then (0, w, [])
  else
    let new_format := FillFormatRequest resolved_format in
    let '(r, new_format, cmds) := ioctlLocked_S_FMT w new_format in
    if r <? 0 then (- Errno.ENODEV, w, cmds)
    else if StreamFormat.neqb resolved_format (StreamFormat_of new_format)
    then (- Errno.EINVAL, w, cmds)
    else (0, mk (connected w) (Some (StreamFormat_of new_format))
                (sizeimage new_format), cmds).

(* What the device left in the structure for a request made through a
   connected wrapper. *)
Definition reported_format (resolved_format : StreamFormat.t) : v4l2_format :=
  snd (device_s_fmt (FillFormatRequest resolved_format)).

End Device.

(* The pixel-format/width/height triple of the claim. *)
Definition same_triple (a b : StreamFormat.t) : Prop :=
  StreamFormat.v4l2_pixel_format_ a = StreamFormat.v4l2_pixel_format_ b /\
  StreamFormat.width_ a = StreamFormat.width_ b /\
  StreamFormat.height_ a = StreamFormat.height_ b.

End V4L2Wrapper.

(* --------------------------------------------------------------------- *)
(*  Concrete inputs used to exercise the model                            *)
(* --------------------------------------------------------------------- *)

Module Samples.
Import Hidl.

(* An output buffer of a request, with its handle set. *)
Definition sample_buffer (sid bid : Z) : StreamBuffer :=
  mkStreamBuffer sid bid (Some bid) BUFFER_OK None None.

(* A request with one output buffer on stream 0 and no input buffer. *)
Definition sample_request (frame : Z) : CaptureRequest :=
  mkCaptureRequest frame CameraTracker.InvalidStreamBuffer
                   [sample_buffer 0 frame].

(* new uint8_t[n] modelled with zeroed content. *)
Definition zeroed (n : Z) : list Z := repeat 0 (Z.to_nat n).

(* A mapped driver buffer of 64 bytes, 16 of them used. *)
Definition small_v4l2_buffer : FrameBuffer.t :=
  FrameBuffer.mk FrameBuffer.V4L2 (zeroed 64) 16 64 4 4
                 FourCC.V4L2_PIX_FMT_YUYV.

(* A malloc-ed buffer of 64 bytes, 16 of them used. *)
Definition small_allocated_buffer : FrameBuffer.t :=
  FrameBuffer.mk FrameBuffer.Allocated (zeroed 64) 16 64 4 4
                 FourCC.V4L2_PIX_FMT_YUV420.

(* A 641x480 YUYV frame: the width is odd. *)
Definition odd_yuyv_frame : FrameBuffer.t :=
  FrameBuffer.mk FrameBuffer.V4L2 [] 0 0 641 480 FourCC.V4L2_PIX_FMT_YUYV.

(* A pixel kernel that always fails and leaves the output untouched. *)
Definition failing_kernel (k : ImageProcessor.Kernel) (m : unit)
    (in_frame out_frame : FrameBuffer.t) : Z * FrameBuffer.t :=
  (-1, out_frame).

(* A reprocessing request: one output buffer on stream 0 and an input
   buffer on stream 1. *)
Definition reprocess_request (frame : Z) : CaptureRequest :=
  mkCaptureRequest frame (sample_buffer 1 100) [sample_buffer 0 frame].

(* Stand-ins for the collaborators of the session. *)
Definition stream_off (d : unit) : Z * unit := (0, d).
Definition keep_result (settings : Z)
    (r : CameraDeviceSession.CaptureResult) : CameraDeviceSession.CaptureResult := r.
Definition no_timestamp (settings : Z) : Z := 0.
Definition join_returns (s : CameraDeviceSession.Session unit)
    : CameraDeviceSession.Outcome unit
        (CameraDeviceSession.Session unit * list CameraDeviceSession.Event) :=
  CameraDeviceSession.Returns (s, []).
Definition stage_ok (c : CameraDeviceSession.StreamConfiguration)
    (s : CameraDeviceSession.Session unit)
    : Status * CameraDeviceSession.Session unit := (OK, s).
Definition result_ok (c : CameraDeviceSession.StreamConfiguration)
    (s : CameraDeviceSession.Session unit)
    : Status * CameraDeviceSession.HalStreamConfiguration
      * CameraDeviceSession.Session unit := (OK, [], s).

(* An open session around a given tracker. *)
Definition session_of (tr : CameraTracker.t) : CameraDeviceSession.Session unit :=
  CameraDeviceSession.mkSession tr false false false true tt.

(* frames 1 and 2 in flight, with one and two output buffers *)
Definition two_in_flight : CameraTracker.t :=
  snd (CameraTracker.trackCapture
         (mkCaptureRequest 2 CameraTracker.InvalidStreamBuffer
                           [sample_buffer 0 20; sample_buffer 1 21])
         (snd (CameraTracker.trackCapture (sample_request 1)
                                          CameraTracker.empty))).

(* the same two frames with their settings tracked *)
Definition two_in_flight_with_settings : CameraTracker.t :=
  snd (CameraTracker.setCaptureSettings
         2 (Some 200)
         (snd (CameraTracker.setCaptureSettings 1 (Some 100) two_in_flight))).

(* a reprocessing request in flight *)
Definition reprocess_in_flight : CameraTracker.t :=
  snd (CameraTracker.trackCapture (reprocess_request 1) CameraTracker.empty).

(* frame 7 without an input buffer, then the reprocessing frames 8 and 9 *)
Definition reprocess_behind_preview : CameraTracker.t :=
  snd (CameraTracker.trackCapture
         (reprocess_request 9)
         (snd (CameraTracker.trackCapture
                 (reprocess_request 8)
                 (snd (CameraTracker.trackCapture (sample_request 7)
                                                  CameraTracker.empty))))).

(* A one-stream configuration. *)
Definition one_output_stream : CameraDeviceSession.StreamConfiguration :=
  CameraDeviceSession.mkStreamConfiguration
    [mkStream 0 OUTPUT 640 480 IMPLEMENTATION_DEFINED 0 0 ROTATION_0] 0.

(* A device that rejects VIDIOC_S_FMT and leaves the request as it is. *)
Definition rejecting_device (request : V4L2Wrapper.v4l2_format)
    : Z * V4L2Wrapper.v4l2_format := (-1, request).

(* A device that accepts any request and reports an image size. *)
Definition accepting_device (request : V4L2Wrapper.v4l2_format)
    : Z * V4L2Wrapper.v4l2_format :=
  (0, V4L2Wrapper.mk_v4l2_format
        (V4L2Wrapper.fmt_type request) (V4L2Wrapper.pixelformat request)
        (V4L2Wrapper.pix_width request) (V4L2Wrapper.pix_height request)
        (V4L2Wrapper.pix_width request * V4L2Wrapper.pix_height request * 2)).

Definition yuyv_vga : StreamFormat.t :=
  StreamFormat.make FourCC.V4L2_PIX_FMT_YUYV 640 480.

(* A connected wrapper with no format negotiated yet. *)
Definition fresh_wrapper : V4L2Wrapper.t := V4L2Wrapper.mk true None 0.

(* libyuv routines that succeed on every input. *)
Definition rotate_ok (a : CachedFrame.ConvertToI420Args) : Z := 0.
Definition scale_ok (a : CachedFrame.I420ScaleArgs) : Z := 0.

(* A YU12 frame of the given dimensions (content left out). *)
Definition yu12_frame (width height : Z) : FrameBuffer.t :=
  FrameBuffer.mk FrameBuffer.Allocated [] (width * height * 3 / 2)
                 (width * height * 3 / 2) width height
                 FourCC.V4L2_PIX_FMT_YUV420.

End Samples.

(* --------------------------------------------------------------------- *)
(*  common/v4l2/stream_format.cpp: HAL <-> V4L2 pixel formats             *)
(* --------------------------------------------------------------------- *)

(* The values of android.hardware.graphics.common PixelFormat that the
   HAL names. *)
Module PixelFormat.
Definition RGBA_8888 : Z := 1.
Definition YCRCB_420_SP : Z := 17.
Definition YCBCR_422_I : Z := 20.
Definition BLOB : Z := 33.
Definition IMPLEMENTATION_DEFINED : Z := 34.
Definition YCBCR_420_888 : Z := 35.
Definition YV12 : Z := 842094169.
End PixelFormat.

Module PixelFormatConversion.
Import FourCC.

(* static int V4L2ToHalPixelFormat(uint32_t v4l2_pixel_format): the HAL
   format, or -1. *)
Definition V4L2ToHalPixelFormat (v4l2_pixel_format : Z) : Z :=
  if v4l2_pixel_format =? V4L2_PIX_FMT_BGR32 then PixelFormat.RGBA_8888
  else if v4l2_pixel_format =? V4L2_PIX_FMT_JPEG then PixelFormat.BLOB
  else if v4l2_pixel_format =? V4L2_PIX_FMT_NV21 then PixelFormat.YCRCB_420_SP
  else if v4l2_pixel_format =? V4L2_PIX_FMT_YUV420 then PixelFormat.YCBCR_420_888
  else if v4l2_pixel_format =? V4L2_PIX_FMT_YUYV then PixelFormat.YCBCR_422_I
  else if v4l2_pixel_format =? V4L2_PIX_FMT_YVU420 then PixelFormat.YV12
  else -1.

(* static uint32_t HalToV4L2PixelFormat(PixelFormat, uint32_t
   implementation_defined): the final [return -1] leaves as a uint32_t. *)
Definition HalToV4L2PixelFormat (hal_pixel_format implementation_defined : Z)
    : Z :=
  if hal_pixel_format =? PixelFormat.BLOB then V4L2_PIX_FMT_JPEG
  else if hal_pixel_format =? PixelFormat.IMPLEMENTATION_DEFINED
  then implementation_defined
  else if hal_pixel_format =? PixelFormat.RGBA_8888 then V4L2_PIX_FMT_BGR32
  else if hal_pixel_format =? PixelFormat.YCBCR_420_888 then V4L2_PIX_FMT_YUV420
  else if hal_pixel_format =? PixelFormat.YCBCR_422_I then V4L2_PIX_FMT_YUYV
  else if hal_pixel_format =? PixelFormat.YCRCB_420_SP then V4L2_PIX_FMT_NV21
  else if hal_pixel_format =? PixelFormat.YV12 then V4L2_PIX_FMT_YVU420
  else MachineInt.to_uint32 (-1).

(* One iteration of the loop of the set overload of V4L2ToHalPixelFormat. *)
Definition add_hal_format (hal_pixel_format : gset Z) (v4l2_pixel_format : Z)
    : gset Z :=
  let hal_format := V4L2ToHalPixelFormat v4l2_pixel_format in
  if hal_format <? 0 then hal_pixel_format
  else {[hal_format]} ∪ hal_pixel_format.

(* int V4L2ToHalPixelFormat(const std::set<uint32_t>, std::set<PixelFormat>* )
   the std::set is walked in increasing order, which [v4l2_pixel_formats]
   lists. *)
Definition V4L2ToHalPixelFormats (v4l2_pixel_formats : list Z)
    (hal_pixel_format : gset Z) : Z * gset Z :=
  (0, fold_left add_hal_format v4l2_pixel_formats hal_pixel_format).

End PixelFormatConversion.

(* What FindMatchingFormat and FindFormatByResolution compare. *)
Module FormatSearch.
Import StreamFormat.

Definition matches_format (p w h : Z) (f : t) : Prop :=
  v4l2_pixel_format_ f = p /\ width_ f = w /\ height_ f = h.

Definition matches_resolution (w h : Z) (f : t) : Prop :=
  width_ f = w /\ height_ f = h.

End FormatSearch.

(* --------------------------------------------------------------------- *)
(*  device/3.2/camera_tracker.cpp: the remaining methods                  *)
(* --------------------------------------------------------------------- *)

Module TrackedBuffers.

(* stream_buffers_: stream id -> (buffer id -> handle); a handle is a
   pointer, None being nullptr. *)
Definition BufferMap : Type := gmap Z (option Z).

(* int trackBuffer(stream_id, buffer_id, buffer):
   stream_buffers_[stream_id][buffer_id] = buffer *)
Definition trackBuffer (stream_id buffer_id : Z) (buffer : option Z)
    (stream_buffers_ : gmap Z BufferMap) : Z * gmap Z BufferMap :=
  let tracked_buffers : BufferMap := default ∅ (stream_buffers_ !! stream_id) in
  (0, <[stream_id := <[buffer_id := buffer]> tracked_buffers]> stream_buffers_).

Definition getBuffer (stream_id buffer_id : Z)
    (stream_buffers_ : gmap Z BufferMap) : option Z :=
  match stream_buffers_ !! stream_id with
  | None => None
  | Some tracked_buffers =>
      match tracked_buffers !! buffer_id with
      | None => None
      | Some buffer => buffer
      end
  end.

(* int untrackStreamBuffers(stream_id, std::vector<buffer_handle_t>* buffers)
   [buffers] is None for a null pointer.  The unordered_map is walked in
   an order the C++ leaves open; the model takes the order of
   map_to_list. *)
Definition untrackStreamBuffers (stream_id : Z)
    (buffers : option (list (option Z))) (stream_buffers_ : gmap Z BufferMap)
    : Z * option (list (option Z)) * gmap Z BufferMap :=
  match stream_buffers_ !! stream_id with
  | None => (-1, buffers, stream_buffers_)
  | Some tracked_buffers =>
      (0,
       match buffers with
       | Some v => Some (v ++ (snd <$> map_to_list tracked_buffers))
       | None => None
       end,
       delete stream_id stream_buffers_)
  end.

(* int untrackBuffer(stream_id, buffer_id, buffer_handle_t* buffer): the
   result, the value written through [buffer] when something is written,
   and the map afterwards. *)
Definition untrackBuffer (stream_id buffer_id : Z)
    (stream_buffers_ : gmap Z BufferMap)
    : Z * option (option Z) * gmap Z BufferMap :=
  match stream_buffers_ !! stream_id with
  | None => (-1, None, stream_buffers_)
  | Some tracked_buffers =>
      match tracked_buffers !! buffer_id with
      | None => (-1, None, stream_buffers_)
      | Some b =>
          (0, Some b,
           <[stream_id := delete buffer_id tracked_buffers]> stream_buffers_)
      end
  end.

(* void clearBuffers(std::vector<buffer_handle_t>* buffers) *)
Definition clearBuffers (buffers : option (list (option Z)))
    (stream_buffers_ : gmap Z BufferMap)
    : option (list (option Z)) * gmap Z BufferMap :=
  (match buffers with
   | Some v =>
       Some (v ++ concat ((fun kv => snd <$> map_to_list (snd kv))
                            <$> map_to_list stream_buffers_))
   | None => None
   end,
   ∅).

End TrackedBuffers.

Module CameraTrackerMore.
Import Hidl CameraTracker.

Definition clearStreams (tr : t) : t :=
  mk ∅ (capture_list_ tr) (tracked_settings_ tr).

Definition set_input_buffer (b : StreamBuffer) (c : TrackedCapture)
    : TrackedCapture :=
  mkTrackedCapture (id c) (output_buffers c) b (output_results c)
                   (input_result c).

(* The loop of popNextInputBuffer over capture_list_. *)
Fixpoint popNextInputBuffer_list (l : list TrackedCapture)
    : StreamBuffer * Z * list TrackedCapture :=
  match l with
  | [] => (InvalidStreamBuffer, -1, [])
  | capture :: rest =>
      if negb (streamId (input_buffer capture) =? -1)
      then (input_buffer capture, MachineInt.to_int32 (id capture),
            set_input_buffer InvalidStreamBuffer capture :: rest)
      else
        let '(res, capture_id, rest') := popNextInputBuffer_list rest in
        (res, capture_id, capture :: rest')
  end.

Definition popNextInputBuffer (tr : t) : StreamBuffer * Z * t :=
  let '(res, capture_id, l) := popNextInputBuffer_list (capture_list_ tr) in
  (res, capture_id, set_capture_list l tr).

Fixpoint saveInputBuffer_list (stream_buffer : StreamBuffer) (capture_id : Z)
    (l : list TrackedCapture) : Z * list TrackedCapture :=
  match l with
  | [] => (-1, [])
  | capture :: rest =>
      if id capture =? capture_id
      then (0, set_input_result stream_buffer capture :: rest)
      else
        let '(r, rest') := saveInputBuffer_list stream_buffer capture_id rest in
        (r, capture :: rest')
  end.

Definition saveInputBuffer (stream_buffer : StreamBuffer) (capture_id : Z)
    (tr : t) : Z * t :=
  let '(r, l) := saveInputBuffer_list stream_buffer capture_id (capture_list_ tr) in
  (r, set_capture_list l tr).

(* [n] calls of popNextOutputBuffer in a row: the (buffer, capture id)
   pairs in the order they were popped, and the tracker afterwards. *)
Fixpoint pop_outputs (n : nat) (tr : t) : list (StreamBuffer * Z) * t :=
  match n with
  | O => ([], tr)
  | S n' =>
      let '(b, capture_id, tr1) := popNextOutputBuffer tr in
      let '(popped, tr2) := pop_outputs n' tr1 in
      ((b, capture_id) :: popped, tr2)
  end.

(* The pending outputs of a capture list in arrival order: capture by
   capture, and within a capture from the front of its queue. *)
Definition pending_in_order (l : list TrackedCapture)
    : list (StreamBuffer * Z) :=
  concat
    (map (fun c =>
            map (fun b => (b, MachineInt.to_int32 (id c))) (output_buffers c))
         l).

(* Captures with a pending input buffer. *)
Definition pending_inputs (l : list TrackedCapture) : nat :=
  length (filter (fun c => streamId (input_buffer c) <> -1) l).

(* The capture list with [f] applied to the first capture of id
   [capture_id], when there is one. *)
Fixpoint update_first (capture_id : Z) (f : TrackedCapture -> TrackedCapture)
    (l : list TrackedCapture) : list TrackedCapture :=
  match l with
  | [] => []
  | c :: rest =>
      if id c =? capture_id then f c :: rest
      else c :: update_first capture_id f rest
  end.

Definition int32_range (x : Z) : Prop :=
  - MachineInt.two31 <= x < MachineInt.two31.

End CameraTrackerMore.

(* Concrete inputs for the tracker. *)
Module TrackerSamples.
Import Hidl.

Definition preview_stream : Stream :=
  mkStream 0 OUTPUT 640 480 PixelFormat.YCBCR_420_888 0 0 ROTATION_0.

End TrackerSamples.

(* --------------------------------------------------------------------- *)
(*  common/arc/image_processor.cpp: format tables                         *)
(* --------------------------------------------------------------------- *)

Module ImageProcessorFormats.
Import FourCC.

(* const std::vector<uint32_t> ImageProcessor::kSupportedFourCCs *)
Definition kSupportedFourCCs : list Z := [V4L2_PIX_FMT_YUYV; V4L2_PIX_FMT_MJPEG].

(* bool SupportsConversion(uint32_t from_fourcc, uint32_t to_fourcc) *)
Definition SupportsConversion (from_fourcc to_fourcc : Z) : bool :=
  if from_fourcc =? V4L2_PIX_FMT_YUYV then to_fourcc =? V4L2_PIX_FMT_YUV420
  else if from_fourcc =? V4L2_PIX_FMT_YUV420 then
    (to_fourcc =? V4L2_PIX_FMT_YUV420)
    || (to_fourcc =? V4L2_PIX_FMT_YVU420) || (to_fourcc =? V4L2_PIX_FMT_NV21)
    || (to_fourcc =? V4L2_PIX_FMT_RGB32) || (to_fourcc =? V4L2_PIX_FMT_BGR32)
    || (to_fourcc =? V4L2_PIX_FMT_JPEG)
  else if from_fourcc =? V4L2_PIX_FMT_MJPEG then to_fourcc =? V4L2_PIX_FMT_YUV420
  else false.

(* The body of the inner loop of GetQualifiedFormats; std::find is the
   membership test. *)
Definition qualify_format (supported_fourcc : Z) (qualified_formats : list Z)
    (supported_format : Z) : list Z :=
  if negb (supported_format =? supported_fourcc) then qualified_formats
  else if existsb (Z.eqb supported_format) qualified_formats
  then qualified_formats
  else qualified_formats ++ [supported_format].

(* int GetQualifiedFormats(const std::set<uint32_t>& supported_formats,
   std::vector<uint32_t>* qualified_formats): [supported_formats] lists
   the set in the order it is walked. *)
Definition GetQualifiedFormats (supported_formats : list Z)
    (qualified_formats : list Z) : Z * list Z :=
  (0,
   fold_left
     (fun qualified supported_fourcc =>
        fold_left (qualify_format supported_fourcc) supported_formats qualified)
     kSupportedFourCCs qualified_formats).

(* The entry [fourcc] that one pass of the outer loop appends, if any. *)
Definition newly_qualified (fourcc : Z) (supported_formats qualified : list Z)
    : list Z :=
  if existsb (Z.eqb fourcc) supported_formats
     && negb (existsb (Z.eqb fourcc) qualified)
  then [fourcc] else [].

End ImageProcessorFormats.

(* --------------------------------------------------------------------- *)
(*  device/3.2/camera_device_session.cpp: configuration and requests      *)
(* --------------------------------------------------------------------- *)

Module BufferUsage.
Definition CPU_READ_OFTEN : Z := 3.
Definition CPU_WRITE_OFTEN : Z := 48.
End BufferUsage.

Module CameraDeviceSessionMore.
Import Hidl CameraTracker CameraDeviceSession.

Definition MAX_BUFFER_NUMBER : Z := 3.

Definition is_shutter (e : Event) : bool :=
  match e with
  | Notify (MsgShutter _ _) => true
  | _ => false
  end.

Definition is_capture_result (e : Event) : bool :=
  match e with
  | ProcessCaptureResult _ => true
  | _ => false
  end.

Definition count_shutters (log : list Event) : nat :=
  length (filter (fun e => is_shutter e = true) log).

Definition count_capture_results (log : list Event) : nat :=
  length (filter (fun e => is_capture_result e = true) log).

(* Requested streams of one type. *)
Definition count_streams_of_type (ty : StreamType) (l : list Stream) : nat :=
  length (filter (fun st => StreamType_eqb (streamType st) ty = true) l).

(* What configureStreamsVerification compares between a tracked stream and
   the requested stream of the same id. *)
Definition same_stream_properties (tracked requested : Stream) : Prop :=
  streamType tracked = streamType requested /\
  stream_width tracked = stream_width requested /\
  stream_height tracked = stream_height requested /\
  stream_format tracked = stream_format requested /\
  dataSpace tracked = dataSpace requested.

(* The largest value of a member over the streams [first :: rest]. *)
Definition largest (member : Stream -> Z) (first : Stream)
    (rest : list Stream) : Z :=
  fold_left Z.max (map member rest) (member first).

Definition set_stream_format (format : Z) (s : Stream) : Stream :=
  mkStream (stream_id s) (streamType s) (stream_width s) (stream_height s)
           format (usage s) (dataSpace s) (rotation s).

Definition set_stream_usage (u : Z) (s : Stream) : Stream :=
  mkStream (stream_id s) (streamType s) (stream_width s) (stream_height s)
           (stream_format s) u (dataSpace s) (rotation s).

Section Formats.

(* implem_defined_format_, supported_formats_ and qualified_formats_ of
   the session. *)
Context (implem_defined_format_ : Z).
Context (supported_formats_ qualified_formats_ : list StreamFormat.t).

(* The loop of findBestFitFormat over streams[1..]. *)
Fixpoint findBestFitFormat_loop (l : list Stream) (format width height : Z)
    (formats : gset Z) : Z * Z * Z * gset Z :=
  match l with
  | [] => (format, width, height, formats)
  | stream :: rest =>
      let format :=
        PixelFormatConversion.HalToV4L2PixelFormat (stream_format stream)
                                                   implem_defined_format_ in
      let formats := {[format]} ∪ formats in
      let height :=
        if height <? stream_height stream then stream_height stream
        else height in
      let width :=
        if width <? stream_width stream then stream_width stream else width in
      findBestFitFormat_loop rest format width height formats
  end.

(* Status findBestFitFormat(requested_configuration, StreamFormat* ): the
   status and the format written through the pointer, if one is written.
   None stands for the read of streams[0] in an empty vector and for an
   index outside the format array. *)
Definition findBestFitFormat (requested_configuration : StreamConfiguration)
    : option (Status * option StreamFormat.t) :=
  match streams requested_configuration with
  | [] => None
  | stream :: rest =>
      let format :=
        PixelFormatConversion.HalToV4L2PixelFormat (stream_format stream)
                                                   implem_defined_format_ in
      let '(format, width, height, formats) :=
        findBestFitFormat_loop rest format (stream_width stream)
                               (stream_height stream) {[format]} in
      let index :=
        if (size formats =? 1)%nat
        then StreamFormat.FindMatchingFormat supported_formats_ format width
                                             height
        else -1 in
      if ((size formats =? 1)%nat) && (0 <=? index) then
        match supported_formats_ !! Z.to_nat index with
        | Some f => Some (OK, Some f)
        | None => None
        end
      else if negb (forallb
                      (ImageProcessorFormats.SupportsConversion
                         FourCC.V4L2_PIX_FMT_YUV420)
                      (elements formats))
      then Some (ILLEGAL_ARGUMENT, None)
      else
        let index :=
          StreamFormat.FindFormatByResolution qualified_formats_ width height in
        if 0 <=? index then
          match qualified_formats_ !! Z.to_nat index with
          | Some f => Some (OK, Some f)
          | None => None
          end
        else Some (ILLEGAL_ARGUMENT, None)
  end.

(* The HalStream that configureStreamResult fills for one stream,
   starting from the zeroed entry. *)
Definition hal_stream_of (stream : Stream) : HalStream :=
  let consumerUsage :=
    match streamType stream with
    | OUTPUT => 0
    | INPUT => Z.lor 0 BufferUsage.CPU_READ_OFTEN
    end in
  let producerUsage :=
    match streamType stream with
    | OUTPUT => Z.lor 0 BufferUsage.CPU_WRITE_OFTEN
    | INPUT => 0
    end in
  let overrideFormat :=
    if stream_format stream =? IMPLEMENTATION_DEFINED
    then PixelFormatConversion.V4L2ToHalPixelFormat implem_defined_format_
    else stream_format stream in
  let maxBuffers := MAX_BUFFER_NUMBER in
  let maxBuffers := if maxBuffers =? 0 then 1 else maxBuffers in
  mkHalStream (stream_id stream) overrideFormat producerUsage consumerUsage
              maxBuffers.

(* The stream as the tracker holds it once the loop body has run: the
   reference returned by trackStream is written through. *)
Definition tracked_stream_of (stream : Stream) : Stream :=
  let hal_stream := hal_stream_of stream in
  let s :=
    if stream_format stream =? IMPLEMENTATION_DEFINED
    then set_stream_format (overrideFormat hal_stream) stream
    else stream in
  set_stream_usage
    (Z.lor (usage s) (Z.lor (consumerUsage hal_stream) (producerUsage hal_stream)))
    s.

Fixpoint configureStreamResult_loop (l : list Stream) (tr : CameraTracker.t)
    : HalStreamConfiguration * CameraTracker.t :=
  match l with
  | [] => ([], tr)
  | stream :: rest =>
      let tr1 := trackStream (tracked_stream_of stream) tr in
      let '(configuration, tr2) := configureStreamResult_loop rest tr1 in
      (hal_stream_of stream :: configuration, tr2)
  end.

Section Result.

Context {Driver : Type}.

(* Status configureStreamResult(requested_configuration, configuration) *)
Definition configureStreamResult (requested_configuration : StreamConfiguration)
    (s : Session Driver) : Status * HalStreamConfiguration * Session Driver :=
  let '(configuration, tr) :=
    configureStreamResult_loop (streams requested_configuration)
                               (camera_tracker_ s) in
  (OK, configuration, set_tracker tr s).

End Result.

End Formats.

Section Requests.

Context {Driver : Type}.
(* The end of close(): capture_active_.signal() and
   capture_result_thread_->join(). *)
Context (join_capture_thread :
           Session Driver -> Outcome Driver (Session Driver * list Event)).
(* The members of a freshly constructed CaptureResult that the one-argument
   processCaptureRequestError never assigns. *)
Context (unassigned_fmqResultSize : Z) (unassigned_status : BufferStatus).
(* v4l2_wrapper_->StreamOn(), v4l2_wrapper_->EnqueueRequest(i) and
   v4l2_buffers_.size() *)
Context (StreamOn : Driver -> Z * Driver).
Context (EnqueueRequest : Z -> Driver -> Z * Driver).
Context (v4l2_buffers_size : Driver -> nat).

Definition error_output_buffer (stream_buffer : StreamBuffer) : StreamBuffer :=
  mkStreamBuffer (streamId stream_buffer) (bufferId stream_buffer) None
                 BUFFER_ERROR None (acquireFence stream_buffer).

Definition error_input_buffer (inputBuffer : StreamBuffer) : StreamBuffer :=
  if negb (streamId inputBuffer =? -1)
  then mkStreamBuffer (streamId inputBuffer) (bufferId inputBuffer) None
                      BUFFER_ERROR None (acquireFence inputBuffer)
  else mkStreamBuffer (-1) 0 None unassigned_status None None.

(* void processCaptureRequestError(const CaptureRequest&): the result
   handed to the callback. *)
Definition error_result (request : CaptureRequest) : CaptureResult :=
  mkCaptureResult (frameNumber request) unassigned_fmqResultSize None
                  (map error_output_buffer (outputBuffers request))
                  (error_input_buffer (inputBuffer request)) 1.

(* The caller returns its own status after a callee whose status it
   drops; it goes no further than the callee does. *)
Definition returning (status : Status)
    (callee : Outcome Driver (Status * Session Driver * list Event))
    : Outcome Driver (Status * Session Driver * list Event) :=
  match callee with
  | Returns (_, s, log) => Returns (status, s, log)
  | Undefined => Undefined
  | NeverReturns s log => NeverReturns s log
  end.

(* Status processCaptureRequestError(const CaptureRequest&, ErrorCode).
   All its callers run inside processOneCaptureRequest, which holds
   flush_queue_lock_: that is the close() of the ERROR_DEVICE case. *)
Definition processCaptureRequestError (request : CaptureRequest)
    (error : ErrorCode) (s : Session Driver)
    : Outcome Driver (Status * Session Driver * list Event) :=
  let error_msg := Notify (MsgError (frameNumber request) (-1) error) in
  match error with
  | ERROR_DEVICE =>
      let s1 := set_tracker (clearCaptures (camera_tracker_ s)) s in
      match close join_capture_thread s1 with
      | Returns (s2, log) => Returns (OK, s2, error_msg :: log)
      | Undefined => Undefined
      | NeverReturns s2 log => NeverReturns s2 (error_msg :: log)
      end
  | ERROR_REQUEST =>
      Returns (OK, s, [error_msg; ProcessCaptureResult (error_result request)])
  | ERROR_RESULT => Returns (OK, s, [error_msg])
  | ERROR_BUFFER => Returns (OK, s, [error_msg])
  end.

(* Status processCaptureRequestVerification(const CaptureRequest&); the
   three sizes are request.fmqSettingsSize, request.settings.size() and
   previous_settings_.size(). *)
Definition processCaptureRequestVerification (request : CaptureRequest)
    (fmqSettingsSize settings_size previous_settings_size : Z)
    (s : Session Driver)
    : Outcome Driver (Status * Session Driver * list Event) :=
  let status := initStatus s in
  if Status_eqb status INTERNAL_ERROR then
    returning status (processCaptureRequestError request ERROR_DEVICE s)
  else if Status_eqb status CAMERA_DISCONNECTED then
    returning status (processCaptureRequestError request ERROR_REQUEST s)
  else if (fmqSettingsSize =? 0) && (previous_settings_size =? 0)
          && (settings_size =? 0) then
    returning ILLEGAL_ARGUMENT
              (processCaptureRequestError request ERROR_REQUEST s)
  else if Z.of_nat (length (outputBuffers request)) <? 1 then
    returning ILLEGAL_ARGUMENT
              (processCaptureRequestError request ERROR_REQUEST s)
  else Returns (status, s, []).

(* for (i = 0; i < v4l2_buffers_.size(); ++i) EnqueueRequest(i) *)
Fixpoint enqueue_all (n : nat) (i : Z) (d : Driver) : Driver :=
  match n with
  | O => d
  | S n' => enqueue_all n' (i + 1) (snd (EnqueueRequest i d))
  end.

(* Status processCaptureRequestEnqueue(request, settings) *)
Definition processCaptureRequestEnqueue (request : CaptureRequest)
    (settings : option Z) (s : Session Driver)
    : Outcome Driver (Status * Session Driver * list Event) :=
  let s1 :=
    if negb (started_ s) then
      let d1 := snd (StreamOn (driver_ s)) in
      let d2 := enqueue_all (v4l2_buffers_size d1) 0 d1 in
      mkSession (camera_tracker_ s) (init_fail_ s) (disconnected_ s)
                (closed_ s) true d2
    else s in
  let '(id, tr1) := trackCapture request (camera_tracker_ s1) in
  let s2 := set_tracker tr1 s1 in
  if id <? 0 then
    returning INTERNAL_ERROR
              (processCaptureRequestError request ERROR_DEVICE s2)
  else
    let '(_, tr2) :=
      setCaptureSettings (MachineInt.to_uint32 id) settings
                         (camera_tracker_ s2) in
    Returns (OK, set_tracker tr2 s2, []).

(* Status processOneCaptureRequest(const CaptureRequest&) *)
Context (processOneCaptureRequest :
           CaptureRequest -> Session Driver
           -> Status * Session Driver * list Event).

(* The loop of processCaptureRequest over the requests; res and
   num_request_processed are what _hidl_cb receives. *)
Fixpoint processCaptureRequest_loop (requests : list CaptureRequest)
    (res : Status) (num_request_processed : Z) (s : Session Driver)
    (log : list Event) : Status * Z * Session Driver * list Event :=
  match requests with
  | [] => (res, num_request_processed, s, log)
  | request :: rest =>
      let '(st, s1, log1) := processOneCaptureRequest request s in
      if Status_eqb st OK
      then processCaptureRequest_loop
             rest res (MachineInt.to_uint32 (num_request_processed + 1)) s1
             (log ++ log1)
      else processCaptureRequest_loop rest st num_request_processed s1
                                      (log ++ log1)
  end.

End Requests.

(* A (stream, buffer id) pair with a tracked handle. *)
Definition is_tracked (stream_id buffer_id : Z)
    (stream_buffers_ : gmap Z TrackedBuffers.BufferMap) : Prop :=
  exists tracked_buffers buffer,
    stream_buffers_ !! stream_id = Some tracked_buffers /\
    tracked_buffers !! buffer_id = Some buffer.

(* What the one-argument processCaptureRequestError makes of a buffer of
   the request. *)
Definition returned_in_error (requested returned : StreamBuffer) : Prop :=
  streamId returned = streamId requested /\
  bufferId returned = bufferId requested /\
  buffer returned = None /\
  status returned = BUFFER_ERROR /\
  acquireFence returned = None /\
  releaseFence returned = acquireFence requested.

(* void updateBufferCaches(caches_to_remove) on the tracked buffers: the
   handles given to freeBuffer, in order, and the map afterwards. *)
Fixpoint updateBufferCaches (caches_to_remove : list (Z * Z))
    (stream_buffers_ : gmap Z TrackedBuffers.BufferMap)
    : list (option Z) * gmap Z TrackedBuffers.BufferMap :=
  match caches_to_remove with
  | [] => ([], stream_buffers_)
  | (streamId, bufferId) :: rest =>
      match TrackedBuffers.untrackBuffer streamId bufferId stream_buffers_ with
      | (r, Some buffer, m) =>
          if r <? 0 then updateBufferCaches rest m
          else
            let '(freed, m') := updateBufferCaches rest m in
            (buffer :: freed, m')
      | (r, None, m) => updateBufferCaches rest m
      end
  end.

(* Concrete inputs. *)
Definition vga_yuyv_request : StreamConfiguration :=
  mkStreamConfiguration
    [mkStream 0 OUTPUT 640 480 PixelFormat.YCBCR_422_I 0 0 ROTATION_0] 0.

(* A request whose frame number does not fit an int. *)
Definition late_request : CaptureRequest :=
  mkCaptureRequest MachineInt.two31 InvalidStreamBuffer
                   [Samples.sample_buffer 0 1].

Definition stream_on (d : unit) : Z * unit := (0, d).
Definition enqueue_nothing (i : Z) (d : unit) : Z * unit := (0, d).
Definition no_buffers (d : unit) : nat := O.

(* A request processor that accepts the frames below 10. *)
Definition accept_below_ten (request : CaptureRequest) (s : Session unit)
    : Status * Session unit * list Event :=
  if frameNumber request <? 10 then (OK, s, [])
  else (ILLEGAL_ARGUMENT, s, []).

Definition one_supported_format : list StreamFormat.t :=
  [StreamFormat.make FourCC.V4L2_PIX_FMT_YUYV 640 480].

End CameraDeviceSessionMore.

(* --------------------------------------------------------------------- *)
(*  common/arc/image_processor.cpp: the YU12 to NV21 kernel               *)
(* --------------------------------------------------------------------- *)

Module YU12Kernel.

(* The loop state: the destination bytes and the three cursors u_src,
   v_src and vu_dst, as offsets from the start of their buffer. *)
Definition Cursor : Type := (list Z * nat * nat * nat)%type.

(* *p = v through a pointer at offset [i] of [dst]; None outside the
   buffer. *)
Definition store (i : nat) (v : Z) (dst : list Z) : option (list Z) :=
  if decide (i < length dst)%nat then Some (<[i := v]> dst) else None.

(* for (j = 0; j < width / 2; j++) { *vu_dst++ = *v_src++;
                                     *vu_dst++ = *u_src++; } *)
Fixpoint interleave_row (n : nat) (src : list Z) (st : Cursor) : option Cursor :=
  match n with
  | O => Some st
  | S n' =>
      let '(dst, u_src, v_src, vu_dst) := st in
      v ← src !! v_src;
      dst1 ← store vu_dst v dst;
      u ← src !! u_src;
      dst2 ← store (S vu_dst) u dst1;
      interleave_row n' src (dst2, S u_src, S v_src, S (S vu_dst))
  end.

(* for (i = 0; i < height / 2; i++) ... *)
Fixpoint interleave_rows (rows cols : nat) (src : list Z) (st : Cursor)
    : option Cursor :=
  match rows with
  | O => Some st
  | S rows' =>
      st' ← interleave_row cols src st;
      interleave_rows rows' cols src st'
  end.

(* memcpy(dst, src, n) *)
Definition memcpy (dst src : list Z) (n : nat) : option (list Z) :=
  if decide (n <= length src)%nat then
    if decide (n <= length dst)%nat then Some (take n src ++ drop n dst)
    else None
  else None.

(* int YU12ToNV21(const void* yu12, void* nv21, int width, int height):
   the returned code and the bytes of nv21 afterwards.  None where the
   C++ is undefined: signed overflow of the offsets, an access outside
   one of the two buffers. *)
Definition YU12ToNV21 (yu12 nv21 : list Z) (width height : Z)
    : option (Z * list Z) :=
  if negb (Z.rem width 2 =? 0) || negb (Z.rem height 2 =? 0)
  then Some (- Errno.EINVAL, nv21)
  else
    y_size ← MachineInt.checked_int (width * height);
    y_size5 ← MachineInt.checked_int (y_size * 5);
    let u_src := y_size in
    let v_src := Z.quot y_size5 4 in
    let vu_dst := y_size in
    if y_size <? 0 then None
    else
      dst ← memcpy nv21 yu12 (Z.to_nat y_size);
      st ← interleave_rows (Z.to_nat (Z.quot height 2))
                           (Z.to_nat (Z.quot width 2)) yu12
                           (dst, Z.to_nat u_src, Z.to_nat v_src,
                            Z.to_nat vu_dst);
      Some (0, st.1.1.1).

(* A 2x2 YU12 frame: four luma bytes, then U, then V. *)
Definition tiny_yu12 : list Z := [10; 11; 12; 13; 20; 30].

End YU12Kernel.

(* --------------------------------------------------------------------- *)
(*  common/arc/cached_frame.cpp: SetSource                                *)
(* --------------------------------------------------------------------- *)

Module CachedFrameSource.
Import FourCC.

(* AllocatedFrameBuffer::SetWidth and SetHeight *)
Definition SetWidth (width : Z) (f : FrameBuffer.t) : FrameBuffer.t :=
  FrameBuffer.mk (FrameBuffer.kind f) (FrameBuffer.data_ f)
                 (FrameBuffer.data_size_ f) (FrameBuffer.buffer_size_ f)
                 width (FrameBuffer.height_ f) (FrameBuffer.fourcc_ f).

Definition SetHeight (height : Z) (f : FrameBuffer.t) : FrameBuffer.t :=
  FrameBuffer.mk (FrameBuffer.kind f) (FrameBuffer.data_ f)
                 (FrameBuffer.data_size_ f) (FrameBuffer.buffer_size_ f)
                 (FrameBuffer.width_ f) height (FrameBuffer.fourcc_ f).

Section Libyuv.

Context (size_bits : Z).
Context (new_array : Z -> list Z).
Context {CameraMetadata : Type}.
(* CameraMetadata(): the empty metadata ConvertToYU12 passes on. *)
Context (empty_metadata : CameraMetadata).
Context (run_kernel : ImageProcessor.Kernel -> CameraMetadata -> FrameBuffer.t
                      -> FrameBuffer.t -> Z * FrameBuffer.t).
Context (ConvertToI420 : CachedFrame.ConvertToI420Args -> Z).
Context (I420Scale : CachedFrame.I420ScaleArgs -> Z).

(* int CachedFrame::ConvertToYU12(): the returned code and yu12_frame_
   afterwards. *)
Definition ConvertToYU12 (source_frame_ yu12_frame_ : FrameBuffer.t)
    : Z * FrameBuffer.t :=
  let cache_size :=
    ImageProcessor.GetConvertedSize size_bits V4L2_PIX_FMT_YUV420
                                    (FrameBuffer.GetWidth source_frame_)
                                    (FrameBuffer.GetHeight source_frame_) in
  if cache_size =? 0 then (- Errno.EINVAL, yu12_frame_)
  else
    let '(_, f1) := FrameBuffer.SetDataSize new_array cache_size yu12_frame_ in
    let f2 := FrameBuffer.SetFourcc V4L2_PIX_FMT_YUV420 f1 in
    let f3 := SetWidth (FrameBuffer.GetWidth source_frame_) f2 in
    let f4 := SetHeight (FrameBuffer.GetHeight source_frame_) f3 in
    let '(res, f5) :=
      ImageProcessor.ConvertFormat size_bits new_array run_kernel
                                   empty_metadata source_frame_ f4 in
    if negb (res =? 0) then (res, f5) else (0, f5).

(* int CachedFrame::SetSource(const FrameBuffer* frame, int rotate_degree):
   the returned code, yu12_frame_ and cropped_buffer_capacity_ afterwards
   and the libyuv calls of CropRotateScale. *)
Definition SetSource (frame : FrameBuffer.t) (rotate_degree : Z)
    (yu12_frame_ : FrameBuffer.t) (cropped_buffer_capacity_ : Z)
    : option (Z * FrameBuffer.t * Z * list CachedFrame.LibyuvCall) :=
  let '(res, yu12) := ConvertToYU12 frame yu12_frame_ in
  if negb (res =? 0) then Some (res, yu12, cropped_buffer_capacity_, [])
  else if 0 <? rotate_degree then
    match CachedFrame.CropRotateScale size_bits ConvertToI420 I420Scale yu12
                                      cropped_buffer_capacity_ rotate_degree with
    | Some (res, capacity, calls) => Some (res, yu12, capacity, calls)
    | None => None
    end
  else Some (res, yu12, cropped_buffer_capacity_, []).

End Libyuv.

(* yu12_frame_ of a new CachedFrame: AllocatedFrameBuffer(0). *)
Definition empty_yu12_frame : FrameBuffer.t :=
  FrameBuffer.mk FrameBuffer.Allocated [] 0 0 0 0 0.

End CachedFrameSource.

(* --------------------------------------------------------------------- *)
(*  common/v4l2/v4l2_wrapper.cpp: Connect and Disconnect                  *)
(* --------------------------------------------------------------------- *)

Module V4L2Connection.

(* The members Connect and Disconnect touch. *)
Record t : Type := mk {
  device_fd_ : Z;
  connection_count_ : Z;
  format_ : option StreamFormat.t;
  extended_query_supported_ : bool
}.

(* V4L2Wrapper(device_path): no descriptor, no connection. *)
Definition initial : t := mk (-1) 0 None false.

Definition Connected (w : t) : bool := 0 <=? device_fd_ w.

(* int Connect(): [open_result] is what open() returns, [query_result]
   what the VIDIOC_QUERY_EXT_CTRL ioctl returns on the new descriptor.
   None is the overflow of ++connection_count_. *)
Definition Connect (open_result query_result : Z) (w : t) : option (Z * t) :=
  if Connected w then
    count ← MachineInt.checked_int (connection_count_ w + 1);
    Some (0, mk (device_fd_ w) count (format_ w) (extended_query_supported_ w))
  else
    let fd := open_result in
    if fd <? 0 then Some (- Errno.ENODEV, w)
    else
      count ← MachineInt.checked_int (connection_count_ w + 1);
      Some (0, mk fd count (format_ w) (query_result =? 0)).

(* void Disconnect() *)
Definition Disconnect (w : t) : option t :=
  if connection_count_ w =? 0 then Some w
  else
    count ← MachineInt.checked_int (connection_count_ w - 1);
    if 0 <? count
    then Some (mk (device_fd_ w) count (format_ w) (extended_query_supported_ w))
    else Some (mk (-1) count None (extended_query_supported_ w)).

(* What holds between two calls: the descriptor is open exactly while
   connections remain, and a closed wrapper has no negotiated format. *)
Definition consistent (w : t) : Prop :=
  0 <= connection_count_ w /\
  (Connected w = true <-> 0 < connection_count_ w) /\
  (Connected w = false -> format_ w = None).

End V4L2Connection.

(* --------------------------------------------------------------------- *)
(*  common/arc/frame_buffer.cpp: V4L2FrameBuffer::Map and Unmap           *)
(* --------------------------------------------------------------------- *)

Module V4L2Mapping.

(* The system calls made on the buffer, with their outcome. *)
Inductive Syscall : Type :=
  | Mmap (ok : bool)
  | Munmap (ok : bool).

(* int V4L2FrameBuffer::Map(): [mmap_ok] tells whether mmap succeeds when
   it is called.  The result, is_mapped_ afterwards and the call made. *)
Definition Map (mmap_ok : bool) (is_mapped_ : bool) : Z * bool * list Syscall :=
  if is_mapped_ then (- Errno.EINVAL, is_mapped_, [])
  else if negb mmap_ok then (- Errno.EINVAL, is_mapped_, [Mmap false])
  else (0, true, [Mmap true]).

(* int V4L2FrameBuffer::Unmap(): munmap returns non-zero on failure. *)
Definition Unmap (munmap_ok : bool) (is_mapped_ : bool)
    : Z * bool * list Syscall :=
  if is_mapped_ then
    if negb munmap_ok then (- Errno.EINVAL, is_mapped_, [Munmap false])
    else (0, false, [Munmap true])
  else (0, false, []).

(* A call of the client with the outcome the system would give. *)
Inductive Call : Type :=
  | CallMap (mmap_ok : bool)
  | CallUnmap (munmap_ok : bool).

Definition call (c : Call) (is_mapped_ : bool) : Z * bool * list Syscall :=
  match c with
  | CallMap ok => Map ok is_mapped_
  | CallUnmap ok => Unmap ok is_mapped_
  end.

(* A sequence of calls on one buffer: is_mapped_ at the end and all the
   system calls made. *)
Fixpoint run (calls : list Call) (is_mapped_ : bool) : bool * list Syscall :=
  match calls with
  | [] => (is_mapped_, [])
  | c :: rest =>
      let '(_, mapped, log) := call c is_mapped_ in
      let '(mapped', log') := run rest mapped in
      (mapped', log ++ log')
  end.

(* Mappings established minus mappings released. *)
Fixpoint live_mappings (log : list Syscall) : Z :=
  match log with
  | [] => 0
  | Mmap true :: rest => 1 + live_mappings rest
  | Munmap true :: rest => live_mappings rest - 1
  | _ :: rest => live_mappings rest
  end.

End V4L2Mapping.

(* ===================================================================== *)
(*  Properties                                                            *)
(* ===================================================================== *)

Module MachineIntFacts.
Import MachineInt.

Lemma to_uint32_small x : is_uint32 x -> to_uint32 x = x.
Proof. unfold is_uint32, to_uint32. intros H. apply Z.mod_small. exact H. Qed.

Lemma to_int32_small x : 0 <= x < two31 -> to_int32 x = x.
Proof.
  unfold to_int32, two31, two32. intros H.
  rewrite Z.mod_small by lia.
  destruct (Z.ltb_spec x (2 ^ 31)); lia.
Qed.

Lemma to_int32_large x : two31 <= x < two32 -> to_int32 x = x - two32.
Proof.
  unfold to_int32, two31, two32. intros H.
  rewrite Z.mod_small by lia.
  destruct (Z.ltb_spec x (2 ^ 31)); lia.
Qed.

Lemma checked_int_in_range x :
  int_min <= x <= int_max -> checked_int x = Some x.
Proof.
  unfold checked_int. intros [Hlo Hhi].
  apply Z.leb_le in Hlo. apply Z.leb_le in Hhi.
  rewrite Hlo, Hhi. reflexivity.
Qed.

End MachineIntFacts.

(* --------------------------------------------------------------------- *)
(*  StreamFormat                                                          *)
(* --------------------------------------------------------------------- *)

Module StreamFormatFacts.
Import StreamFormat.

Lemma eqb_eq a b : eqb a b = true <-> a = b.
Proof.
  destruct a as [t1 p1 w1 h1], b as [t2 p2 w2 h2]. unfold eqb. simpl.
  rewrite !andb_true_iff, !Z.eqb_eq. split.
  - intros [[[-> ->] ->] ->]. reflexivity.
  - intros H. injection H as -> -> -> ->. auto.
Qed.

Lemma eqb_refl a : eqb a a = true.
Proof. apply eqb_eq. reflexivity. Qed.

(* FindFormatByResolution answers -1 or the position of an entry with the
   requested resolution. *)
Lemma FindFormatByResolution_from_range i formats w h :
  FindFormatByResolution_from i formats w h = -1 \/
  i <= FindFormatByResolution_from i formats w h < i + Z.of_nat (length formats).
Proof.
  revert i. induction formats as [|f rest IH]; intros i; simpl.
  - left. reflexivity.
  - destruct ((width_ f =? w) && (height_ f =? h)).
    + right. lia.
    + destruct (IH (i + 1)) as [->|H]; [left; reflexivity | right; lia].
Qed.

Lemma FindFormatByResolution_from_hit i formats w h :
  FindFormatByResolution_from i formats w h <> -1 ->
  exists f, formats !! Z.to_nat (FindFormatByResolution_from i formats w h - i)
            = Some f /\ width_ f = w /\ height_ f = h.
Proof.
  revert i. induction formats as [|f rest IH]; intros i; simpl.
  - intros H. contradiction.
  - destruct ((width_ f =? w) && (height_ f =? h)) eqn:E.
    + intros _. exists f. rewrite Z.sub_diag. simpl.
      apply andb_true_iff in E as [E1 E2].
      apply Z.eqb_eq in E1, E2. auto.
    + intros H. destruct (IH (i + 1) H) as (g & Hg & Hw & Hh).
      exists g. split; [|auto].
      pose proof (FindFormatByResolution_from_range (i + 1) rest w h) as [R|R];
        [contradiction|].
      replace (Z.to_nat (FindFormatByResolution_from (i + 1) rest w h - i))
        with (S (Z.to_nat (FindFormatByResolution_from (i + 1) rest w h - (i + 1))))
        by lia.
      exact Hg.
Qed.

(* One step of the inner loop keeps what was collected and adds at most
   the examined stream, at the end. *)
Lemma qualify_step_cases q acc s :
  qualify_step q acc s = acc \/
  (qualify_step q acc s = acc ++ [s] /\ v4l2_pixel_format_ s = q).
Proof.
  unfold qualify_step.
  destruct (v4l2_pixel_format_ s =? q) eqn:E; simpl.
  - destruct (0 <? _); [left; reflexivity|].
    right. split; [reflexivity|]. apply Z.eqb_eq. exact E.
  - left. reflexivity.
Qed.

Lemma inner_loop_elements q supported :
  forall acc x,
    x ∈ fold_left (qualify_step q) supported acc ->
    x ∈ acc \/ (x ∈ supported /\ v4l2_pixel_format_ x = q).
Proof.
  induction supported as [|s rest IH]; intros acc x Hx; simpl in Hx.
  - left. exact Hx.
  - destruct (IH _ _ Hx) as [H|[H1 H2]].
    + destruct (qualify_step_cases q acc s) as [E|[E Hq]]; rewrite E in H.
      * left. exact H.
      * apply elem_of_app in H as [H|H]; [left; exact H|].
        apply list_elem_of_singleton in H. subst x.
        right. split; [left|exact Hq].
    + right. split; [right; exact H1|exact H2].
Qed.

Lemma outer_loop_elements supported :
  forall qualified acc x,
    x ∈ fold_left
          (fun qs q => fold_left (qualify_step q) supported qs) qualified acc ->
    x ∈ acc \/ (x ∈ supported /\ v4l2_pixel_format_ x ∈ qualified).
Proof.
  induction qualified as [|q rest IH]; intros acc x Hx; simpl in Hx.
  - left. exact Hx.
  - destruct (IH _ _ Hx) as [H|[H1 H2]].
    + destruct (inner_loop_elements _ _ _ _ H) as [H'|[H1 H2]].
      * left. exact H'.
      * right. split; [exact H1|]. rewrite H2. left.
    + right. split; [exact H1|right; exact H2].
Qed.

(* Every qualified stream is one of the supported streams and carries one
   of the qualified pixel formats. *)
Lemma GetQualifiedStreams_drawn_from_supported qualified supported x :
  x ∈ GetQualifiedStreams qualified supported ->
  x ∈ supported /\ v4l2_pixel_format_ x ∈ qualified.
Proof.
  unfold GetQualifiedStreams. intros H.
  destruct (outer_loop_elements _ _ _ _ H) as [H'|H']; [|exact H'].
  apply elem_of_nil in H'. contradiction.
Qed.

(* The inner loop only appends, and what it appends follows the order of
   the supported streams of that format. *)
Lemma inner_loop_appends q supported :
  forall acc,
    exists added,
      fold_left (qualify_step q) supported acc = acc ++ added /\
      sublist added (filter (fun s => v4l2_pixel_format_ s = q) supported).
Proof.
  induction supported as [|s rest IH]; intros acc; simpl.
  - exists []. rewrite app_nil_r. split; [reflexivity|constructor].
  - destruct (qualify_step_cases q acc s) as [E|[E Hq]]; rewrite E.
    + destruct (IH acc) as (added & Hfold & Hsub).
      exists added. split; [exact Hfold|].
      rewrite filter_cons. case_decide; [apply sublist_cons|]; exact Hsub.
    + destruct (IH (acc ++ [s])) as (added & Hfold & Hsub).
      exists (s :: added). split.
      * rewrite Hfold, <- app_assoc. reflexivity.
      * rewrite filter_cons_True by exact Hq. apply sublist_skip. exact Hsub.
Qed.

Lemma outer_loop_appends supported :
  forall qualified acc,
    exists added,
      fold_left (fun qs q => fold_left (qualify_step q) supported qs)
                qualified acc = acc ++ added /\
      sublist added (by_priority qualified supported).
Proof.
  induction qualified as [|q rest IH]; intros acc; simpl.
  - exists []. rewrite app_nil_r. split; [reflexivity|constructor].
  - destruct (inner_loop_appends q supported acc) as (a1 & H1 & S1).
    rewrite H1.
    destruct (IH (acc ++ a1)) as (a2 & H2 & S2).
    exists (a1 ++ a2). split.
    + rewrite H2, <- app_assoc. reflexivity.
    + unfold by_priority. simpl. apply sublist_app; assumption.
Qed.

(* The qualified streams keep the priority order of the qualified formats
   (and, within a format, the order of the supported list). *)
Lemma GetQualifiedStreams_in_priority_order qualified supported :
  sublist (GetQualifiedStreams qualified supported)
          (by_priority qualified supported).
Proof.
  unfold GetQualifiedStreams.
  destruct (outer_loop_appends supported qualified []) as (added & H & S).
  rewrite H. exact S.
Qed.

Lemma FindFormatByResolution_from_miss i formats w h x :
  0 <= i ->
  FindFormatByResolution_from i formats w h = -1 ->
  x ∈ formats -> ~ (width_ x = w /\ height_ x = h).
Proof.
  revert i. induction formats as [|f rest IH]; intros i Hi Hfind Hx.
  - apply elem_of_nil in Hx. contradiction.
  - simpl in Hfind.
    destruct ((width_ f =? w) && (height_ f =? h)) eqn:E; [lia|].
    apply elem_of_cons in Hx as [->|Hx].
    + intros [<- <-]. rewrite !Z.eqb_refl in E. discriminate E.
    + apply (IH (i + 1)); [lia|exact Hfind|exact Hx].
Qed.

(* When the duplicate test lets a stream through although its resolution
   is already present, that resolution is the one of the first entry. *)
Lemma duplicate_test_passes_first acc w h x :
  (0 <? FindFormatByResolution acc w h) = false ->
  x ∈ acc -> width_ x = w -> height_ x = h ->
  exists f, acc !! 0%nat = Some f /\ width_ f = w /\ height_ f = h.
Proof.
  unfold FindFormatByResolution. intros Htest Hx Hw Hh.
  apply Z.ltb_ge in Htest.
  destruct (Z.eq_dec (FindFormatByResolution_from 0 acc w h) (-1)) as [E|E].
  - exfalso.
    apply (FindFormatByResolution_from_miss 0 acc w h x); auto. lia.
  - destruct (FindFormatByResolution_from_range 0 acc w h) as [R|R];
      [contradiction|].
    destruct (FindFormatByResolution_from_hit 0 acc w h E) as (f & Hf & Hfw & Hfh).
    replace (FindFormatByResolution_from 0 acc w h) with 0 in Hf by lia.
    exists f. auto.
Qed.

Lemma qualify_step_keeps_invariant q acc s :
  only_first_resolution_repeats acc ->
  only_first_resolution_repeats (qualify_step q acc s).
Proof.
  intros Hinv. unfold qualify_step.
  destruct (negb (v4l2_pixel_format_ s =? q)); [exact Hinv|].
  destruct (0 <? FindFormatByResolution acc (width_ s) (height_ s)) eqn:Htest;
    [exact Hinv|].
  intros i j a b Hij Ha Hb Hw Hh.
  assert (Hfirst : forall f, acc !! 0%nat = Some f ->
                             (acc ++ [s]) !! 0%nat = Some f)
    by (intros f Hf; apply lookup_app_l_Some; exact Hf).
  assert (Hold : forall k x, (acc ++ [s]) !! k = Some x ->
                   (k < length acc)%nat /\ acc !! k = Some x \/
                   k = length acc /\ x = s).
  { intros k x Hk. apply lookup_app_Some in Hk as [Hk|[Hlen Hk]].
    - left. split; [apply lookup_lt_Some in Hk; exact Hk|exact Hk].
    - right. apply list_lookup_singleton_Some in Hk as [Hk0 ->].
      split; [lia|reflexivity]. }
  destruct (Hold i a Ha) as [[Hi Ha']|[Hi ->]];
    destruct (Hold j b Hb) as [[Hj Hb']|[Hj ->]].
  - destruct (Hinv i j a b Hij Ha' Hb' Hw Hh) as (f & Hf & Hfw & Hfh).
    exists f. auto.
  - destruct (duplicate_test_passes_first acc (width_ s) (height_ s) a Htest)
      as (f & Hf & Hfw & Hfh); auto.
    + apply list_elem_of_lookup. exists i. exact Ha'.
    + exists f. split; [auto|]. split; congruence.
  - destruct (duplicate_test_passes_first acc (width_ s) (height_ s) b Htest)
      as (f & Hf & Hfw & Hfh); auto.
    + apply list_elem_of_lookup. exists j. exact Hb'.
    + exists f. auto.
  - lia.
Qed.

(* The part of the de-duplication that works: in the returned list only
   the resolution of the first entry can occur more than once. *)
Lemma GetQualifiedStreams_only_first_resolution_repeats qualified supported :
  only_first_resolution_repeats (GetQualifiedStreams qualified supported).
Proof.
  unfold GetQualifiedStreams.
  assert (Hgen : forall qs acc,
            only_first_resolution_repeats acc ->
            only_first_resolution_repeats
              (fold_left (fun a q => fold_left (qualify_step q) supported a)
                         qs acc)).
  { induction qs as [|q rest IH]; intros acc Hacc; simpl; [exact Hacc|].
    apply IH. clear IH. revert acc Hacc.
    induction supported as [|s ss IHs]; intros acc Hacc; simpl; [exact Hacc|].
    apply IHs. apply qualify_step_keeps_invariant. exact Hacc. }
  apply Hgen. intros i j a b _ Ha. rewrite lookup_nil in Ha. discriminate Ha.
Qed.

(** C1 (defect in the code): GetQualifiedStreams does not skip every
    duplicate resolution.  The duplicate test compares the index returned
    by FindFormatByResolution with [> 0], so a match at index 0 is taken
    for "not found".  With the priority list [YUYV; MJPEG] and a device
    that supports both formats at 640x480, the returned list holds two
    entries with the resolution 640x480. *)
Theorem GetQualifiedStreams_keeps_duplicate_of_first :
  GetQualifiedStreams
    [FourCC.V4L2_PIX_FMT_YUYV; FourCC.V4L2_PIX_FMT_MJPEG]
    [make FourCC.V4L2_PIX_FMT_YUYV 640 480;
     make FourCC.V4L2_PIX_FMT_MJPEG 640 480]
  = [make FourCC.V4L2_PIX_FMT_YUYV 640 480;
     make FourCC.V4L2_PIX_FMT_MJPEG 640 480]
  /\ has_duplicate_resolution
       (GetQualifiedStreams
          [FourCC.V4L2_PIX_FMT_YUYV; FourCC.V4L2_PIX_FMT_MJPEG]
          [make FourCC.V4L2_PIX_FMT_YUYV 640 480;
           make FourCC.V4L2_PIX_FMT_MJPEG 640 480]).
Proof.
  split.
  - reflexivity.
  - exists 0%nat, 1%nat,
      (make FourCC.V4L2_PIX_FMT_YUYV 640 480),
      (make FourCC.V4L2_PIX_FMT_MJPEG 640 480).
    repeat split; try reflexivity. discriminate.
Qed.

End StreamFormatFacts.

(* --------------------------------------------------------------------- *)
(*  CameraTracker                                                         *)
(* --------------------------------------------------------------------- *)

Module CameraTrackerFacts.
Import Hidl CameraTracker Samples.

Lemma isCaptureCompleted_list_find capture_id l :
  isCaptureCompleted_list capture_id l =
  match find (fun c => id c =? capture_id) l with
  | Some c =>
      if (Z.of_nat (length (output_buffers c)) =? 0)
         && (streamId (input_buffer c) =? -1)
      then 1 else 0
  | None => -1
  end.
Proof.
  induction l as [|c rest IH]; simpl.
  - reflexivity.
  - destruct (id c =? capture_id); [reflexivity | exact IH].
Qed.

(** C9: for a tracked id, isCaptureCompleted answers 1 (true) exactly when
    the pending-output queue of the capture with that id is empty and its
    pending input buffer is absent (stream id -1), and 0 (false)
    otherwise; for an id that is not tracked it answers -1, which is
    neither of the two. *)
Theorem isCaptureCompleted_spec (tr : t) (capture_id : Z) :
  (forall c, first_with_id capture_id tr = Some c ->
     (isCaptureCompleted capture_id tr = 1 <->
        output_buffers c = [] /\ streamId (input_buffer c) = -1) /\
     (isCaptureCompleted capture_id tr = 1 \/
      isCaptureCompleted capture_id tr = 0)) /\
  (first_with_id capture_id tr = None ->
     isCaptureCompleted capture_id tr = -1 /\
     isCaptureCompleted capture_id tr <> 1 /\
     isCaptureCompleted capture_id tr <> 0).
Proof.
  unfold first_with_id, isCaptureCompleted.
  rewrite isCaptureCompleted_list_find.
  split.
  - intros c ->.
    destruct (output_buffers c) as [|b q] eqn:Hq; simpl.
    + destruct (Z.eqb_spec (streamId (input_buffer c)) (-1)) as [E|E].
      * split; [|left; reflexivity]. split; auto.
      * split; [|right; reflexivity].
        split; [discriminate|]. intros [_ H]. contradiction.
    + split; [|right; reflexivity].
      replace (Z.pos (Pos.of_succ_nat (length q)) =? 0) with false
        by (symmetry; apply Z.eqb_neq; lia).
      simpl. split; [discriminate|]. intros [H _]. discriminate.
  - intros ->. repeat split; discriminate.
Qed.

Lemma isCaptureCompleted_spec_witness :
  isCaptureCompleted 7 (snd (trackCapture (sample_request 7) empty)) = 0 /\
  isCaptureCompleted 8 (snd (trackCapture (sample_request 7) empty)) = -1.
Proof.
  pose proof (isCaptureCompleted_spec
                (snd (trackCapture (sample_request 7) empty)) 7) as [H7 _].
  pose proof (isCaptureCompleted_spec
                (snd (trackCapture (sample_request 7) empty)) 8) as [_ H8].
  split.
  - destruct (H7 (tracked_capture_of (sample_request 7)) eq_refl) as [_ [H|H]].
    + discriminate H.
    + exact H.
  - exact (proj1 (H8 eq_refl)).
Defined.

(** C2 (as stated, refuted): tracking the same request twice does not
    leave the capture list as tracking it once does; starting from the
    empty tracker the list holds two captures instead of one. *)
Lemma trackCapture_twice_differs :
  capture_list_
    (snd (trackCapture (sample_request 1)
            (snd (trackCapture (sample_request 1) empty))))
  <> capture_list_ (snd (trackCapture (sample_request 1) empty)).
Proof. discriminate. Qed.

(** C2 (amended): trackCapture is not idempotent.  Every call appends one
    tracked capture built from the request at the end of the capture
    list, whatever the list holds, so two calls with the same request
    leave two entries with the same id; both calls return the same value,
    the frame number converted to int, which is the frame number itself
    whenever it is below 2^31. *)
Theorem trackCapture_appends (tr : t) (request : CaptureRequest) :
  let once := trackCapture request tr in
  let twice := trackCapture request (snd once) in
  capture_list_ (snd once) =
    capture_list_ tr ++ [tracked_capture_of request] /\
  capture_list_ (snd twice) =
    capture_list_ tr ++ [tracked_capture_of request; tracked_capture_of request] /\
  id (tracked_capture_of request) = frameNumber request /\
  fst once = MachineInt.to_int32 (frameNumber request) /\
  fst twice = fst once /\
  (0 <= frameNumber request < MachineInt.two31 ->
   fst once = frameNumber request /\ fst twice = frameNumber request).
Proof.
  simpl. repeat split.
  - rewrite <- app_assoc. reflexivity.
  - apply MachineIntFacts.to_int32_small. assumption.
  - apply MachineIntFacts.to_int32_small. assumption.
Qed.

Lemma trackCapture_appends_witness :
  capture_list_
    (snd (trackCapture (sample_request 1)
            (snd (trackCapture (sample_request 1) empty))))
  = [tracked_capture_of (sample_request 1); tracked_capture_of (sample_request 1)]
  /\ fst (trackCapture (sample_request 1) empty) = 1.
Proof.
  pose proof (trackCapture_appends empty (sample_request 1)) as H.
  cbv zeta in H.
  destruct H as (_ & H2 & _ & _ & _ & H6).
  split.
  - exact H2.
  - apply H6. unfold MachineInt.two31. simpl. lia.
Defined.

End CameraTrackerFacts.

(* --------------------------------------------------------------------- *)
(*  FrameBuffer                                                           *)
(* --------------------------------------------------------------------- *)

Module FrameBufferFacts.
Import FrameBuffer.

Lemma FrameBuffer_SetDataSize_too_large size f :
  buffer_size_ f < size ->
  FrameBuffer_SetDataSize size f = (- Errno.EINVAL, f).
Proof.
  intros H. unfold FrameBuffer_SetDataSize.
  apply Z.ltb_lt in H. rewrite H. reflexivity.
Qed.

Lemma FrameBuffer_SetDataSize_fits size f :
  size <= buffer_size_ f ->
  FrameBuffer_SetDataSize size f =
  (0, mk (kind f) (data_ f) size (buffer_size_ f) (width_ f) (height_ f)
         (fourcc_ f)).
Proof.
  intros H. unfold FrameBuffer_SetDataSize.
  apply Z.ltb_ge in H. rewrite H. reflexivity.
Qed.

(** C10: every SetDataSize call keeps used-size <= capacity.  The base
    FrameBuffer::SetDataSize rejects a size above the capacity with
    -EINVAL and leaves the buffer (so also the used size) as it was, and
    otherwise only sets the used size.  AllocatedFrameBuffer::SetDataSize
    always returns 0 and sets the used size; when the size exceeds the
    capacity the capacity becomes exactly that size (with a new backing
    array), otherwise capacity and content are kept. *)
Theorem SetDataSize_keeps_size_within_capacity
    (new_array : Z -> list Z) (size : Z) (f : t) :
  (size_ok f -> size_ok (snd (FrameBuffer_SetDataSize size f))) /\
  (size_ok f -> size_ok (snd (SetDataSize new_array size f))) /\
  (buffer_size_ f < size ->
     FrameBuffer_SetDataSize size f = (- Errno.EINVAL, f)) /\
  (size <= buffer_size_ f ->
     fst (FrameBuffer_SetDataSize size f) = 0 /\
     data_size_ (snd (FrameBuffer_SetDataSize size f)) = size /\
     buffer_size_ (snd (FrameBuffer_SetDataSize size f)) = buffer_size_ f) /\
  fst (AllocatedFrameBuffer_SetDataSize new_array size f) = 0 /\
  data_size_ (snd (AllocatedFrameBuffer_SetDataSize new_array size f)) = size /\
  size_ok (snd (AllocatedFrameBuffer_SetDataSize new_array size f)) /\
  (buffer_size_ f < size ->
     buffer_size_ (snd (AllocatedFrameBuffer_SetDataSize new_array size f))
     = size /\
     data_ (snd (AllocatedFrameBuffer_SetDataSize new_array size f))
     = new_array size) /\
  (size <= buffer_size_ f ->
     buffer_size_ (snd (AllocatedFrameBuffer_SetDataSize new_array size f))
     = buffer_size_ f /\
     data_ (snd (AllocatedFrameBuffer_SetDataSize new_array size f))
     = data_ f).
Proof.
  assert (Hbase : size_ok f -> size_ok (snd (FrameBuffer_SetDataSize size f))).
  { intros Hok. destruct (Z.lt_ge_cases (buffer_size_ f) size) as [H|H].
    - rewrite FrameBuffer_SetDataSize_too_large by exact H. exact Hok.
    - rewrite FrameBuffer_SetDataSize_fits by exact H. exact H. }
  assert (Halloc :
            size_ok (snd (AllocatedFrameBuffer_SetDataSize new_array size f))).
  { unfold AllocatedFrameBuffer_SetDataSize, size_ok.
    destruct (Z.ltb_spec (buffer_size_ f) size); simpl; lia. }
  repeat split.
  - exact Hbase.
  - intros Hok. unfold SetDataSize. destruct (kind f); auto.
  - apply FrameBuffer_SetDataSize_too_large.
  - rewrite FrameBuffer_SetDataSize_fits by assumption. reflexivity.
  - rewrite FrameBuffer_SetDataSize_fits by assumption. reflexivity.
  - rewrite FrameBuffer_SetDataSize_fits by assumption. reflexivity.
  - exact Halloc.
  - unfold AllocatedFrameBuffer_SetDataSize.
    destruct (Z.ltb_spec (buffer_size_ f) size); [reflexivity|lia].
  - unfold AllocatedFrameBuffer_SetDataSize.
    destruct (Z.ltb_spec (buffer_size_ f) size); [reflexivity|lia].
  - unfold AllocatedFrameBuffer_SetDataSize.
    destruct (Z.ltb_spec (buffer_size_ f) size); [lia|reflexivity].
  - unfold AllocatedFrameBuffer_SetDataSize.
    destruct (Z.ltb_spec (buffer_size_ f) size); [lia|reflexivity].
Qed.

Lemma SetDataSize_keeps_size_within_capacity_witness :
  FrameBuffer_SetDataSize 100 Samples.small_v4l2_buffer
    = (- Errno.EINVAL, Samples.small_v4l2_buffer) /\
  buffer_size_
    (snd (AllocatedFrameBuffer_SetDataSize Samples.zeroed 100
            Samples.small_allocated_buffer)) = 100 /\
  size_ok (snd (SetDataSize Samples.zeroed 100 Samples.small_v4l2_buffer)).
Proof.
  pose proof (SetDataSize_keeps_size_within_capacity
                Samples.zeroed 100 Samples.small_v4l2_buffer)
    as (_ & H2 & H3 & _).
  pose proof (SetDataSize_keeps_size_within_capacity
                Samples.zeroed 100 Samples.small_allocated_buffer)
    as (_ & _ & _ & _ & _ & _ & _ & H8 & _).
  split; [|split].
  - apply H3. simpl. lia.
  - apply H8. simpl. lia.
  - apply H2. unfold size_ok. simpl. lia.
Defined.

End FrameBufferFacts.

(* --------------------------------------------------------------------- *)
(*  ImageProcessor                                                        *)
(* --------------------------------------------------------------------- *)

Module ImageProcessorFacts.
Import FourCC ImageProcessor.

Lemma odd_not_even x : Z.odd x = true -> (x mod 2 =? 0) = false.
Proof.
  intros H. rewrite Zmod_odd, H. reflexivity.
Qed.

Lemma even_mod x : Z.even x = true -> (x mod 2 =? 0) = true.
Proof.
  intros H. rewrite Zmod_even, H. reflexivity.
Qed.

Lemma GetConvertedSize_odd size_bits fourcc width height :
  Z.odd width = true \/ Z.odd height = true ->
  GetConvertedSize size_bits fourcc width height = 0.
Proof.
  intros [H|H]; unfold GetConvertedSize; rewrite (odd_not_even _ H); simpl.
  - reflexivity.
  - rewrite orb_true_r. reflexivity.
Qed.

(** C6: whatever the pixel format, when the width or the height is odd
    GetConvertedSize returns 0, and ConvertFormat on an input frame of
    such dimensions returns -EINVAL and leaves the output frame, its pixel
    data included, exactly as it was. *)
Theorem odd_dimension_is_rejected
    (size_bits : Z) (new_array : Z -> list Z) (CameraMetadata : Type)
    (run_kernel : Kernel -> CameraMetadata -> FrameBuffer.t -> FrameBuffer.t
                  -> Z * FrameBuffer.t)
    (metadata : CameraMetadata) (fourcc : Z)
    (in_frame out_frame : FrameBuffer.t) :
  Z.odd (FrameBuffer.GetWidth in_frame) = true \/
  Z.odd (FrameBuffer.GetHeight in_frame) = true ->
  GetConvertedSize size_bits fourcc (FrameBuffer.GetWidth in_frame)
                   (FrameBuffer.GetHeight in_frame) = 0 /\
  ConvertFormat size_bits new_array run_kernel metadata in_frame out_frame
  = (- Errno.EINVAL, out_frame) /\
  FrameBuffer.data_
    (snd (ConvertFormat size_bits new_array run_kernel metadata in_frame
                        out_frame))
  = FrameBuffer.data_ out_frame.
Proof.
  intros Hodd.
  assert (E : ConvertFormat size_bits new_array run_kernel metadata in_frame
                            out_frame = (- Errno.EINVAL, out_frame)).
  { unfold ConvertFormat.
    destruct Hodd as [H|H]; rewrite (odd_not_even _ H); simpl.
    - reflexivity.
    - rewrite orb_true_r. reflexivity. }
  split; [|split].
  - apply GetConvertedSize_odd. exact Hodd.
  - exact E.
  - rewrite E. reflexivity.
Qed.

Lemma odd_dimension_is_rejected_witness :
  GetConvertedSize 32 V4L2_PIX_FMT_YUV420 641 480 = 0 /\
  ConvertFormat 32 Samples.zeroed Samples.failing_kernel tt
                Samples.odd_yuyv_frame Samples.small_allocated_buffer
  = (- Errno.EINVAL, Samples.small_allocated_buffer).
Proof.
  pose proof (odd_dimension_is_rejected
                32 Samples.zeroed unit Samples.failing_kernel tt
                V4L2_PIX_FMT_YUV420
                Samples.odd_yuyv_frame Samples.small_allocated_buffer
                (or_introl eq_refl)) as (H1 & H2 & _).
  split; [exact H1 | exact H2].
Defined.

(* Below 2^n, masking with ~15 seen as an n-bit value clears the four low
   bits. *)
Lemma land_not15 n x :
  4 <= n -> 0 <= x < 2 ^ n ->
  Z.land x (Z.lnot 15 mod 2 ^ n) = 16 * (x / 16).
Proof.
  intros Hn Hx.
  replace (16 * (x / 16)) with (Z.shiftl (Z.shiftr x 4) 4)
    by (rewrite Z.shiftl_mul_pow2, Z.shiftr_div_pow2 by lia;
        change (2 ^ 4) with 16; lia).
  apply Z.bits_inj'. intros i Hi.
  rewrite Z.land_spec, Z.shiftl_spec by lia.
  destruct (Z.lt_ge_cases i n) as [Hin|Hin].
  - rewrite Z.mod_pow2_bits_low by lia.
    rewrite Z.lnot_spec by lia.
    change 15 with (Z.ones 4).
    destruct (Z.lt_ge_cases i 4) as [Hi4|Hi4].
    + rewrite Z.ones_spec_low by lia. simpl.
      rewrite andb_false_r. rewrite Z.testbit_neg_r by lia. reflexivity.
    + rewrite Z.ones_spec_high by lia. simpl.
      rewrite andb_true_r. rewrite Z.shiftr_spec by lia.
      f_equal. lia.
  - rewrite Z.mod_pow2_bits_high by lia. rewrite andb_false_r.
    rewrite Z.shiftr_spec by lia.
    replace (i - 4 + 4) with i by lia.
    symmetry. rewrite <- (Z.mod_small x (2 ^ n)) by lia.
    apply Z.mod_pow2_bits_high. lia.
Qed.

Lemma Align16_round_up size_bits value :
  4 <= size_bits -> 0 <= value -> value + 15 < 2 ^ size_bits ->
  Align16 size_bits value = 16 * ((value + 15) / 16).
Proof.
  intros Hn Hv Hlt. unfold Align16, to_size_t.
  rewrite (Z.mod_small (value + 15)) by lia.
  apply land_not15; lia.
Qed.

Lemma Align16_bounds size_bits value :
  4 <= size_bits -> 0 <= value -> value + 15 < 2 ^ size_bits ->
  value <= Align16 size_bits value <= value + 15.
Proof.
  intros Hn Hv Hlt. rewrite Align16_round_up by assumption.
  pose proof (Z.div_mod (value + 15) 16 ltac:(lia)) as Hd.
  pose proof (Z.mod_pos_bound (value + 15) 16 ltac:(lia)) as Hm.
  lia.
Qed.

Lemma pow2_32_le size_bits : 32 <= size_bits -> 2 ^ 32 <= 2 ^ size_bits.
Proof. intros H. apply Z.pow_le_mono_r; lia. Qed.

(** C7 (as stated, refuted): 0 is an even width and height, and for a
    0x0 frame GetConvertedSize returns 0; for 65536x65536 RGB32 the 32-bit
    product wraps around and the result is 0 as well. *)
Lemma GetConvertedSize_even_but_zero :
  ~ (0 < GetConvertedSize 64 V4L2_PIX_FMT_YUV420 0 0) /\
  ~ (0 < GetConvertedSize 64 V4L2_PIX_FMT_RGB32 65536 65536).
Proof. split; vm_compute; discriminate. Qed.

(** C7 (amended): for every supported pixel format (YVU420, YUV420, NV21,
    BGR32, RGB32) and every even width and even height that are both
    positive and small enough for the byte count not to wrap around
    (4 * (width + 15) * height < 2^32), GetConvertedSize returns a value
    strictly greater than 0; the value is a function of the three
    arguments alone. *)
Theorem GetConvertedSize_positive (size_bits fourcc width height : Z) :
  32 <= size_bits ->
  supported_fourcc fourcc ->
  Z.even width = true -> Z.even height = true ->
  0 < width -> 0 < height ->
  4 * (width + 15) * height < 2 ^ 32 ->
  0 < GetConvertedSize size_bits fourcc width height /\
  (forall fourcc' width' height',
     fourcc' = fourcc -> width' = width -> height' = height ->
     GetConvertedSize size_bits fourcc' width' height'
     = GetConvertedSize size_bits fourcc width height).
Proof.
  intros Hbits Hsup Hew Heh Hw Hh Hfit.
  split; [|intros ? ? ? -> -> ->; reflexivity].
  pose proof (pow2_32_le _ Hbits) as Hpow.
  assert (Hwh : 4 <= width * height).
  { assert (2 <= width) by
      (destruct (Z.eq_dec width 1) as [-> | ?]; [discriminate Hew|lia]).
    assert (2 <= height) by
      (destruct (Z.eq_dec height 1) as [-> | ?]; [discriminate Heh|lia]).
    nia. }
  unfold GetConvertedSize.
  rewrite (even_mod _ Hew), (even_mod _ Heh). simpl.
  unfold supported_fourcc in Hsup.
  destruct Hsup as [-> | [-> | [-> | [-> | ->] ] ] ]; simpl.
  - (* YVU420 *)
    pose proof (Align16_bounds size_bits width ltac:(lia) ltac:(lia)
                  ltac:(nia)) as Ha.
    assert (0 <= width / 2 <= width) as Hhalf.
    { split; [apply Z.div_pos; lia | apply Z.div_le_upper_bound; lia]. }
    pose proof (Align16_bounds size_bits (width / 2) ltac:(lia) ltac:(lia)
                  ltac:(nia)) as Hb.
    unfold to_size_t.
    rewrite (Z.mod_small (Align16 size_bits width * height)) by nia.
    rewrite (Z.mod_small (Align16 size_bits (width / 2) * height)) by nia.
    rewrite Z.mod_small by nia.
    nia.
  - (* YUV420 *)
    unfold to_size_t, MachineInt.to_uint32, MachineInt.two32.
    rewrite (Z.mod_small (width * height)) by nia.
    rewrite (Z.mod_small (width * height * 3)) by nia.
    assert (6 <= width * height * 3 / 2 < 2 ^ 32).
    { split.
      - apply Z.div_le_lower_bound; lia.
      - apply Z.div_lt_upper_bound; nia. }
    rewrite Z.mod_small by lia. lia.
  - (* NV21 *)
    unfold to_size_t, MachineInt.to_uint32, MachineInt.two32.
    rewrite (Z.mod_small (width * height)) by nia.
    rewrite (Z.mod_small (width * height * 3)) by nia.
    assert (6 <= width * height * 3 / 2 < 2 ^ 32).
    { split.
      - apply Z.div_le_lower_bound; lia.
      - apply Z.div_lt_upper_bound; nia. }
    rewrite Z.mod_small by lia. lia.
  - (* BGR32 *)
    unfold to_size_t, MachineInt.to_uint32, MachineInt.two32.
    rewrite (Z.mod_small (width * height)) by nia.
    rewrite (Z.mod_small (width * height * 4)) by nia.
    rewrite Z.mod_small by nia. lia.
  - (* RGB32 *)
    unfold to_size_t, MachineInt.to_uint32, MachineInt.two32.
    rewrite (Z.mod_small (width * height)) by nia.
    rewrite (Z.mod_small (width * height * 4)) by nia.
    rewrite Z.mod_small by nia. lia.
Qed.

Lemma GetConvertedSize_positive_witness :
  0 < GetConvertedSize 32 V4L2_PIX_FMT_YVU420 640 480.
Proof.
  apply (GetConvertedSize_positive 32 V4L2_PIX_FMT_YVU420 640 480).
  - lia.
  - left. reflexivity.
  - reflexivity.
  - reflexivity.
  - lia.
  - lia.
  - simpl. lia.
Defined.

End ImageProcessorFacts.

(* --------------------------------------------------------------------- *)
(*  CameraDeviceSession                                                   *)
(* --------------------------------------------------------------------- *)

Module CameraDeviceSessionFacts.
Import Hidl CameraTracker CameraDeviceSession.

Lemma hasActiveCapture_nil tr :
  hasActiveCapture tr = false <-> capture_list_ tr = [].
Proof.
  unfold hasActiveCapture. destruct (capture_list_ tr); simpl.
  - split; reflexivity.
  - split; discriminate.
Qed.

Lemma count_buffer_errors_app l1 l2 :
  count_buffer_errors (l1 ++ l2)
  = (count_buffer_errors l1 + count_buffer_errors l2)%nat.
Proof.
  unfold count_buffer_errors. rewrite filter_app, length_app. reflexivity.
Qed.

Lemma pending_outputs_cons c l :
  pending_outputs (c :: l)
  = (length (output_buffers c) + pending_outputs l)%nat.
Proof. reflexivity. Qed.

(* Unfold the record accessors and the list walks of the tracker, and
   nothing of the integer arithmetic. *)
Ltac tracker_cbn :=
  cbn [camera_tracker_ set_tracker capture_list_ set_capture_list
       tracked_streams_ tracked_settings_
       id output_buffers input_buffer output_results input_result
       set_output_buffers set_output_results set_input_result
       saveOutputBuffer_list isCaptureCompleted_list popInputResult_list
       popOutputResults_list untrackCapture_list fst snd].

(* ... and decide the comparisons of an id with itself on the way. *)
Ltac tracker_steps :=
  repeat (progress (tracker_cbn; rewrite ?Z.eqb_refl)).

(* What the loop needs of the tracker stays true after an iteration on the
   oldest capture: the captures left await an output, their frame numbers
   are distinct and their settings are still tracked. *)
Lemma flushable_after_step (tr tr' : CameraTracker.t) c rest q :
  Forall awaiting_output (c :: rest) ->
  NoDup (map id (c :: rest)) ->
  Forall (has_settings tr) (c :: rest) ->
  match q with
  | [] =>
      capture_list_ tr' = rest /\
      tracked_settings_ tr' = delete (id c) (tracked_settings_ tr)
  | _ :: _ =>
      tracked_settings_ tr' = tracked_settings_ tr /\
      exists c',
        capture_list_ tr' = c' :: rest /\
        output_buffers c' = q /\ input_buffer c' = input_buffer c /\
        id c' = id c
  end ->
  Forall awaiting_output (capture_list_ tr') /\
  NoDup (map id (capture_list_ tr')) /\
  Forall (has_settings tr') (capture_list_ tr') /\
  (length (capture_list_ tr')
   + match q with [] => 1 | _ :: _ => 0 end = S (length rest))%nat /\
  pending_outputs (capture_list_ tr') = (length q + pending_outputs rest)%nat.
Proof.
  intros Hall Hnd Hset Hq.
  apply Forall_cons in Hall as [(Hne & Hin & Hid) Hrest].
  apply Forall_cons in Hset as [Hc Hsrest].
  cbn [map] in Hnd. apply NoDup_cons in Hnd as [Hnotin Hnd].
  destruct q as [|b2 q'].
  - destruct Hq as [Hl Hs]. rewrite Hl.
    split; [exact Hrest|]. split; [exact Hnd|]. split; [|split; [lia|reflexivity]].
    apply Forall_forall. intros c' Hc'.
    rewrite Forall_forall in Hsrest.
    destruct (Hsrest c' Hc') as (metadata & count & Hlook).
    exists metadata, count. rewrite Hs, lookup_delete_ne; [exact Hlook|].
    intros E. apply Hnotin. rewrite E. apply list_elem_of_In, in_map.
    apply list_elem_of_In. exact Hc'.
  - destruct Hq as (Hs & c' & Hl & Hq' & Hin' & Hid'). rewrite Hl.
    split; [|split; [|split; [|split]]].
    + apply Forall_cons. split; [|exact Hrest].
      unfold awaiting_output. rewrite Hq', Hin', Hid'.
      repeat split; try tauto; try lia. discriminate.
    + cbn [map]. rewrite Hid'. apply NoDup_cons. split; assumption.
    + unfold has_settings in *. rewrite Hs.
      apply Forall_cons. split; [rewrite Hid'; exact Hc|exact Hsrest].
    + simpl. lia.
    + rewrite pending_outputs_cons, Hq'. reflexivity.
Qed.

Section Session.

Context {Driver : Type}.
Context (StreamOff : Driver -> Z * Driver).
Context (processCaptureResultMetadata : Z -> CaptureResult -> CaptureResult).
Context (sensor_timestamp : Z -> Z).
Context (join_capture_thread :
           Session Driver -> Outcome Driver (Session Driver * list Event)).
Context (configureStreamClean :
           StreamConfiguration -> Session Driver -> Status * Session Driver).
Context (configureDriverStream :
           StreamConfiguration -> Session Driver -> Status * Session Driver).
Context (configureStreamResult :
           StreamConfiguration -> Session Driver
           -> Status * HalStreamConfiguration * Session Driver).

Local Abbreviation configure :=
  (configureStreams configureStreamClean configureDriverStream
                    configureStreamResult).
Local Abbreviation step :=
  (flush_step processCaptureResultMetadata sensor_timestamp join_capture_thread).
Local Abbreviation loop :=
  (flush_loop processCaptureResultMetadata sensor_timestamp join_capture_thread).

(** C8: while the tracker holds at least one capture, the configuration
    verification fails with INTERNAL_ERROR and configureStreams reports
    that status with an empty configuration, leaving the session (streams,
    tracker and driver state) untouched; whenever configureStreams reports
    OK, the tracker held no capture when it was called. *)
Theorem configureStreams_rejected_while_capture_active
    (requested_configuration : StreamConfiguration) (s : Session Driver) :
  (hasActiveCapture (camera_tracker_ s) = true ->
     configureStreamsVerification requested_configuration s = INTERNAL_ERROR /\
     configure requested_configuration s = ((INTERNAL_ERROR, []), s)) /\
  (fst (fst (configure requested_configuration s)) = OK ->
     hasActiveCapture (camera_tracker_ s) = false /\
     capture_list_ (camera_tracker_ s) = []).
Proof.
  assert (Hact : hasActiveCapture (camera_tracker_ s) = true ->
                 configureStreamsVerification requested_configuration s
                 = INTERNAL_ERROR).
  { intros H. unfold configureStreamsVerification. rewrite H. reflexivity. }
  split.
  - intros H. split; [exact (Hact H)|].
    unfold configureStreams. rewrite (Hact H). reflexivity.
  - intros Hok.
    destruct (hasActiveCapture (camera_tracker_ s)) eqn:E.
    + unfold configureStreams in Hok. rewrite (Hact eq_refl) in Hok.
      discriminate Hok.
    + split; [reflexivity|]. apply hasActiveCapture_nil. exact E.
Qed.

(* One iteration of the flush loop when the oldest capture still awaits an
   output and has its settings tracked: one buffer error is sent; the
   capture loses that buffer and, when it was its last one, is untracked
   together with the settings of its id. *)
Lemma flush_step_head (s : Session Driver) c rest b q metadata count :
  capture_list_ (camera_tracker_ s) = c :: rest ->
  output_buffers c = b :: q ->
  streamId (input_buffer c) = -1 ->
  0 <= id c < MachineInt.two31 ->
  tracked_settings_ (camera_tracker_ s) !! id c
  = Some (mkTrackedSettings (Some metadata) count) ->
  exists s' log,
    step s = Returns (s', log) /\
    count_buffer_errors log = 1%nat /\
    init_fail_ s' = init_fail_ s /\ disconnected_ s' = disconnected_ s /\
    closed_ s' = closed_ s /\ started_ s' = started_ s /\
    driver_ s' = driver_ s /\
    match q with
    | [] =>
        capture_list_ (camera_tracker_ s') = rest /\
        tracked_settings_ (camera_tracker_ s')
        = delete (id c) (tracked_settings_ (camera_tracker_ s))
    | _ :: _ =>
        tracked_settings_ (camera_tracker_ s')
        = tracked_settings_ (camera_tracker_ s) /\
        exists c',
          capture_list_ (camera_tracker_ s') = c' :: rest /\
          output_buffers c' = q /\ input_buffer c' = input_buffer c /\
          id c' = id c
    end.
Proof.
  intros Hl Hq Hin Hid Hset.
  assert (Hi : MachineInt.to_int32 (id c) = id c)
    by (apply MachineIntFacts.to_int32_small; exact Hid).
  assert (Hu : MachineInt.to_uint32 (id c) = id c).
  { apply MachineIntFacts.to_uint32_small.
    unfold MachineInt.is_uint32, MachineInt.two32, MachineInt.two31 in *. lia. }
  assert (Hge : (0 <=? id c) = true) by (apply Z.leb_le; lia).
  unfold flush_step, popNextOutputBuffer.
  rewrite Hl. simpl popNextOutputBuffer_list. rewrite Hq, Hi, Hge, Hu.
  unfold processCaptureBufferError, processCaptureResult, saveOutputBuffer,
    isCaptureCompleted.
  tracker_steps. rewrite Hin, Z.eqb_refl.
  destruct q as [|b2 q'].
  - cbn [length Z.of_nat Z.eqb andb Z.ltb Z.leb Z.compare].
    unfold getCaptureSettings. tracker_steps. rewrite Hset.
    cbn [settings partial_count].
    unfold popInputResult, popOutputResults, untrackCapture.
    tracker_steps.
    eexists _, _. split; [reflexivity|].
    repeat split; reflexivity.
  - replace (Z.of_nat (length (b2 :: q')) =? 0) with false
      by (symmetry; apply Z.eqb_neq; simpl; lia).
    cbn [andb Z.ltb Z.leb Z.compare].
    eexists _, _. split; [reflexivity|].
    repeat split; try reflexivity.
    eexists. repeat split; reflexivity.
Qed.

(* The loop drains a tracker whose captures all await an output, with
   distinct frame numbers and tracked settings: with at least as much
   fuel as pending outputs it ends, having sent exactly one buffer error
   per pending output. *)
Lemma flush_loop_drains :
  forall (n : nat) (s : Session Driver) (log : list Event) (fuel : nat),
    Forall awaiting_output (capture_list_ (camera_tracker_ s)) ->
    NoDup (map id (capture_list_ (camera_tracker_ s))) ->
    Forall (has_settings (camera_tracker_ s))
           (capture_list_ (camera_tracker_ s)) ->
    pending_outputs (capture_list_ (camera_tracker_ s)) = n ->
    (n <= fuel)%nat ->
    exists s' log',
      loop fuel s log = Some (Returns (s', log ++ log')) /\
      count_buffer_errors log' = n /\
      capture_list_ (camera_tracker_ s') = [] /\
      init_fail_ s' = init_fail_ s /\ disconnected_ s' = disconnected_ s /\
      closed_ s' = closed_ s /\ started_ s' = started_ s /\
      driver_ s' = driver_ s.
Proof.
  induction n as [|n IH]; intros s log fuel Hall Hnd Hset Hn Hfuel.
  - (* nothing pending: every capture awaits an output, so none is left *)
    destruct (capture_list_ (camera_tracker_ s)) as [|c rest] eqn:Hl.
    + exists s, []. rewrite app_nil_r.
      split; [|repeat split; auto].
      destruct fuel; simpl;
        rewrite (proj2 (hasActiveCapture_nil _) Hl); reflexivity.
    + exfalso. apply Forall_cons in Hall as [(Hne & _) _].
      rewrite pending_outputs_cons in Hn.
      destruct (output_buffers c); [contradiction|discriminate].
  - destruct (capture_list_ (camera_tracker_ s)) as [|c rest] eqn:Hl;
      [discriminate|].
    pose proof Hall as Hall0. pose proof Hset as Hset0.
    apply Forall_cons in Hall as [(Hne & Hin & Hid) Hrest].
    apply Forall_cons in Hset as [(metadata & count & Hc) _].
    destruct (output_buffers c) as [|b q] eqn:Hq; [contradiction|].
    rewrite pending_outputs_cons, Hq in Hn. simpl in Hn.
    destruct fuel as [|fuel]; [lia|].
    destruct (flush_step_head s c rest b q metadata count Hl Hq Hin Hid Hc)
      as (s1 & log1 & Hstep & Hcount & Hf1 & Hf2 & Hf3 & Hf4 & Hf5 & Hlist).
    assert (Hact : hasActiveCapture (camera_tracker_ s) = true).
    { unfold hasActiveCapture. rewrite Hl. reflexivity. }
    destruct (flushable_after_step _ _ c rest q Hall0 Hnd Hset0 Hlist)
      as (Hall1 & Hnd1 & Hset1 & _ & Hn1).
    destruct (IH s1 (log ++ log1) fuel Hall1 Hnd1 Hset1 ltac:(lia) ltac:(lia))
      as (s' & log' & Hloop & Hcnt & Hnil & Hg1 & Hg2 & Hg3 & Hg4 & Hg5).
    exists s', (log1 ++ log').
    split.
    + simpl. rewrite Hact, Hstep, Hloop, app_assoc. reflexivity.
    + rewrite count_buffer_errors_app, Hcount, Hcnt.
      repeat split; try congruence.
Qed.


End Session.

Lemma configureStreams_rejected_while_capture_active_witness :
  configureStreams Samples.stage_ok Samples.stage_ok Samples.result_ok
                   Samples.one_output_stream
                   (Samples.session_of Samples.two_in_flight)
  = ((INTERNAL_ERROR, []), Samples.session_of Samples.two_in_flight).
Proof.
  apply (configureStreams_rejected_while_capture_active
           Samples.stage_ok Samples.stage_ok Samples.result_ok
           Samples.one_output_stream
           (Samples.session_of Samples.two_in_flight)).
  reflexivity.
Defined.

Lemma awaiting_output_two_in_flight :
  Forall awaiting_output (capture_list_ Samples.two_in_flight).
Proof.
  unfold Samples.two_in_flight. simpl capture_list_.
  repeat apply Forall_cons_2; [| |apply Forall_nil_2];
    (split; [discriminate|]; split; [reflexivity|]);
    unfold MachineInt.two31; simpl; lia.
Qed.

Lemma distinct_ids_two_in_flight :
  NoDup (map id (capture_list_ Samples.two_in_flight_with_settings)).
Proof.
  apply NoDup_cons. split.
  - simpl. intros H. apply list_elem_of_In in H as [H | []]. discriminate H.
  - apply NoDup_cons. split; [|apply NoDup_nil_2].
    intros H. apply list_elem_of_In in H as [].
Qed.

Lemma has_settings_two_in_flight :
  Forall (has_settings Samples.two_in_flight_with_settings)
         (capture_list_ Samples.two_in_flight_with_settings).
Proof.
  repeat apply Forall_cons_2; [| |apply Forall_nil_2].
  - exists 100, 1. reflexivity.
  - exists 200, 1. reflexivity.
Qed.


(* With a reprocessing request in flight the first iteration pops the
   output and sends its buffer error; the capture still has its pending
   input, so it is not complete and stays tracked, and from then on no
   iteration changes anything: the loop is still running after any number
   of them. *)
Lemma flush_loop_stuck_on_pending_input :
  exists s1 log1,
    flush_step Samples.keep_result Samples.no_timestamp Samples.join_returns
               (Samples.session_of Samples.reprocess_in_flight)
    = Returns (s1, log1) /\
    forall fuel log,
      flush_loop Samples.keep_result Samples.no_timestamp
                 Samples.join_returns fuel s1 log
      = None.
Proof.
  eexists _, _. split; [reflexivity|].
  induction fuel as [|fuel IH]; intros log.
  - reflexivity.
  - simpl flush_loop. cbn [hasActiveCapture]. exact (IH _).
Qed.


End CameraDeviceSessionFacts.

(* --------------------------------------------------------------------- *)
(*  V4L2Wrapper                                                           *)
(* --------------------------------------------------------------------- *)

Module V4L2WrapperFacts.
Import V4L2Wrapper.

Lemma neqb_true_iff a b : StreamFormat.neqb a b = true <-> a <> b.
Proof.
  unfold StreamFormat.neqb. rewrite negb_true_iff.
  rewrite <- StreamFormatFacts.eqb_eq.
  destruct (StreamFormat.eqb a b); split; congruence.
Qed.

Lemma neqb_false_iff a b : StreamFormat.neqb a b = false <-> a = b.
Proof.
  unfold StreamFormat.neqb. rewrite negb_false_iff.
  apply StreamFormatFacts.eqb_eq.
Qed.

(** C5 (as stated, refuted): on a connected wrapper with no format yet, a
    device that rejects VIDIOC_S_FMT and leaves the structure as it was
    makes SetFormat fail (-ENODEV) although the format found in the
    structure after the request has exactly the requested
    pixel-format/width/height triple. *)
Lemma SetFormat_fails_on_rejected_command :
  fst (fst (SetFormat Samples.rejecting_device Samples.yuyv_vga
                      Samples.fresh_wrapper)) <> 0 /\
  same_triple
    (StreamFormat_of (reported_format Samples.rejecting_device Samples.yuyv_vga))
    Samples.yuyv_vga.
Proof.
  split.
  - vm_compute. discriminate.
  - repeat split.
Qed.

(** C5 (amended): when a format equal to the negotiated one is requested,
    SetFormat returns 0, issues no device command and leaves the wrapper
    as it is.  Otherwise, on a wrapper that is not connected it returns
    -ENODEV without issuing a command; on a connected wrapper it issues
    exactly one VIDIOC_S_FMT carrying the request, and it fails, leaving
    the wrapper (so the stored format) unchanged, exactly when the command
    itself fails (-ENODEV) or the format the device reports differs from
    the requested one in capture type, pixel format, width or height
    (-EINVAL); on success the reported format and image size are
    stored. *)
Theorem SetFormat_spec
    (device_s_fmt : v4l2_format -> Z * v4l2_format)
    (resolved_format : StreamFormat.t) (w : t) :
  let request := FillFormatRequest resolved_format in
  let r := fst (device_s_fmt request) in
  let reported := StreamFormat_of (snd (device_s_fmt request)) in
  let ret := fst (fst (SetFormat device_s_fmt resolved_format w)) in
  let w' := snd (fst (SetFormat device_s_fmt resolved_format w)) in
  let cmds := snd (SetFormat device_s_fmt resolved_format w) in
  (already_negotiated resolved_format w = true ->
     ret = 0 /\ w' = w /\ cmds = []) /\
  (already_negotiated resolved_format w = false ->
     (connected w = false ->
        ret = - Errno.ENODEV /\ w' = w /\ cmds = []) /\
     (connected w = true ->
        cmds = [VIDIOC_S_FMT request] /\
        (ret <> 0 <-> r < 0 \/ reported <> resolved_format) /\
        (ret <> 0 -> w' = w) /\
        (r < 0 -> ret = - Errno.ENODEV) /\
        (0 <= r -> reported <> resolved_format -> ret = - Errno.EINVAL) /\
        (ret = 0 ->
           format_ w' = Some resolved_format /\
           buffer_size_ w' = sizeimage (snd (device_s_fmt request)) /\
           connected w' = true))).
Proof.
  cbv zeta. unfold SetFormat. split.
  - intros ->. repeat split.
  - intros ->. unfold ioctlLocked_S_FMT. split.
    + intros ->. simpl. repeat split.
    + intros Hc. rewrite Hc. simpl negb. cbv iota.
      destruct (device_s_fmt (FillFormatRequest resolved_format))
        as [r reported] eqn:Hdev.
      cbn [fst snd].
      split;
        [destruct (r <? 0),
           (StreamFormat.neqb resolved_format (StreamFormat_of reported));
         reflexivity|].
      destruct (Z.ltb_spec r 0) as [Hr|Hr].
      * cbn [fst snd]. unfold Errno.ENODEV.
        split; [split; [intros _; left; exact Hr | intros _; discriminate]|].
        split; [reflexivity|]. split; [reflexivity|].
        split; [intros; lia | intros; discriminate].
      * destruct (StreamFormat.neqb resolved_format (StreamFormat_of reported))
          eqn:Hne.
        -- apply neqb_true_iff in Hne. cbn [fst snd]. unfold Errno.EINVAL.
           split; [split; [intros _; right; congruence | intros _; discriminate]|].
           split; [reflexivity|]. split; [intros; lia|].
           split; [reflexivity | intros; discriminate].
        -- apply neqb_false_iff in Hne.
           cbn [fst snd format_ buffer_size_ connected].
           split; [split; [intros H; congruence | intros [H|H]; [lia|congruence]]|].
           split; [intros H; congruence|]. split; [intros; lia|].
           split; [intros; congruence|].
           intros _. rewrite <- Hne. repeat split.
Qed.

Lemma SetFormat_spec_witness :
  SetFormat Samples.accepting_device Samples.yuyv_vga
            (snd (fst (SetFormat Samples.accepting_device Samples.yuyv_vga
                                 Samples.fresh_wrapper)))
  = (0, mk true (Some Samples.yuyv_vga) 614400, []) /\
  snd (SetFormat Samples.accepting_device Samples.yuyv_vga Samples.fresh_wrapper)
  = [VIDIOC_S_FMT (FillFormatRequest Samples.yuyv_vga)].
Proof.
  pose proof (SetFormat_spec Samples.accepting_device Samples.yuyv_vga
                (mk true (Some Samples.yuyv_vga) 614400)) as H1.
  pose proof (SetFormat_spec Samples.accepting_device Samples.yuyv_vga
                Samples.fresh_wrapper) as H2.
  cbv zeta in H1, H2.
  destruct H1 as [H1 _]. destruct H2 as [_ H2].
  destruct (H1 eq_refl) as (Ha & Hb & Hc).
  destruct (H2 eq_refl) as [_ H2'].
  destruct (H2' eq_refl) as (Hd & _).
  split.
  - change (snd (fst (SetFormat Samples.accepting_device Samples.yuyv_vga
                                Samples.fresh_wrapper)))
      with (mk true (Some Samples.yuyv_vga) 614400).
    destruct (SetFormat Samples.accepting_device Samples.yuyv_vga
                        (mk true (Some Samples.yuyv_vga) 614400))
      as [[ret w'] cmds].
    cbn [fst snd] in Ha, Hb, Hc. subst ret w' cmds. reflexivity.
  - exact Hd.
Defined.

End V4L2WrapperFacts.

(* --------------------------------------------------------------------- *)
(*  CachedFrame                                                           *)
(* --------------------------------------------------------------------- *)

Module CachedFrameFacts.
Import CachedFrame.

Lemma make_even_rounds q :
  0 <= q -> make_even q = if Z.odd q then q + 1 else q.
Proof.
  intros Hq. unfold make_even.
  rewrite Z.rem_mod_nonneg by lia. rewrite Zmod_odd.
  destruct (Z.odd q); reflexivity.
Qed.

(* The even-rounded crop width never exceeds an even height. *)
Lemma rounded_crop_width_bounds width height :
  Z.even height = true -> 0 <= height <= width -> 0 < width ->
  0 <= rounded_crop_width width height <= height.
Proof.
  intros Heven Hh Hw. unfold rounded_crop_width.
  assert (Hq : 0 <= height * height / width <= height).
  { split.
    - apply Z.div_pos; nia.
    - apply Z.div_le_upper_bound; nia. }
  destruct (Z.odd (height * height / width)) eqn:Hodd; [|lia].
  assert (height * height / width <> height).
  { intros E. rewrite E in Hodd. rewrite <- Z.negb_even, Heven in Hodd.
    discriminate Hodd. }
  lia.
Qed.

Lemma rounded_crop_width_even width height :
  Z.even (rounded_crop_width width height) = true.
Proof.
  unfold rounded_crop_width.
  destruct (Z.odd (height * height / width)) eqn:Hodd.
  - rewrite Z.even_add, <- Z.negb_odd, Hodd. reflexivity.
  - rewrite <- Z.negb_odd, Hodd. reflexivity.
Qed.

Section Libyuv.

Context (size_bits : Z).
Context (ConvertToI420 : ConvertToI420Args -> Z).
Context (I420Scale : I420ScaleArgs -> Z).

(* The arguments the two libyuv calls are expected to receive for a frame
   of the given dimensions. *)
Local Abbreviation expected_rotate frame width height mode :=
  (mkConvertToI420Args
     (FrameBuffer.GetDataSize frame)
     height (height / 2) (height / 2)
     ((width - rounded_crop_width width height) / 2) 0
     width height
     (rounded_crop_width width height) height mode).

Local Abbreviation expected_scale width height :=
  (mkI420ScaleArgs
     height (height / 2) (height / 2)
     height (rounded_crop_width width height)
     width (width / 2) (width / 2)
     width height).


End Libyuv.



End CachedFrameFacts.

(* --------------------------------------------------------------------- *)
(*  Pixel format conversions and format searches                          *)
(* --------------------------------------------------------------------- *)

Module PixelFormatConversionFacts.
Import FourCC PixelFormatConversion.

(** X1: the two pixel-format conversions are inverse to each other on the
    formats they recognise: a V4L2 format that V4L2ToHalPixelFormat
    recognises is given back by HalToV4L2PixelFormat, and a HAL format
    other than IMPLEMENTATION_DEFINED that HalToV4L2PixelFormat recognises
    is given back by V4L2ToHalPixelFormat.  An unrecognised HAL format
    yields 0xFFFFFFFF (the -1 of the source as a uint32_t), which
    V4L2ToHalPixelFormat does not recognise either. *)
Theorem pixel_format_round_trip (v4l2_pixel_format hal_pixel_format impl : Z) :
  (0 <= V4L2ToHalPixelFormat v4l2_pixel_format ->
   HalToV4L2PixelFormat (V4L2ToHalPixelFormat v4l2_pixel_format) impl
   = v4l2_pixel_format) /\
  (hal_pixel_format <> PixelFormat.IMPLEMENTATION_DEFINED ->
   HalToV4L2PixelFormat hal_pixel_format impl <> 4294967295 ->
   V4L2ToHalPixelFormat (HalToV4L2PixelFormat hal_pixel_format impl)
   = hal_pixel_format) /\
  V4L2ToHalPixelFormat 4294967295 = -1.
Proof.
  split; [|split].
  - unfold V4L2ToHalPixelFormat.
    repeat match goal with
           | |- context [v4l2_pixel_format =? ?c] =>
               destruct (Z.eqb_spec v4l2_pixel_format c) as [-> | ?];
               [intros _; reflexivity|]
           end.
    lia.
  - intros Himpl. unfold HalToV4L2PixelFormat.
    repeat match goal with
           | |- context [hal_pixel_format =? ?c] =>
               destruct (Z.eqb_spec hal_pixel_format c) as [-> | ?];
               [first [intros _; reflexivity | contradiction]|]
           end.
    intros H. exfalso. apply H. reflexivity.
  - reflexivity.
Qed.

Lemma pixel_format_round_trip_witness :
  HalToV4L2PixelFormat (V4L2ToHalPixelFormat V4L2_PIX_FMT_YUYV) 0
  = V4L2_PIX_FMT_YUYV /\
  V4L2ToHalPixelFormat (HalToV4L2PixelFormat PixelFormat.YV12 0)
  = PixelFormat.YV12.
Proof.
  destruct (pixel_format_round_trip V4L2_PIX_FMT_YUYV PixelFormat.YV12 0)
    as (H1 & H2 & _).
  split.
  - apply H1. vm_compute. discriminate.
  - apply H2; vm_compute; discriminate.
Defined.

Lemma fold_add_hal_format l :
  forall hal x,
    x ∈ fold_left add_hal_format l hal <->
    x ∈ hal \/ (0 <= x /\ exists v, v ∈ l /\ V4L2ToHalPixelFormat v = x).
Proof.
  induction l as [|v rest IH]; intros hal x; simpl.
  - split; [auto|]. intros [H|(_ & w & Hw & _)]; [exact H|].
    apply elem_of_nil in Hw. contradiction.
  - rewrite IH. unfold add_hal_format.
    destruct (Z.ltb_spec (V4L2ToHalPixelFormat v) 0) as [Hneg|Hpos].
    + split.
      * intros [H|(Hx & w & Hw & Hv)]; [left; exact H|].
        right. split; [exact Hx|]. exists w. split; [right; exact Hw|exact Hv].
      * intros [H|(Hx & w & Hw & Hv)]; [left; exact H|].
        apply elem_of_cons in Hw as [-> | Hw]; [lia|].
        right. split; [exact Hx|]. exists w. auto.
    + rewrite elem_of_union, elem_of_singleton. split.
      * intros [[-> | H]|(Hx & w & Hw & Hv)].
        -- right. split; [exact Hpos|]. exists v. split; [left|reflexivity].
        -- left. exact H.
        -- right. split; [exact Hx|]. exists w.
           split; [right; exact Hw|exact Hv].
      * intros [H|(Hx & w & Hw & Hv)]; [left; right; exact H|].
        apply elem_of_cons in Hw as [-> | Hw]; [left; left; auto|].
        right. split; [exact Hx|]. exists w. auto.
Qed.

(** X2: the set overload of V4L2ToHalPixelFormat returns 0 and adds to the
    HAL set exactly the translations of the recognised V4L2 formats:
    unrecognised formats are skipped and nothing already in the set is
    lost. *)
Theorem V4L2ToHalPixelFormats_adds_recognised
    (v4l2_pixel_formats : list Z) (hal_pixel_format : gset Z) (x : Z) :
  fst (V4L2ToHalPixelFormats v4l2_pixel_formats hal_pixel_format) = 0 /\
  (x ∈ snd (V4L2ToHalPixelFormats v4l2_pixel_formats hal_pixel_format) <->
   x ∈ hal_pixel_format \/
   (0 <= x /\
    exists v, v ∈ v4l2_pixel_formats /\ V4L2ToHalPixelFormat v = x)).
Proof.
  split; [reflexivity|]. apply fold_add_hal_format.
Qed.

End PixelFormatConversionFacts.

Module FormatSearchFacts.
Import StreamFormat FormatSearch.

Lemma FindMatchingFormat_from_spec formats p w h :
  forall i, 0 <= i ->
    let r := FindMatchingFormat_from i formats p w h in
    (r = -1 /\ forall f, f ∈ formats -> ~ matches_format p w h f) \/
    (i <= r < i + Z.of_nat (length formats) /\
     (exists f, formats !! Z.to_nat (r - i) = Some f /\ matches_format p w h f) /\
     forall (j : nat) g, (Z.of_nat j < r - i) -> formats !! j = Some g ->
                         ~ matches_format p w h g).
Proof.
  induction formats as [|f rest IH]; intros i Hi; cbv zeta; simpl.
  - left. split; [reflexivity|]. intros f Hf. apply elem_of_nil in Hf.
    contradiction.
  - destruct ((v4l2_pixel_format_ f =? p) && (width_ f =? w)
              && (height_ f =? h)) eqn:E.
    + right. split; [lia|]. split.
      * exists f. rewrite Z.sub_diag. split; [reflexivity|].
        apply andb_true_iff in E as [E E3]. apply andb_true_iff in E as [E1 E2].
        apply Z.eqb_eq in E1, E2, E3. repeat split; assumption.
      * intros j g Hj. lia.
    + assert (Hf : ~ matches_format p w h f).
      { intros (H1 & H2 & H3). rewrite H1, H2, H3, !Z.eqb_refl in E.
        discriminate E. }
      destruct (IH (i + 1) ltac:(lia)) as [[Hr Hnone]|(Hr & (g & Hg & Hm) & Hfirst)].
      * left. split; [exact Hr|]. intros x Hx.
        apply elem_of_cons in Hx as [-> | Hx]; [exact Hf|auto].
      * right. split; [lia|]. split.
        -- exists g. split; [|exact Hm].
           replace (Z.to_nat (FindMatchingFormat_from (i + 1) rest p w h - i))
             with (S (Z.to_nat
                        (FindMatchingFormat_from (i + 1) rest p w h - (i + 1))))
             by lia.
           exact Hg.
        -- intros j x Hj Hx. destruct j as [|j].
           ++ simpl in Hx. injection Hx as <-. exact Hf.
           ++ simpl in Hx. apply (Hfirst j x); [lia|exact Hx].
Qed.

Lemma FindFormatByResolution_from_spec formats w h :
  forall i, 0 <= i ->
    let r := FindFormatByResolution_from i formats w h in
    (r = -1 /\ forall f, f ∈ formats -> ~ matches_resolution w h f) \/
    (i <= r < i + Z.of_nat (length formats) /\
     (exists f, formats !! Z.to_nat (r - i) = Some f /\ matches_resolution w h f) /\
     forall (j : nat) g, (Z.of_nat j < r - i) -> formats !! j = Some g ->
                         ~ matches_resolution w h g).
Proof.
  induction formats as [|f rest IH]; intros i Hi; cbv zeta; simpl.
  - left. split; [reflexivity|]. intros f Hf. apply elem_of_nil in Hf.
    contradiction.
  - destruct ((width_ f =? w) && (height_ f =? h)) eqn:E.
    + right. split; [lia|]. split.
      * exists f. rewrite Z.sub_diag. split; [reflexivity|].
        apply andb_true_iff in E as [E1 E2].
        apply Z.eqb_eq in E1, E2. split; assumption.
      * intros j g Hj. lia.
    + assert (Hf : ~ matches_resolution w h f).
      { intros (H1 & H2). rewrite H1, H2, !Z.eqb_refl in E. discriminate E. }
      destruct (IH (i + 1) ltac:(lia)) as [[Hr Hnone]|(Hr & (g & Hg & Hm) & Hfirst)].
      * left. split; [exact Hr|]. intros x Hx.
        apply elem_of_cons in Hx as [-> | Hx]; [exact Hf|auto].
      * right. split; [lia|]. split.
        -- exists g. split; [|exact Hm].
           replace (Z.to_nat (FindFormatByResolution_from (i + 1) rest w h - i))
             with (S (Z.to_nat
                        (FindFormatByResolution_from (i + 1) rest w h - (i + 1))))
             by lia.
           exact Hg.
        -- intros j x Hj Hx. destruct j as [|j].
           ++ simpl in Hx. injection Hx as <-. exact Hf.
           ++ simpl in Hx. apply (Hfirst j x); [lia|exact Hx].
Qed.

(** X3: FindMatchingFormat and FindFormatByResolution return -1 exactly
    when no entry of the array matches (pixel format, width and height,
    respectively width and height alone); otherwise they return the index
    of a matching entry, and no entry before that index matches. *)
Theorem format_search_returns_first_match
    (formats : list t) (p w h : Z) :
  ((FindMatchingFormat formats p w h = -1 /\
    forall f, f ∈ formats -> ~ matches_format p w h f) \/
   (0 <= FindMatchingFormat formats p w h < Z.of_nat (length formats) /\
    (exists f, formats !! Z.to_nat (FindMatchingFormat formats p w h) = Some f /\
               matches_format p w h f) /\
    forall (j : nat) g,
      Z.of_nat j < FindMatchingFormat formats p w h ->
      formats !! j = Some g -> ~ matches_format p w h g)) /\
  ((FindFormatByResolution formats w h = -1 /\
    forall f, f ∈ formats -> ~ matches_resolution w h f) \/
   (0 <= FindFormatByResolution formats w h < Z.of_nat (length formats) /\
    (exists f, formats !! Z.to_nat (FindFormatByResolution formats w h) = Some f /\
               matches_resolution w h f) /\
    forall (j : nat) g,
      Z.of_nat j < FindFormatByResolution formats w h ->
      formats !! j = Some g -> ~ matches_resolution w h g)).
Proof.
  split.
  - pose proof (FindMatchingFormat_from_spec formats p w h 0 ltac:(lia)) as H.
    cbv zeta in H. unfold FindMatchingFormat.
    rewrite Z.sub_0_r in H. exact H.
  - pose proof (FindFormatByResolution_from_spec formats w h 0 ltac:(lia)) as H.
    cbv zeta in H. unfold FindFormatByResolution.
    rewrite Z.sub_0_r in H. exact H.
Qed.

End FormatSearchFacts.

(* --------------------------------------------------------------------- *)
(*  CameraTracker: streams, buffers, queues, results and settings         *)
(* --------------------------------------------------------------------- *)

Module TrackedStreamFacts.
Import MachineInt Hidl CameraTracker CameraTrackerMore.

Lemma to_uint32_inj_int32 a b :
  int32_range a -> int32_range b -> to_uint32 a = to_uint32 b -> a = b.
Proof.
  unfold int32_range, to_uint32, two31, two32. intros Ha Hb H.
  assert (Hd : (a - b) mod 2 ^ 32 = 0).
  { rewrite Zminus_mod, H, Z.sub_diag. reflexivity. }
  apply Z.mod_divide in Hd; [|lia]. destruct Hd as [k Hk]. lia.
Qed.

(** X4: a stream tracked with trackStream is what getStream returns for
    its id, whatever was tracked under that id before, and tracking it
    changes the answer for no other id (ids being int32 values); after
    clearStreams every id yields the invalid stream (id -1). *)
Theorem getStream_after_trackStream (tr : t) (stream : Stream) (sid : Z) :
  int32_range sid -> int32_range (stream_id stream) ->
  getStream (stream_id stream) (trackStream stream tr) = stream /\
  (sid <> stream_id stream ->
   getStream sid (trackStream stream tr) = getStream sid tr) /\
  getStream sid (clearStreams (trackStream stream tr)) = InvalidStream.
Proof.
  intros Hsid Hid. unfold getStream, trackStream, clearStreams. simpl.
  split; [|split].
  - rewrite lookup_insert_eq. reflexivity.
  - intros Hne. rewrite lookup_insert_ne; [reflexivity|].
    intros E. apply Hne. symmetry.
    apply to_uint32_inj_int32; assumption.
  - rewrite lookup_empty. reflexivity.
Qed.

Lemma getStream_after_trackStream_witness :
  getStream 1 (trackStream TrackerSamples.preview_stream empty)
  = getStream 1 empty.
Proof.
  destruct (getStream_after_trackStream empty TrackerSamples.preview_stream 1)
    as (_ & H & _).
  - unfold int32_range. vm_compute. split; [discriminate|reflexivity].
  - unfold int32_range. vm_compute. split; [discriminate|reflexivity].
  - apply H. vm_compute. discriminate.
Defined.

End TrackedStreamFacts.

Module TrackedBuffersFacts.
Import TrackedBuffers.

(** X5: after trackBuffer(stream, id, handle), getBuffer gives that handle
    for the same stream and buffer id and is unchanged for every other
    pair; getBuffer answers nullptr for a stream that holds no buffer. *)
Theorem getBuffer_after_trackBuffer
    (m : gmap Z BufferMap) (stream_id buffer_id : Z) (buffer : option Z)
    (stream_id' buffer_id' : Z) :
  fst (trackBuffer stream_id buffer_id buffer m) = 0 /\
  getBuffer stream_id buffer_id (snd (trackBuffer stream_id buffer_id buffer m))
  = buffer /\
  ((stream_id', buffer_id') <> (stream_id, buffer_id) ->
   getBuffer stream_id' buffer_id'
             (snd (trackBuffer stream_id buffer_id buffer m))
   = getBuffer stream_id' buffer_id' m) /\
  (m !! stream_id' = None -> getBuffer stream_id' buffer_id' m = None).
Proof.
  unfold trackBuffer, getBuffer, BufferMap in *. cbn [fst snd].
  split; [reflexivity|]. split; [|split].
  - rewrite lookup_insert_eq. cbn beta iota. rewrite lookup_insert_eq.
    reflexivity.
  - intros Hne. destruct (decide (stream_id' = stream_id)) as [-> | Hs].
    + rewrite lookup_insert_eq. cbn beta iota.
      rewrite lookup_insert_ne by (intros ->; apply Hne; reflexivity).
      destruct (m !! stream_id) as [tracked|]; simpl; [reflexivity|].
      rewrite lookup_empty. reflexivity.
    + rewrite lookup_insert_ne by (intros E; apply Hs; symmetry; exact E).
      reflexivity.
  - intros ->. reflexivity.
Qed.

Lemma getBuffer_after_trackBuffer_witness :
  getBuffer 1 8 (snd (trackBuffer 0 7 (Some 42) ∅)) = getBuffer 1 8 ∅.
Proof.
  destruct (getBuffer_after_trackBuffer ∅ 0 7 (Some 42) 1 8)
    as (_ & _ & H & _).
  apply H. discriminate.
Defined.

(** X6: untrackBuffer on a tracked (stream, buffer id) pair returns 0,
    hands back the tracked handle, and leaves the pair untracked while
    every other pair keeps its handle; the stream itself stays known even
    when it was its last buffer.  On a stream or buffer id that is not
    tracked it returns -1, hands back nothing and changes nothing. *)
Theorem untrackBuffer_spec
    (m : gmap Z BufferMap) (stream_id buffer_id : Z)
    (stream_id' buffer_id' : Z) :
  (forall tracked_buffers b,
     m !! stream_id = Some tracked_buffers ->
     tracked_buffers !! buffer_id = Some b ->
     fst (fst (untrackBuffer stream_id buffer_id m)) = 0 /\
     snd (fst (untrackBuffer stream_id buffer_id m)) = Some b /\
     getBuffer stream_id buffer_id (snd (untrackBuffer stream_id buffer_id m))
     = None /\
     snd (untrackBuffer stream_id buffer_id m) !! stream_id
     = Some (delete buffer_id tracked_buffers) /\
     ((stream_id', buffer_id') <> (stream_id, buffer_id) ->
      getBuffer stream_id' buffer_id'
                (snd (untrackBuffer stream_id buffer_id m))
      = getBuffer stream_id' buffer_id' m)) /\
  ((m !! stream_id = None \/
    exists tracked_buffers,
      m !! stream_id = Some tracked_buffers /\
      tracked_buffers !! buffer_id = None) ->
   untrackBuffer stream_id buffer_id m = (-1, None, m)).
Proof.
  split.
  - intros tracked b Hs Hb. unfold untrackBuffer, getBuffer, BufferMap in *.
    rewrite Hs, Hb. cbn [fst snd]. split; [reflexivity|]. split; [reflexivity|].
    rewrite lookup_insert_eq. cbn beta iota. rewrite lookup_delete_eq.
    split; [reflexivity|]. split; [reflexivity|].
    intros Hne. destruct (decide (stream_id' = stream_id)) as [-> | Hd].
    + rewrite lookup_insert_eq, Hs. cbn beta iota.
      rewrite lookup_delete_ne by (intros ->; apply Hne; reflexivity).
      reflexivity.
    + rewrite lookup_insert_ne by (intros E; apply Hd; symmetry; exact E).
      reflexivity.
  - unfold untrackBuffer. intros [-> | (tracked & -> & ->)]; reflexivity.
Qed.

Lemma untrackBuffer_spec_witness :
  untrackBuffer 0 8 (snd (trackBuffer 0 7 (Some 42) ∅))
  = (-1, None, snd (trackBuffer 0 7 (Some 42) ∅)).
Proof.
  destruct (untrackBuffer_spec (snd (trackBuffer 0 7 (Some 42) ∅)) 0 8 0 0)
    as (_ & H).
  apply H. right. exists (<[7 := Some 42]> ∅). split; reflexivity.
Defined.

(** X7: untrackStreamBuffers on a stream that holds buffers returns 0,
    appends to the vector exactly the stream's tracked handles (as many
    entries as the stream has buffers, each of them a tracked handle and
    every tracked handle among them), and forgets the stream, so that a
    second call returns -1; other streams are untouched.  On an unknown
    stream it returns -1 and changes neither the vector nor the map.
    clearBuffers appends exactly the handles tracked for any stream and
    leaves nothing tracked. *)
Theorem untrackStreamBuffers_spec
    (m : gmap Z BufferMap) (stream_id : Z) (buffers : list (option Z))
    (stream_id' buffer_id' : Z) :
  (forall tracked_buffers,
     m !! stream_id = Some tracked_buffers ->
     exists appended,
       untrackStreamBuffers stream_id (Some buffers) m
       = (0, Some (buffers ++ appended), delete stream_id m) /\
       length appended = size tracked_buffers /\
       (forall h, h ∈ appended <->
                  exists buffer_id, tracked_buffers !! buffer_id = Some h) /\
       fst (fst (untrackStreamBuffers stream_id (Some buffers)
                                      (delete stream_id m))) = -1 /\
       getBuffer stream_id buffer_id' (delete stream_id m) = None /\
       (stream_id' <> stream_id ->
        getBuffer stream_id' buffer_id' (delete stream_id m)
        = getBuffer stream_id' buffer_id' m)) /\
  (m !! stream_id = None ->
   untrackStreamBuffers stream_id (Some buffers) m = (-1, Some buffers, m)) /\
  (exists appended,
     clearBuffers (Some buffers) m = (Some (buffers ++ appended), ∅) /\
     forall h, h ∈ appended <->
               exists stream_id tracked_buffers buffer_id,
                 m !! stream_id = Some tracked_buffers /\
                 tracked_buffers !! buffer_id = Some h).
Proof.
  split; [|split].
  - intros tracked Hs. exists (snd <$> map_to_list tracked).
    unfold untrackStreamBuffers, getBuffer, BufferMap in *. rewrite Hs.
    split; [reflexivity|].
    split; [rewrite length_fmap, length_map_to_list; reflexivity|].
    split.
    { intros h. rewrite list_elem_of_fmap. split.
      - intros ([k v] & -> & Hkv). exists k.
        apply elem_of_map_to_list in Hkv. exact Hkv.
      - intros (k & Hk). exists (k, h). split; [reflexivity|].
        apply elem_of_map_to_list. exact Hk. }
    rewrite lookup_delete_eq. split; [reflexivity|]. split; [reflexivity|].
    intros Hne. rewrite lookup_delete_ne by (intros E; apply Hne; symmetry; exact E).
    reflexivity.
  - unfold untrackStreamBuffers. intros ->. reflexivity.
  - unfold clearBuffers, BufferMap in *. eexists. split; [reflexivity|].
    intros h. rewrite list_elem_of_In, in_concat. split.
    + intros (l & Hl & Hh). apply list_elem_of_In in Hl, Hh.
      apply list_elem_of_fmap in Hl as ([sid bm] & -> & Hkv).
      apply elem_of_map_to_list in Hkv. cbn [snd] in Hh.
      apply list_elem_of_fmap in Hh as ([bid h'] & -> & Hb).
      apply elem_of_map_to_list in Hb. exists sid, bm, bid. auto.
    + intros (sid & bm & bid & Hs & Hb).
      exists (snd <$> map_to_list bm). split; apply list_elem_of_In.
      * apply list_elem_of_fmap. exists (sid, bm). split; [reflexivity|].
        apply elem_of_map_to_list. exact Hs.
      * apply list_elem_of_fmap. exists (bid, h). split; [reflexivity|].
        apply elem_of_map_to_list. exact Hb.
Qed.

Lemma untrackStreamBuffers_spec_witness :
  untrackStreamBuffers 3 (Some []) (snd (trackBuffer 0 7 (Some 42) ∅))
  = (-1, Some [], snd (trackBuffer 0 7 (Some 42) ∅)).
Proof.
  destruct (untrackStreamBuffers_spec (snd (trackBuffer 0 7 (Some 42) ∅))
                                      3 [] 0 0) as (_ & H & _).
  apply H. reflexivity.
Defined.

End TrackedBuffersFacts.

Module CaptureQueueFacts.
Import MachineInt Hidl CameraTracker CameraTrackerMore.

Lemma set_capture_list_same tr : set_capture_list (capture_list_ tr) tr = tr.
Proof. destruct tr; reflexivity. Qed.

Lemma popNextOutputBuffer_list_none l :
  pending_outputs l = 0%nat ->
  popNextOutputBuffer_list l = (InvalidStreamBuffer, -1, l).
Proof.
  induction l as [|c rest IH]; [reflexivity|].
  unfold pending_outputs. simpl. intros H.
  destruct (output_buffers c) as [|b q]; [|discriminate H].
  simpl in H. fold (pending_outputs rest) in H. rewrite (IH H). reflexivity.
Qed.

Lemma popNextOutputBuffer_list_some l :
  pending_outputs l <> 0%nat ->
  exists b capture_id l',
    popNextOutputBuffer_list l = (b, capture_id, l') /\
    pending_in_order l = (b, capture_id) :: pending_in_order l' /\
    S (pending_outputs l') = pending_outputs l /\
    map id l' = map id l.
Proof.
  induction l as [|c rest IH]; [intros H; contradiction H; reflexivity|].
  unfold pending_outputs, pending_in_order. simpl.
  destruct (output_buffers c) as [|b q] eqn:Hq.
  - simpl. intros H.
    destruct (IH H) as (b & capture_id & l' & -> & Ho & Hn & Hi).
    exists b, capture_id, (c :: l'). split; [reflexivity|]. simpl.
    rewrite Hq. simpl. split; [exact Ho|].
    split; [exact Hn|]. f_equal. exact Hi.
  - intros _. exists b, (to_int32 (id c)), (set_output_buffers q c :: rest).
    split; [reflexivity|]. simpl. split; [reflexivity|].
    split; reflexivity.
Qed.

Lemma pop_outputs_drains (n : nat) :
  forall tr,
    pending_outputs (capture_list_ tr) = n ->
    fst (pop_outputs n tr) = pending_in_order (capture_list_ tr) /\
    pending_outputs (capture_list_ (snd (pop_outputs n tr))) = 0%nat /\
    map id (capture_list_ (snd (pop_outputs n tr))) = map id (capture_list_ tr) /\
    tracked_streams_ (snd (pop_outputs n tr)) = tracked_streams_ tr /\
    tracked_settings_ (snd (pop_outputs n tr)) = tracked_settings_ tr.
Proof.
  induction n as [|n IH]; intros tr Hn; simpl.
  - split; [|auto].
    revert Hn. generalize (capture_list_ tr). intros l.
    induction l as [|c rest IHl]; [reflexivity|].
    unfold pending_outputs, pending_in_order. simpl.
    destruct (output_buffers c); [|discriminate]. simpl. exact IHl.
  - unfold popNextOutputBuffer.
    destruct (popNextOutputBuffer_list_some (capture_list_ tr))
      as (b & capture_id & l' & -> & Ho & Hl & Hi); [rewrite Hn; discriminate|].
    destruct (IH (set_capture_list l' tr)) as (H1 & H2 & H3 & H4 & H5).
    { simpl. rewrite Hn in Hl. injection Hl as Hl. exact Hl. }
    destruct (pop_outputs n (set_capture_list l' tr)) as [popped tr2].
    simpl in *. rewrite H1, Ho. split; [reflexivity|].
    split; [exact H2|]. split; [rewrite H3; exact Hi|]. split; assumption.
Qed.

(** X8: popNextOutputBuffer is a first-in first-out drain: called as many
    times as there are pending output buffers it hands them out capture by
    capture in tracking order, each capture's buffers in their queue
    order and with that capture's id; no capture is dropped from the
    tracker by popping, and once nothing is pending a further call yields
    the invalid buffer with capture id -1 and changes nothing. *)
Theorem popNextOutputBuffer_drains_in_order (tr : t) :
  let n := pending_outputs (capture_list_ tr) in
  let after := snd (pop_outputs n tr) in
  fst (pop_outputs n tr) = pending_in_order (capture_list_ tr) /\
  map id (capture_list_ after) = map id (capture_list_ tr) /\
  pending_outputs (capture_list_ after) = 0%nat /\
  popNextOutputBuffer after = (InvalidStreamBuffer, -1, after).
Proof.
  cbv zeta.
  destruct (pop_outputs_drains (pending_outputs (capture_list_ tr)) tr eq_refl)
    as (H1 & H2 & H3 & _).
  split; [exact H1|]. split; [exact H3|]. split; [exact H2|].
  unfold popNextOutputBuffer.
  rewrite (popNextOutputBuffer_list_none _ H2), set_capture_list_same.
  reflexivity.
Qed.

Lemma pending_inputs_cons c rest :
  pending_inputs (c :: rest) =
  Nat.add (if streamId (input_buffer c) =? -1 then 0%nat else 1%nat)
          (pending_inputs rest).
Proof.
  unfold pending_inputs. rewrite filter_cons.
  destruct (Z.eqb_spec (streamId (input_buffer c)) (-1)) as [E|E].
  - rewrite decide_False by (intros H; apply H; exact E). reflexivity.
  - rewrite decide_True by exact E. reflexivity.
Qed.

Lemma pending_inputs_none l :
  pending_inputs l = 0%nat <->
  Forall (fun c => streamId (input_buffer c) = -1) l.
Proof.
  induction l as [|c rest IH].
  - split; [intros _; apply Forall_nil_2|reflexivity].
  - rewrite pending_inputs_cons, Forall_cons.
    destruct (Z.eqb_spec (streamId (input_buffer c)) (-1)) as [E|E]; simpl.
    + rewrite IH. tauto.
    + split; [discriminate|]. intros [H _]. contradiction.
Qed.

Lemma pending_inputs_app l1 l2 :
  pending_inputs (l1 ++ l2) = (pending_inputs l1 + pending_inputs l2)%nat.
Proof.
  induction l1 as [|c rest IH]; [reflexivity|].
  rewrite <- app_comm_cons, !pending_inputs_cons, IH. apply Nat.add_assoc.
Qed.

(* The capture list is cut at the first capture with a pending input. *)
Lemma first_pending_input l :
  pending_inputs l <> 0%nat ->
  exists l1 c l2,
    l = l1 ++ c :: l2 /\
    Forall (fun c' => streamId (input_buffer c') = -1) l1 /\
    streamId (input_buffer c) <> -1.
Proof.
  induction l as [|c rest IH]; intros H.
  - contradiction H. reflexivity.
  - destruct (Z.eq_dec (streamId (input_buffer c)) (-1)) as [E|E].
    + rewrite pending_inputs_cons in H.
      destruct (Z.eqb_spec (streamId (input_buffer c)) (-1)) as [_|E'];
        [|contradiction].
      destruct (IH H) as (l1 & c' & l2 & -> & Hl1 & Hc').
      exists (c :: l1), c', l2. split; [reflexivity|].
      split; [apply Forall_cons; split; assumption|exact Hc'].
    + exists [], c, rest. split; [reflexivity|].
      split; [apply Forall_nil_2|exact E].
Qed.

Lemma popNextInputBuffer_list_first l1 c l2 :
  Forall (fun c' => streamId (input_buffer c') = -1) l1 ->
  streamId (input_buffer c) <> -1 ->
  popNextInputBuffer_list (l1 ++ c :: l2)
  = (input_buffer c, to_int32 (id c),
     l1 ++ set_input_buffer InvalidStreamBuffer c :: l2).
Proof.
  intros Hl1 Hc. induction l1 as [|c1 rest IH]; simpl.
  - destruct (Z.eqb_spec (streamId (input_buffer c)) (-1)) as [E|E];
      [contradiction|reflexivity].
  - apply Forall_cons in Hl1 as [H1 Hrest].
    rewrite H1, (IH Hrest). reflexivity.
Qed.

Lemma popNextInputBuffer_list_none l :
  Forall (fun c => streamId (input_buffer c) = -1) l ->
  popNextInputBuffer_list l = (InvalidStreamBuffer, -1, l).
Proof.
  induction l as [|c rest IH]; intros H; simpl; [reflexivity|].
  apply Forall_cons in H as [H1 Hrest].
  rewrite H1, (IH Hrest). reflexivity.
Qed.

(** X9: popNextInputBuffer takes the pending input buffer of the first
    capture that has one.  With no pending input it yields the invalid
    buffer with capture id -1 and changes nothing.  Whenever the capture
    list is l1 ++ c :: l2 with no pending input in l1 and a pending input
    (stream id other than -1) in c, it hands out exactly the input buffer
    of c with the id of c as an int, and leaves l1 and l2 as they are
    with the input buffer of c replaced by the invalid buffer; streams
    and settings are not touched.  With a pending input such a first
    capture exists, and the call then leaves one pending input less,
    while the pending outputs and the ids of the tracked captures stay
    as they are. *)
Theorem popNextInputBuffer_spec (tr : t) :
  (pending_inputs (capture_list_ tr) = 0%nat ->
   popNextInputBuffer tr = (InvalidStreamBuffer, -1, tr)) /\
  (forall l1 c l2,
     capture_list_ tr = l1 ++ c :: l2 ->
     Forall (fun c' => streamId (input_buffer c') = -1) l1 ->
     streamId (input_buffer c) <> -1 ->
     popNextInputBuffer tr
     = (input_buffer c, to_int32 (id c),
        mk (tracked_streams_ tr)
           (l1 ++ set_input_buffer InvalidStreamBuffer c :: l2)
           (tracked_settings_ tr))) /\
  (pending_inputs (capture_list_ tr) <> 0%nat ->
   exists l1 c l2 tr',
     capture_list_ tr = l1 ++ c :: l2 /\
     Forall (fun c' => streamId (input_buffer c') = -1) l1 /\
     streamId (input_buffer c) <> -1 /\
     popNextInputBuffer tr = (input_buffer c, to_int32 (id c), tr') /\
     capture_list_ tr' = l1 ++ set_input_buffer InvalidStreamBuffer c :: l2 /\
     S (pending_inputs (capture_list_ tr')) = pending_inputs (capture_list_ tr) /\
     pending_outputs (capture_list_ tr') = pending_outputs (capture_list_ tr) /\
     map id (capture_list_ tr') = map id (capture_list_ tr)).
Proof.
  assert (Hfirst : forall l1 c l2,
             capture_list_ tr = l1 ++ c :: l2 ->
             Forall (fun c' => streamId (input_buffer c') = -1) l1 ->
             streamId (input_buffer c) <> -1 ->
             popNextInputBuffer tr
             = (input_buffer c, to_int32 (id c),
                mk (tracked_streams_ tr)
                   (l1 ++ set_input_buffer InvalidStreamBuffer c :: l2)
                   (tracked_settings_ tr))).
  { intros l1 c l2 Hl Hl1 Hc. unfold popNextInputBuffer.
    rewrite Hl, (popNextInputBuffer_list_first l1 c l2 Hl1 Hc).
    reflexivity. }
  split; [|split; [exact Hfirst|]].
  - intros H. apply pending_inputs_none in H.
    unfold popNextInputBuffer.
    rewrite (popNextInputBuffer_list_none _ H), set_capture_list_same.
    reflexivity.
  - intros H.
    destruct (first_pending_input _ H) as (l1 & c & l2 & Hl & Hl1 & Hc).
    exists l1, c, l2. eexists.
    split; [exact Hl|]. split; [exact Hl1|]. split; [exact Hc|].
    split; [exact (Hfirst l1 c l2 Hl Hl1 Hc)|].
    cbn [capture_list_]. split; [reflexivity|].
    rewrite Hl, !pending_inputs_app, !pending_inputs_cons.
    cbn [input_buffer set_input_buffer InvalidStreamBuffer streamId Z.eqb].
    destruct (Z.eqb_spec (streamId (input_buffer c)) (-1)) as [E|_];
      [contradiction|].
    split; [simpl; lia|].
    unfold pending_outputs. rewrite !List.map_app. cbn [map].
    split; [rewrite !list_sum_app|]; reflexivity.
Qed.

Lemma popNextInputBuffer_spec_witness :
  popNextInputBuffer Samples.reprocess_behind_preview
  = (mkStreamBuffer 1 100 None BUFFER_OK None None, 8,
     snd (trackCapture
            (Samples.reprocess_request 9)
            (snd (trackCapture
                    (Samples.sample_request 8)
                    (snd (trackCapture (Samples.sample_request 7) empty)))))).
Proof.
  destruct (popNextInputBuffer_spec Samples.reprocess_behind_preview)
    as (_ & H & _).
  etransitivity.
  - apply (H [tracked_capture_of (Samples.sample_request 7)]
             (tracked_capture_of (Samples.reprocess_request 8))
             [tracked_capture_of (Samples.reprocess_request 9)]).
    + reflexivity.
    + apply Forall_cons_2; [reflexivity|apply Forall_nil_2].
    + discriminate.
  - reflexivity.
Defined.

End CaptureQueueFacts.

Module CaptureResultFacts.
Import MachineInt Hidl CameraTracker CameraTrackerMore.

Local Abbreviation has_id capture_id := (fun c => id c =? capture_id).

Lemma saveOutputBuffer_list_update b capture_id l :
  saveOutputBuffer_list b capture_id l =
  (match find (has_id capture_id) l with Some _ => 0 | None => -1 end,
   update_first capture_id
     (fun c => set_output_results (output_results c ++ [b]) c) l).
Proof.
  induction l as [|c rest IH]; simpl; [reflexivity|].
  destruct (id c =? capture_id); [reflexivity|]. rewrite IH. reflexivity.
Qed.

Lemma saveInputBuffer_list_update b capture_id l :
  saveInputBuffer_list b capture_id l =
  (match find (has_id capture_id) l with Some _ => 0 | None => -1 end,
   update_first capture_id (set_input_result b) l).
Proof.
  induction l as [|c rest IH]; simpl; [reflexivity|].
  destruct (id c =? capture_id); [reflexivity|]. rewrite IH. reflexivity.
Qed.

Lemma popOutputResults_list_update capture_id l :
  popOutputResults_list capture_id l =
  (match find (has_id capture_id) l with
   | Some c => output_results c
   | None => []
   end,
   update_first capture_id (set_output_results []) l).
Proof.
  induction l as [|c rest IH]; simpl; [reflexivity|].
  destruct (id c =? capture_id); [reflexivity|]. rewrite IH. reflexivity.
Qed.

Lemma popInputResult_list_update capture_id l :
  popInputResult_list capture_id l =
  (match find (has_id capture_id) l with
   | Some c => input_result c
   | None => InvalidStreamBuffer
   end,
   update_first capture_id (set_input_result InvalidStreamBuffer) l).
Proof.
  induction l as [|c rest IH]; simpl; [reflexivity|].
  destruct (id c =? capture_id); [reflexivity|]. rewrite IH. reflexivity.
Qed.

Lemma find_update_first capture_id f l :
  (forall c, id (f c) = id c) ->
  find (has_id capture_id) (update_first capture_id f l)
  = f <$> find (has_id capture_id) l.
Proof.
  intros Hf. induction l as [|c rest IH]; simpl; [reflexivity|].
  destruct (id c =? capture_id) eqn:E; simpl.
  - rewrite Hf, E. reflexivity.
  - rewrite E. exact IH.
Qed.

Lemma find_update_first_other capture_id other f l :
  (forall c, id (f c) = id c) ->
  other <> capture_id ->
  find (has_id other) (update_first capture_id f l)
  = find (has_id other) l.
Proof.
  intros Hf Hne. induction l as [|c rest IH]; simpl; [reflexivity|].
  destruct (Z.eqb_spec (id c) capture_id) as [E|E]; simpl.
  - rewrite Hf. destruct (Z.eqb_spec (id c) other) as [E'|E'];
      [congruence|reflexivity].
  - destruct (id c =? other); [reflexivity|exact IH].
Qed.

Lemma update_first_missing capture_id f l :
  find (has_id capture_id) l = None -> update_first capture_id f l = l.
Proof.
  induction l as [|c rest IH]; simpl; [reflexivity|].
  destruct (id c =? capture_id); [discriminate|].
  intros H. rewrite (IH H). reflexivity.
Qed.

(** X10: the output results of a capture accumulate in the order they are
    saved and are handed out once: after saveOutputBuffer(b, id) on a
    tracked id, popOutputResults(id) returns the results saved before
    followed by b, and a second popOutputResults(id) returns an empty
    vector; the results of captures with another id are untouched.  For an
    id that is not tracked saveOutputBuffer returns -1, popOutputResults
    returns an empty vector and neither changes the tracker. *)
Theorem saved_output_results_are_popped_once
    (tr : t) (b : StreamBuffer) (capture_id other : Z) :
  (forall c,
     first_with_id capture_id tr = Some c ->
     let saved := saveOutputBuffer b capture_id tr in
     let popped := popOutputResults capture_id (snd saved) in
     fst saved = 0 /\
     fst popped = output_results c ++ [b] /\
     fst (popOutputResults capture_id (snd popped)) = [] /\
     (other <> capture_id ->
      fst (popOutputResults other (snd popped))
      = fst (popOutputResults other tr))) /\
  (first_with_id capture_id tr = None ->
   saveOutputBuffer b capture_id tr = (-1, tr) /\
   popOutputResults capture_id tr = ([], tr)).
Proof.
  unfold first_with_id, saveOutputBuffer, popOutputResults. split.
  - intros c Hc. cbv zeta.
    rewrite saveOutputBuffer_list_update, Hc. cbn [fst snd capture_list_ set_capture_list].
    rewrite popOutputResults_list_update.
    cbn [fst snd capture_list_ set_capture_list].
    rewrite find_update_first by reflexivity. rewrite Hc.
    cbn [fmap option_fmap option_map output_results set_output_results].
    split; [reflexivity|]. split; [reflexivity|].
    rewrite !popOutputResults_list_update.
    cbn [fst snd capture_list_ set_capture_list].
    rewrite !find_update_first by reflexivity. rewrite Hc.
    split; [reflexivity|].
    intros Hne. rewrite !find_update_first_other by (reflexivity || exact Hne).
    reflexivity.
  - intros Hc.
    rewrite saveOutputBuffer_list_update, popOutputResults_list_update, Hc.
    rewrite !update_first_missing by exact Hc.
    rewrite CaptureQueueFacts.set_capture_list_same. split; reflexivity.
Qed.

(** X30: the input result of a capture is handed out once:
    saveInputBuffer on a tracked id returns 0 and replaces the capture's
    input result, popInputResult then returns exactly that buffer, and a
    second popInputResult returns the invalid buffer (stream id -1); the
    input results of captures with another id are untouched.  For an id
    that is not tracked saveInputBuffer returns -1, popInputResult returns
    the invalid buffer and neither changes the tracker. *)
Theorem saved_input_result_is_popped_once
    (tr : t) (b : StreamBuffer) (capture_id other : Z) :
  (forall c,
     first_with_id capture_id tr = Some c ->
     let saved := saveInputBuffer b capture_id tr in
     let popped := popInputResult capture_id (snd saved) in
     fst saved = 0 /\
     fst popped = b /\
     fst (popInputResult capture_id (snd popped)) = InvalidStreamBuffer /\
     (other <> capture_id ->
      fst (popInputResult other (snd popped))
      = fst (popInputResult other tr))) /\
  (first_with_id capture_id tr = None ->
   saveInputBuffer b capture_id tr = (-1, tr) /\
   popInputResult capture_id tr = (InvalidStreamBuffer, tr)).
Proof.
  unfold first_with_id, saveInputBuffer, popInputResult. split.
  - intros c Hc. cbv zeta.
    rewrite saveInputBuffer_list_update, Hc.
    cbn [fst snd capture_list_ set_capture_list].
    rewrite popInputResult_list_update.
    cbn [fst snd capture_list_ set_capture_list].
    rewrite find_update_first by reflexivity. rewrite Hc.
    cbn [fmap option_fmap option_map input_result set_input_result].
    split; [reflexivity|]. split; [reflexivity|].
    rewrite !popInputResult_list_update.
    cbn [fst snd capture_list_ set_capture_list].
    rewrite !find_update_first by reflexivity. rewrite Hc.
    split; [reflexivity|].
    intros Hne. rewrite !find_update_first_other by (reflexivity || exact Hne).
    reflexivity.
  - intros Hc.
    rewrite saveInputBuffer_list_update, popInputResult_list_update, Hc.
    rewrite !update_first_missing by exact Hc.
    rewrite CaptureQueueFacts.set_capture_list_same. split; reflexivity.
Qed.

End CaptureResultFacts.

Module CaptureSettingsFacts.
Import MachineInt Hidl CameraTracker CameraTrackerMore.

(** X11: setCaptureSettings always returns 0 and makes getCaptureSettings
    return the settings just stored; the partial count reported for the
    capture is 1 after the first call for an id and one more (as a
    uint32_t) after each further call; the settings of other ids and the
    capture list are untouched.  For an id without settings
    getCaptureSettings returns nullptr and leaves the caller's partial
    count as it was, which is also the case after untrackCapture. *)
Theorem capture_settings_round_trip
    (tr : t) (capture_id other : Z) (s : option Z) (partial_count0 : Z) :
  let tr1 := snd (setCaptureSettings capture_id s tr) in
  fst (setCaptureSettings capture_id s tr) = 0 /\
  fst (getCaptureSettings capture_id partial_count0 tr1) = s /\
  snd (getCaptureSettings capture_id partial_count0 tr1)
  = to_uint32 (snd (getCaptureSettings capture_id 0 tr) + 1) /\
  (other <> capture_id ->
   getCaptureSettings other partial_count0 tr1
   = getCaptureSettings other partial_count0 tr) /\
  capture_list_ tr1 = capture_list_ tr /\
  (tracked_settings_ tr !! capture_id = None ->
   getCaptureSettings capture_id partial_count0 tr = (None, partial_count0)) /\
  getCaptureSettings capture_id partial_count0
                     (snd (untrackCapture capture_id tr1))
  = (None, partial_count0).
Proof.
  cbv zeta. unfold setCaptureSettings, getCaptureSettings, untrackCapture.
  destruct (tracked_settings_ tr !! capture_id) as [old|] eqn:E;
    cbn [fst snd tracked_settings_ set_tracked_settings capture_list_
         settings partial_count];
    rewrite ?lookup_insert_eq, ?lookup_delete_eq;
    cbn [settings partial_count fst snd];
    (split; [reflexivity|]); (split; [reflexivity|]);
    (split; [reflexivity|]);
    (split; [intros Hne; rewrite lookup_insert_ne by
                (intros H; apply Hne; symmetry; exact H); reflexivity|]);
    (split; [reflexivity|]); (split; [|reflexivity]).
  - discriminate.
  - reflexivity.
Qed.

Lemma untrackCapture_list_split capture_id l :
  match find (fun c => id c =? capture_id) l with
  | None => untrackCapture_list capture_id l = l
  | Some c =>
      exists l1 l2,
        l = l1 ++ c :: l2 /\
        Forall (fun c' => id c' <> capture_id) l1 /\
        id c = capture_id /\
        untrackCapture_list capture_id l = l1 ++ l2
  end.
Proof.
  induction l as [|c rest IH]; simpl; [reflexivity|].
  destruct (Z.eqb_spec (id c) capture_id) as [E|E].
  - exists [], rest. split; [reflexivity|]. split; [constructor|].
    split; [exact E|reflexivity].
  - destruct (find (fun c => id c =? capture_id) rest) as [c'|].
    + destruct IH as (l1 & l2 & -> & Hall & Hid & ->).
      exists (c :: l1), l2. split; [reflexivity|].
      split; [constructor; assumption|]. split; [exact Hid|reflexivity].
    + rewrite IH. reflexivity.
Qed.

(** X12: untrackCapture always returns 0, never touches the tracked
    streams and removes the settings of the id.  From the capture list it
    erases exactly one entry, the first one with the given id: everything
    before it and everything after it stays, in order, including later
    entries with the same id; when no entry has the id the list is
    unchanged. *)
Theorem untrackCapture_erases_first_match (tr : t) (capture_id : Z) :
  fst (untrackCapture capture_id tr) = 0 /\
  tracked_streams_ (snd (untrackCapture capture_id tr)) = tracked_streams_ tr /\
  tracked_settings_ (snd (untrackCapture capture_id tr)) !! capture_id = None /\
  (first_with_id capture_id tr = None ->
   capture_list_ (snd (untrackCapture capture_id tr)) = capture_list_ tr) /\
  (forall c,
     first_with_id capture_id tr = Some c ->
     exists l1 l2,
       capture_list_ tr = l1 ++ c :: l2 /\
       Forall (fun c' => id c' <> capture_id) l1 /\
       capture_list_ (snd (untrackCapture capture_id tr)) = l1 ++ l2).
Proof.
  unfold untrackCapture, first_with_id. cbn [fst snd tracked_streams_
    tracked_settings_ capture_list_].
  split; [reflexivity|]. split; [reflexivity|].
  split; [apply lookup_delete_eq|].
  pose proof (untrackCapture_list_split capture_id (capture_list_ tr)) as H.
  split.
  - intros Hn. rewrite Hn in H. exact H.
  - intros c Hc. rewrite Hc in H. destruct H as (l1 & l2 & H1 & H2 & _ & H3).
    exists l1, l2. auto.
Qed.

End CaptureSettingsFacts.

(* --------------------------------------------------------------------- *)
(*  CameraDeviceSession: capture results and flush                        *)
(* --------------------------------------------------------------------- *)

Module SessionResultFacts.
Import MachineInt Hidl CameraTracker CameraTrackerMore CameraDeviceSession
       CameraDeviceSessionMore CameraDeviceSessionFacts.

Lemma untrackCapture_list_update_first capture_id f l :
  (forall c, id (f c) = id c) ->
  untrackCapture_list capture_id (update_first capture_id f l)
  = untrackCapture_list capture_id l.
Proof.
  intros Hf. induction l as [|c rest IH]; simpl; [reflexivity|].
  destruct (id c =? capture_id) eqn:E; simpl.
  - rewrite Hf, E. reflexivity.
  - rewrite E, IH. reflexivity.
Qed.

Lemma set_tracker_same {Driver : Type} (s : Session Driver) :
  set_tracker (camera_tracker_ s) s = s.
Proof. destruct s; reflexivity. Qed.

Section Session.

Context {Driver : Type}.
Context (processCaptureResultMetadata : Z -> CaptureResult -> CaptureResult).
Context (sensor_timestamp : Z -> Z).
Context (StreamOff : Driver -> Z * Driver).
Context (join_capture_thread :
           Session Driver -> Outcome Driver (Session Driver * list Event)).

Local Abbreviation process :=
  (processCaptureResult processCaptureResultMetadata sensor_timestamp).

(** X13: processCaptureResult on a capture id that is not tracked returns
    INTERNAL_ERROR, sends nothing and leaves the session as it was.  On a
    tracked capture it records the buffer among the capture's results.
    When the capture then has no pending output and no pending input
    buffer left, the settings tracked for its id are dereferenced: with
    non-null settings tracked, it returns OK and sends exactly a shutter
    notification followed by one capture result that carries all the
    results recorded for the capture, the new buffer last, with the
    tracked partial count, and untracks the capture and its settings;
    with no settings tracked for the id, or null ones, the behaviour is
    undefined.  Otherwise it returns OK, sends nothing and the capture
    stays tracked. *)
Theorem processCaptureResult_spec
    (s : Session Driver) (capture_id : Z) (b : StreamBuffer) :
  (first_with_id capture_id (camera_tracker_ s) = None ->
   process capture_id b s = Some (INTERNAL_ERROR, s, [])) /\
  (forall c,
     first_with_id capture_id (camera_tracker_ s) = Some c ->
     (output_buffers c = [] /\ streamId (input_buffer c) = -1 ->
      (forall metadata count,
         tracked_settings_ (camera_tracker_ s) !! capture_id
         = Some (mkTrackedSettings (Some metadata) count) ->
         let result :=
           processCaptureResultMetadata
             metadata
             (mkCaptureResult capture_id 0 None (output_results c ++ [b])
                              (input_result c) count) in
         exists s',
           process capture_id b s
           = Some (OK, s',
                   [Notify (MsgShutter (res_frameNumber result)
                                       (sensor_timestamp metadata));
                    ProcessCaptureResult result]) /\
           capture_list_ (camera_tracker_ s')
           = untrackCapture_list capture_id
                                 (capture_list_ (camera_tracker_ s)) /\
           tracked_settings_ (camera_tracker_ s') !! capture_id = None /\
           tracked_streams_ (camera_tracker_ s')
           = tracked_streams_ (camera_tracker_ s)) /\
      (fst (getCaptureSettings capture_id 0 (camera_tracker_ s)) = None ->
       process capture_id b s = None)) /\
     (~ (output_buffers c = [] /\ streamId (input_buffer c) = -1) ->
      exists s',
        process capture_id b s = Some (OK, s', []) /\
        first_with_id capture_id (camera_tracker_ s')
        = Some (set_output_results (output_results c ++ [b]) c) /\
        tracked_settings_ (camera_tracker_ s')
        = tracked_settings_ (camera_tracker_ s))).
Proof.
  unfold first_with_id, processCaptureResult, saveOutputBuffer,
    isCaptureCompleted.
  rewrite CaptureResultFacts.saveOutputBuffer_list_update.
  split.
  - intros Hn. rewrite Hn.
    rewrite CaptureResultFacts.update_first_missing by exact Hn.
    rewrite CaptureQueueFacts.set_capture_list_same, set_tracker_same.
    reflexivity.
  - intros c Hc. cbv zeta. rewrite Hc.
    cbn [Z.leb Z.compare capture_list_ set_capture_list].
    rewrite CameraTrackerFacts.isCaptureCompleted_list_find.
    rewrite CaptureResultFacts.find_update_first by reflexivity.
    rewrite Hc. cbn [fmap option_fmap option_map output_buffers input_buffer set_output_results].
    assert (Hset : forall l tr,
               getCaptureSettings capture_id 0 (set_capture_list l tr)
               = getCaptureSettings capture_id 0 tr) by reflexivity.
    split.
    + intros [Hq Hin]. rewrite Hq, Hin.
      cbn [length Z.of_nat Z.eqb andb Z.ltb Z.compare].
      rewrite Hset.
      unfold popInputResult, popOutputResults, untrackCapture.
      cbn [capture_list_ set_capture_list fst snd].
      rewrite CaptureResultFacts.popInputResult_list_update.
      rewrite CaptureResultFacts.find_update_first by reflexivity.
      rewrite Hc.
      cbn [fmap option_fmap option_map input_result set_output_results
           capture_list_ set_capture_list fst snd].
      rewrite CaptureResultFacts.popOutputResults_list_update.
      rewrite !CaptureResultFacts.find_update_first by reflexivity.
      rewrite Hc.
      cbn [fmap option_fmap option_map output_results set_output_results
           set_input_result capture_list_ set_capture_list fst snd
           tracked_streams_ tracked_settings_].
      split.
      * intros metadata count Hlook.
        unfold getCaptureSettings. rewrite Hlook.
        cbn [settings partial_count].
        eexists. split; [reflexivity|].
        cbn [camera_tracker_ set_tracker capture_list_ tracked_settings_
             tracked_streams_].
        rewrite !untrackCapture_list_update_first by reflexivity.
        split; [reflexivity|]. split; [apply lookup_delete_eq|reflexivity].
      * intros Hnull.
        destruct (getCaptureSettings capture_id 0 (camera_tracker_ s))
          as [settings0 partial0].
        cbn [fst] in Hnull. rewrite Hnull. reflexivity.
    + intros Hnot.
      assert (E : (Z.of_nat (length (output_buffers c)) =? 0)
                  && (streamId (input_buffer c) =? -1) = false).
      { apply andb_false_iff.
        destruct (output_buffers c) as [|b0 q] eqn:Hq.
        - right. apply Z.eqb_neq. intros Hin. apply Hnot. split; auto.
        - left. apply Z.eqb_neq. simpl. lia. }
      rewrite E. cbn [Z.ltb Z.compare].
      eexists. split; [reflexivity|].
      cbn [camera_tracker_ set_tracker capture_list_ set_capture_list
           tracked_settings_].
      rewrite CaptureResultFacts.find_update_first by reflexivity.
      rewrite Hc. split; reflexivity.
Qed.

Local Abbreviation step :=
  (flush_step processCaptureResultMetadata sensor_timestamp join_capture_thread).
Local Abbreviation loop :=
  (flush_loop processCaptureResultMetadata sensor_timestamp join_capture_thread).

Lemma flush_step_answers (s : Session Driver) c rest b q metadata count :
  capture_list_ (camera_tracker_ s) = c :: rest ->
  output_buffers c = b :: q ->
  streamId (input_buffer c) = -1 ->
  0 <= id c < MachineInt.two31 ->
  tracked_settings_ (camera_tracker_ s) !! id c
  = Some (mkTrackedSettings (Some metadata) count) ->
  exists s' log,
    step s = Returns (s', log) /\
    count_shutters log = match q with [] => 1%nat | _ :: _ => 0%nat end /\
    count_capture_results log
    = match q with [] => 1%nat | _ :: _ => 0%nat end.
Proof.
  intros Hl Hq Hin Hid Hset.
  assert (Hi : MachineInt.to_int32 (id c) = id c)
    by (apply MachineIntFacts.to_int32_small; exact Hid).
  assert (Hu : MachineInt.to_uint32 (id c) = id c).
  { apply MachineIntFacts.to_uint32_small.
    unfold MachineInt.is_uint32, MachineInt.two32, MachineInt.two31 in *. lia. }
  assert (Hge : (0 <=? id c) = true) by (apply Z.leb_le; lia).
  unfold flush_step, popNextOutputBuffer.
  rewrite Hl. simpl popNextOutputBuffer_list. rewrite Hq, Hi, Hge, Hu.
  unfold processCaptureBufferError, processCaptureResult, saveOutputBuffer,
    isCaptureCompleted.
  tracker_steps. rewrite Hin, Z.eqb_refl.
  destruct q as [|b2 q'].
  - cbn [length Z.of_nat Z.eqb andb Z.ltb Z.leb Z.compare].
    unfold getCaptureSettings. tracker_steps. rewrite Hset.
    cbn [settings partial_count].
    unfold popInputResult, popOutputResults, untrackCapture.
    tracker_steps. eexists _, _. split; [reflexivity|]. split; reflexivity.
  - replace (Z.of_nat (length (b2 :: q')) =? 0) with false
      by (symmetry; apply Z.eqb_neq; simpl; lia).
    cbn [andb Z.ltb Z.leb Z.compare].
    eexists _, _. split; [reflexivity|]. split; reflexivity.
Qed.

Lemma count_shutters_app l1 l2 :
  count_shutters (l1 ++ l2) = (count_shutters l1 + count_shutters l2)%nat.
Proof. unfold count_shutters. rewrite filter_app, length_app. reflexivity. Qed.

Lemma count_capture_results_app l1 l2 :
  count_capture_results (l1 ++ l2)
  = (count_capture_results l1 + count_capture_results l2)%nat.
Proof.
  unfold count_capture_results. rewrite filter_app, length_app. reflexivity.
Qed.

Lemma flush_loop_answers :
  forall (n : nat) (s : Session Driver) (log : list Event) (fuel : nat),
    Forall awaiting_output (capture_list_ (camera_tracker_ s)) ->
    NoDup (map id (capture_list_ (camera_tracker_ s))) ->
    Forall (has_settings (camera_tracker_ s))
           (capture_list_ (camera_tracker_ s)) ->
    pending_outputs (capture_list_ (camera_tracker_ s)) = n ->
    (n <= fuel)%nat ->
    exists s' log',
      loop fuel s log = Some (Returns (s', log ++ log')) /\
      count_shutters log' = length (capture_list_ (camera_tracker_ s)) /\
      count_capture_results log'
      = length (capture_list_ (camera_tracker_ s)) /\
      init_fail_ s' = init_fail_ s /\ disconnected_ s' = disconnected_ s /\
      closed_ s' = closed_ s /\ driver_ s' = driver_ s.
Proof.
  induction n as [|n IH]; intros s log fuel Hall Hnd Hset Hn Hfuel.
  - destruct (capture_list_ (camera_tracker_ s)) as [|c rest] eqn:Hl.
    + exists s, []. rewrite app_nil_r.
      split; [|repeat split; auto].
      destruct fuel; simpl;
        rewrite (proj2 (hasActiveCapture_nil _) Hl); reflexivity.
    + exfalso. apply Forall_cons in Hall as [(Hne & _) _].
      rewrite pending_outputs_cons in Hn.
      destruct (output_buffers c); [contradiction|discriminate].
  - destruct (capture_list_ (camera_tracker_ s)) as [|c rest] eqn:Hl;
      [discriminate|].
    pose proof Hall as Hall0. pose proof Hset as Hset0.
    apply Forall_cons in Hall as [(Hne & Hin & Hid) Hrest].
    apply Forall_cons in Hset as [(metadata & count & Hc) _].
    destruct (output_buffers c) as [|b q] eqn:Hq; [contradiction|].
    rewrite pending_outputs_cons, Hq in Hn. simpl in Hn.
    destruct fuel as [|fuel]; [lia|].
    destruct (flush_step_head processCaptureResultMetadata sensor_timestamp
                join_capture_thread
                s c rest b q metadata count Hl Hq Hin Hid Hc)
      as (s1 & log1 & Hstep & _ & Hf1 & Hf2 & Hf3 & _ & Hf5 & Hlist).
    destruct (flush_step_answers s c rest b q metadata count Hl Hq Hin Hid Hc)
      as (s1' & log1' & Hstep' & Hsh & Hres).
    rewrite Hstep in Hstep'. injection Hstep' as <- <-.
    assert (Hact : hasActiveCapture (camera_tracker_ s) = true).
    { unfold hasActiveCapture. rewrite Hl. reflexivity. }
    destruct (flushable_after_step _ _ c rest q Hall0 Hnd Hset0 Hlist)
      as (Hall1 & Hnd1 & Hset1 & Hlen & Hn1).
    destruct (IH s1 (log ++ log1) fuel Hall1 Hnd1 Hset1 ltac:(lia) ltac:(lia))
      as (s' & log' & Hloop & Hc1 & Hc2 & Hg1 & Hg2 & Hg3 & Hg5).
    exists s', (log1 ++ log').
    split.
    + simpl. rewrite Hact, Hstep, Hloop, app_assoc. reflexivity.
    + rewrite count_shutters_app, count_capture_results_app, Hsh, Hres, Hc1, Hc2.
      cbn [length].
      repeat split; try congruence; lia.
Qed.


End Session.


End SessionResultFacts.

(* --------------------------------------------------------------------- *)
(*  CameraDeviceSession: stream configuration                             *)
(* --------------------------------------------------------------------- *)

Module SessionConfigurationFacts.
Import MachineInt Hidl CameraTracker CameraDeviceSession
       CameraDeviceSessionMore FormatSearch.

Lemma count_streams_of_type_cons ty st l :
  count_streams_of_type ty (st :: l)
  = Nat.add (if StreamType_eqb (streamType st) ty then 1%nat else 0%nat)
            (count_streams_of_type ty l).
Proof.
  unfold count_streams_of_type. rewrite filter_cons.
  destruct (StreamType_eqb (streamType st) ty) eqn:E.
  - rewrite decide_True by reflexivity. reflexivity.
  - rewrite decide_False by discriminate. reflexivity.
Qed.

Lemma count_streams_spec l :
  forall input output input' output',
    0 <= input -> 0 <= output ->
    input + Z.of_nat (length l) < two32 ->
    output + Z.of_nat (length l) < two32 ->
    count_streams l input output = Some (input', output') ->
    input' = input + Z.of_nat (count_streams_of_type INPUT l) /\
    output' = output + Z.of_nat (count_streams_of_type OUTPUT l) /\
    Forall (fun st => rotation st <= ROTATION_0) l.
Proof.
  induction l as [|st rest IH]; intros input output input' output' Hi Ho Hbi Hbo.
  - simpl. intros [= <- <-]. unfold count_streams_of_type. simpl.
    split; [lia|]. split; [lia|constructor].
  - cbn [count_streams]. cbn [length] in Hbi, Hbo.
    destruct (Z.ltb_spec ROTATION_0 (rotation st)) as [Hr|Hr]; [discriminate|].
    rewrite !count_streams_of_type_cons.
    destruct (streamType st); cbn [StreamType_eqb]; intros H.
    + rewrite MachineIntFacts.to_uint32_small in H
        by (unfold is_uint32; lia).
      apply IH in H; try lia. destruct H as (-> & -> & Hall).
      split; [lia|]. split; [lia|]. constructor; assumption.
    + rewrite MachineIntFacts.to_uint32_small in H
        by (unfold is_uint32; lia).
      apply IH in H; try lia. destruct H as (-> & -> & Hall).
      split; [lia|]. split; [lia|]. constructor; assumption.
Qed.

Lemma check_existing_streams_spec l tr :
  check_existing_streams l tr = OK ->
  Forall (fun st =>
            Stream_eqb (getStream (stream_id st) tr) InvalidStream = false ->
            same_stream_properties (getStream (stream_id st) tr) st) l.
Proof.
  induction l as [|st rest IH]; [constructor|].
  cbn [check_existing_streams].
  destruct (Stream_eqb (getStream (stream_id st) tr) InvalidStream) eqn:E.
  - intros H. constructor; [intros H'; congruence|]. apply IH. exact H.
  - destruct (negb _ || _ || _ || _ || _) eqn:Ecmp; [discriminate|].
    intros H. constructor; [|apply IH; exact H].
    intros _. repeat (apply orb_false_iff in Ecmp as [Ecmp ?]).
    repeat match goal with
           | H : negb _ = false |- _ => apply negb_false_iff in H
           | H : (_ =? _) = true |- _ => apply Z.eqb_eq in H
           end.
    unfold same_stream_properties. repeat split; try assumption.
    destruct (streamType (getStream (stream_id st) tr)), (streamType st);
      simpl in Ecmp; congruence.
Qed.

Section Session.

Context {Driver : Type}.

(** X15: configureStreamsVerification accepts a configuration only when the
    session is in the OK state with no capture in flight, the
    configuration names at least one stream, no stream asks for a
    rotation, there is at most one input stream and at least one output
    stream, and every requested stream whose id is already tracked keeps
    the tracked type, width, height, format and data space (fewer than
    2^32 streams, so that the two counters do not wrap). *)
Theorem configureStreamsVerification_accepts_only_valid
    (requested_configuration : StreamConfiguration) (s : Session Driver) :
  Z.of_nat (length (streams requested_configuration)) < two32 ->
  configureStreamsVerification requested_configuration s = OK ->
  initStatus s = OK /\
  capture_list_ (camera_tracker_ s) = [] /\
  streams requested_configuration <> [] /\
  Forall (fun st => rotation st <= ROTATION_0)
         (streams requested_configuration) /\
  (count_streams_of_type INPUT (streams requested_configuration) <= 1)%nat /\
  (1 <= count_streams_of_type OUTPUT (streams requested_configuration))%nat /\
  Forall (fun st =>
            Stream_eqb (getStream (stream_id st) (camera_tracker_ s))
                       InvalidStream = false ->
            same_stream_properties
              (getStream (stream_id st) (camera_tracker_ s)) st)
         (streams requested_configuration).
Proof.
  intros Hlen. unfold configureStreamsVerification.
  destruct (hasActiveCapture (camera_tracker_ s)) eqn:Hact; [discriminate|].
  apply CameraDeviceSessionFacts.hasActiveCapture_nil in Hact.
  destruct (initStatus s) eqn:Hst; cbn [Status_eqb negb]; try discriminate.
  destruct (Z.eqb_spec (Z.of_nat (length (streams requested_configuration))) 0)
    as [E|E]; [discriminate|].
  destruct (count_streams (streams requested_configuration) 0 0)
    as [[input output]|] eqn:Hcount; [|discriminate].
  apply count_streams_spec in Hcount; try lia.
  destruct Hcount as (-> & -> & Hrot).
  destruct ((1 <? _) || (_ <? 1)) eqn:Hio; [discriminate|].
  apply orb_false_iff in Hio as [Hin Hout].
  apply Z.ltb_ge in Hin, Hout.
  intros Hcheck. apply check_existing_streams_spec in Hcheck.
  split; [reflexivity|]. split; [exact Hact|].
  split; [intros Hnil; rewrite Hnil in E; apply E; reflexivity|].
  split; [exact Hrot|]. split; [lia|]. split; [lia|]. exact Hcheck.
Qed.

End Session.

Lemma configureStreamsVerification_accepts_only_valid_witness :
  initStatus (Samples.session_of empty) = OK /\
  (1 <= count_streams_of_type OUTPUT (streams Samples.one_output_stream))%nat.
Proof.
  destruct (configureStreamsVerification_accepts_only_valid
              Samples.one_output_stream (Samples.session_of empty))
    as (H1 & _ & _ & _ & _ & H2 & _).
  - vm_compute. reflexivity.
  - vm_compute. reflexivity.
  - split; [exact H1|exact H2].
Defined.

Section Formats.

Context (implem_defined_format_ : Z).
Context (supported_formats_ qualified_formats_ : list StreamFormat.t).

Local Abbreviation v4l2_of :=
  (fun st => PixelFormatConversion.HalToV4L2PixelFormat
               (stream_format st) implem_defined_format_).

Lemma findBestFitFormat_loop_spec l :
  forall format width height formats,
    format ∈ formats ->
    exists format',
      findBestFitFormat_loop implem_defined_format_ l format width height
                             formats
      = (format',
         fold_left Z.max (map stream_width l) width,
         fold_left Z.max (map stream_height l) height,
         formats ∪ list_to_set (map v4l2_of l)) /\
      format' ∈ formats ∪ list_to_set (map v4l2_of l).
Proof.
  induction l as [|st rest IH]; intros format width height formats Hin.
  - exists format. cbn [findBestFitFormat_loop map fold_left list_to_set].
    rewrite (right_id_L ∅ (∪)). split; [reflexivity|exact Hin].
  - cbn [findBestFitFormat_loop map fold_left list_to_set].
    destruct (IH (v4l2_of st)
                 (if width <? stream_width st then stream_width st else width)
                 (if height <? stream_height st then stream_height st
                  else height)
                 ({[v4l2_of st]} ∪ formats)) as (format' & Heq & Hin').
    { apply elem_of_union_l, elem_of_singleton. reflexivity. }
    assert (Hset : {[v4l2_of st]} ∪ formats ∪ list_to_set (map v4l2_of rest)
                   = formats ∪ ({[v4l2_of st]} ∪ list_to_set (map v4l2_of rest))).
    { rewrite (assoc_L (∪) formats), (comm_L (∪) formats). reflexivity. }
    rewrite Hset in Heq, Hin'.
    exists format'. rewrite Heq. split; [|exact Hin'].
    replace (if width <? stream_width st then stream_width st else width)
      with (Z.max width (stream_width st))
      by (destruct (Z.ltb_spec width (stream_width st)); lia).
    replace (if height <? stream_height st then stream_height st else height)
      with (Z.max height (stream_height st))
      by (destruct (Z.ltb_spec height (stream_height st)); lia).
    reflexivity.
Qed.

(** X16: on a configuration with at least one stream findBestFitFormat
    always returns, with ILLEGAL_ARGUMENT and no format written, or with OK
    and a format whose width and height are the largest width and the
    largest height over the requested streams (taken separately).  The
    format is then either an entry of the driver's supported formats whose
    pixel format is the V4L2 format of every requested stream, or an entry
    of the qualified formats, in which case every requested format can be
    converted from YU12. *)
Theorem findBestFitFormat_spec
    (requested_configuration : StreamConfiguration)
    (first : Stream) (rest : list Stream) :
  streams requested_configuration = first :: rest ->
  exists status written,
    findBestFitFormat implem_defined_format_ supported_formats_
                      qualified_formats_ requested_configuration
    = Some (status, written) /\
    ((status = ILLEGAL_ARGUMENT /\ written = None) \/
     (status = OK /\
      exists f,
        written = Some f /\
        StreamFormat.width_ f = largest stream_width first rest /\
        StreamFormat.height_ f = largest stream_height first rest /\
        ((f ∈ supported_formats_ /\
          forall st, st ∈ first :: rest ->
                     v4l2_of st = StreamFormat.v4l2_pixel_format_ f) \/
         (f ∈ qualified_formats_ /\
          forall st, st ∈ first :: rest ->
                     ImageProcessorFormats.SupportsConversion
                       FourCC.V4L2_PIX_FMT_YUV420 (v4l2_of st) = true)))).
Proof.
  intros Hs. unfold findBestFitFormat. rewrite Hs.
  destruct (findBestFitFormat_loop_spec rest (v4l2_of first)
              (stream_width first) (stream_height first) {[v4l2_of first]})
    as (format & -> & Hformat); [apply elem_of_singleton; reflexivity|].
  fold (largest stream_width first rest) (largest stream_height first rest).
  set (formats := {[v4l2_of first]} ∪ list_to_set (map v4l2_of rest)) in *.
  set (width := largest stream_width first rest).
  set (height := largest stream_height first rest).
  assert (Hall : forall st, st ∈ first :: rest -> v4l2_of st ∈ formats).
  { intros st Hst. apply elem_of_cons in Hst as [-> | Hst];
      [apply elem_of_union_l, elem_of_singleton; reflexivity|].
    apply elem_of_union_r, elem_of_list_to_set, list_elem_of_fmap.
    exists st. split; [reflexivity|exact Hst]. }
  cbv zeta.
  match goal with
  | |- context [if negb (forallb ?p ?l) then ?a else ?b] =>
      set (conv := if negb (forallb p l) then a else b)
  end.
  assert (Hconv :
            conv = Some (ILLEGAL_ARGUMENT, None) \/
            exists f,
              conv = Some (OK, Some f) /\
              StreamFormat.width_ f = width /\
              StreamFormat.height_ f = height /\
              f ∈ qualified_formats_ /\
              forall st, st ∈ first :: rest ->
                         ImageProcessorFormats.SupportsConversion
                           FourCC.V4L2_PIX_FMT_YUV420 (v4l2_of st) = true).
  { unfold conv.
    destruct (forallb _ (elements formats)) eqn:Hfa; cbn [negb]; [|left; reflexivity].
    pose proof (FormatSearchFacts.FindFormatByResolution_from_spec
                  qualified_formats_ width height 0 ltac:(lia)) as Hfind.
    cbv zeta in Hfind. fold (StreamFormat.FindFormatByResolution
                               qualified_formats_ width height) in Hfind.
    destruct Hfind as [[-> _]|(Hr & (f & Hf & Hw & Hh) & _)].
    - left. reflexivity.
    - right. rewrite Z.sub_0_r in Hf.
      replace (0 <=? _) with true by (symmetry; apply Z.leb_le; lia).
      rewrite Hf. exists f. split; [reflexivity|].
      split; [exact Hw|]. split; [exact Hh|].
      split; [eapply list_elem_of_lookup_2; exact Hf|].
      intros st Hst. rewrite forallb_forall in Hfa. apply Hfa.
      apply list_elem_of_In, elem_of_elements, Hall, Hst. }
  clearbody conv.
  destruct (size formats =? 1)%nat eqn:Hsize; cbn [andb].
  - pose proof (FormatSearchFacts.FindMatchingFormat_from_spec
                  supported_formats_ format width height 0 ltac:(lia)) as Hfind.
    cbv zeta in Hfind. fold (StreamFormat.FindMatchingFormat
                               supported_formats_ format width height) in Hfind.
    destruct Hfind as [[-> _]|(Hr & (f & Hf & Hp & Hw & Hh) & _)].
    + cbn [Z.leb Z.compare].
      destruct Hconv as [-> | (f & -> & Hw & Hh & Hq & Hc)].
      * eexists _, _. split; [reflexivity|]. left. split; reflexivity.
      * eexists _, _. split; [reflexivity|]. right. split; [reflexivity|].
        exists f. split; [reflexivity|]. split; [exact Hw|].
        split; [exact Hh|]. right. split; assumption.
    + rewrite Z.sub_0_r in Hf.
      replace (0 <=? _) with true by (symmetry; apply Z.leb_le; lia).
      rewrite Hf. eexists _, _. split; [reflexivity|]. right.
      split; [reflexivity|]. exists f. split; [reflexivity|].
      split; [exact Hw|]. split; [exact Hh|]. left.
      split; [eapply list_elem_of_lookup_2; exact Hf|].
      intros st Hst. rewrite Hp.
      apply Nat.eqb_eq, size_1_elem_of in Hsize as [x Hx].
      apply Hall in Hst. rewrite Hx in Hst, Hformat.
      apply elem_of_singleton in Hst, Hformat. congruence.
  - destruct Hconv as [-> | (f & -> & Hw & Hh & Hq & Hc)].
    + eexists _, _. split; [reflexivity|]. left. split; reflexivity.
    + eexists _, _. split; [reflexivity|]. right. split; [reflexivity|].
      exists f. split; [reflexivity|]. split; [exact Hw|].
      split; [exact Hh|]. right. split; assumption.
Qed.

End Formats.

Lemma findBestFitFormat_spec_witness :
  exists status written,
    findBestFitFormat 0 one_supported_format [] vga_yuyv_request
    = Some (status, written) /\
    ((status = ILLEGAL_ARGUMENT /\ written = None) \/
     (status = OK /\
      exists f,
        written = Some f /\
        StreamFormat.width_ f = 640 /\
        StreamFormat.height_ f = 480 /\
        ((f ∈ one_supported_format /\
          forall st, st ∈ streams vga_yuyv_request ->
                     PixelFormatConversion.HalToV4L2PixelFormat
                       (stream_format st) 0
                     = StreamFormat.v4l2_pixel_format_ f) \/
         (f ∈ [] /\
          forall st, st ∈ streams vga_yuyv_request ->
                     ImageProcessorFormats.SupportsConversion
                       FourCC.V4L2_PIX_FMT_YUV420
                       (PixelFormatConversion.HalToV4L2PixelFormat
                          (stream_format st) 0) = true)))).
Proof.
  apply (findBestFitFormat_spec
           0 one_supported_format [] vga_yuyv_request
           (mkStream 0 OUTPUT 640 480 PixelFormat.YCBCR_422_I 0 0 ROTATION_0)
           []).
  reflexivity.
Defined.

End SessionConfigurationFacts.

Module ConfigureStreamResultFacts.
Import MachineInt Hidl CameraTracker CameraTrackerMore CameraDeviceSession
       CameraDeviceSessionMore.

Section Formats.

Context (implem_defined_format_ : Z).

Local Abbreviation hal_of := (hal_stream_of implem_defined_format_).
Local Abbreviation tracked_of := (tracked_stream_of implem_defined_format_).
Local Abbreviation loop := (configureStreamResult_loop implem_defined_format_).

Lemma V4L2ToHalPixelFormat_not_implementation_defined v :
  PixelFormatConversion.V4L2ToHalPixelFormat v <> IMPLEMENTATION_DEFINED.
Proof.
  unfold PixelFormatConversion.V4L2ToHalPixelFormat.
  repeat match goal with
         | |- context [v =? ?c] => destruct (v =? c); [discriminate|]
         end.
  discriminate.
Qed.

Lemma hal_stream_of_spec st :
  hal_id (hal_of st) = stream_id st /\
  maxBuffers (hal_of st) = MAX_BUFFER_NUMBER /\
  overrideFormat (hal_of st) <> IMPLEMENTATION_DEFINED /\
  (stream_format st <> IMPLEMENTATION_DEFINED ->
   overrideFormat (hal_of st) = stream_format st) /\
  match streamType st with
  | OUTPUT => consumerUsage (hal_of st) = 0 /\
              producerUsage (hal_of st) = BufferUsage.CPU_WRITE_OFTEN
  | INPUT => consumerUsage (hal_of st) = BufferUsage.CPU_READ_OFTEN /\
             producerUsage (hal_of st) = 0
  end.
Proof.
  unfold hal_stream_of. cbn [hal_id maxBuffers overrideFormat consumerUsage
                             producerUsage].
  split; [reflexivity|]. split; [reflexivity|]. split; [|split].
  - destruct (Z.eqb_spec (stream_format st) IMPLEMENTATION_DEFINED) as [E|E];
      [apply V4L2ToHalPixelFormat_not_implementation_defined|exact E].
  - intros Hne.
    destruct (Z.eqb_spec (stream_format st) IMPLEMENTATION_DEFINED) as [E|E];
      [contradiction|reflexivity].
  - destruct (streamType st); split; reflexivity.
Qed.

Lemma stream_id_tracked_stream_of st : stream_id (tracked_of st) = stream_id st.
Proof.
  unfold tracked_stream_of.
  destruct (stream_format st =? IMPLEMENTATION_DEFINED); reflexivity.
Qed.

Lemma configureStreamResult_loop_other l :
  forall tr sid,
    int32_range sid ->
    Forall (fun st => int32_range (stream_id st)) l ->
    sid ∉ map stream_id l ->
    getStream sid (snd (loop l tr)) = getStream sid tr.
Proof.
  induction l as [|st rest IH]; intros tr sid Hsid Hall Hnot; [reflexivity|].
  cbn [configureStreamResult_loop].
  destruct (loop rest (trackStream (tracked_of st) tr)) as [cfg tr2] eqn:E.
  cbn [snd]. apply Forall_cons in Hall as [Hst Hall].
  cbn [map] in Hnot. apply not_elem_of_cons in Hnot as [Hne Hnot].
  pose proof (IH (trackStream (tracked_of st) tr) sid Hsid Hall Hnot) as H.
  rewrite E in H. cbn [snd] in H. rewrite H.
  unfold getStream, trackStream. cbn [tracked_streams_].
  rewrite lookup_insert_ne; [reflexivity|].
  rewrite stream_id_tracked_stream_of. intros Heq. apply Hne. symmetry.
  apply TrackedStreamFacts.to_uint32_inj_int32; assumption.
Qed.

Lemma configureStreamResult_loop_tracked l :
  forall tr st,
    Forall (fun st => int32_range (stream_id st)) l ->
    NoDup (map stream_id l) ->
    st ∈ l ->
    getStream (stream_id st) (snd (loop l tr)) = tracked_of st.
Proof.
  induction l as [|st0 rest IH]; intros tr st Hall Hnd Hin.
  - apply elem_of_nil in Hin. contradiction.
  - cbn [configureStreamResult_loop].
    destruct (loop rest (trackStream (tracked_of st0) tr)) as [cfg tr2] eqn:E.
    cbn [snd]. apply Forall_cons in Hall as [Hst0 Hall].
    cbn [map] in Hnd. apply NoDup_cons in Hnd as [Hnot Hnd].
    apply elem_of_cons in Hin as [-> | Hin].
    + pose proof (configureStreamResult_loop_other
                    rest (trackStream (tracked_of st0) tr) (stream_id st0)
                    Hst0 Hall Hnot) as H.
      rewrite E in H. cbn [snd] in H. rewrite H.
      unfold getStream, trackStream. cbn [tracked_streams_].
      rewrite stream_id_tracked_stream_of, lookup_insert_eq. reflexivity.
    + pose proof (IH (trackStream (tracked_of st0) tr) st Hall Hnd Hin) as H.
      rewrite E in H. exact H.
Qed.

Lemma configureStreamResult_loop_configuration l :
  forall tr,
    fst (loop l tr) = map hal_of l /\
    capture_list_ (snd (loop l tr)) = capture_list_ tr /\
    tracked_settings_ (snd (loop l tr)) = tracked_settings_ tr.
Proof.
  induction l as [|st rest IH]; intros tr; [repeat split|].
  cbn [configureStreamResult_loop].
  destruct (IH (trackStream (tracked_of st) tr)) as (H1 & H2 & H3).
  destruct (loop rest (trackStream (tracked_of st) tr)) as [cfg tr2].
  cbn [fst snd map] in *. rewrite H1, H2, H3. repeat split.
Qed.

Section Result.

Context {Driver : Type}.

(** X17: configureStreamResult returns OK with one HalStream per requested
    stream, in order and with the stream's id: maxBuffers is 3, the
    override format is never IMPLEMENTATION_DEFINED (it is the requested
    format, or the HAL translation of the implementation-defined V4L2
    format), an output stream gets consumer usage 0 and producer usage
    CPU_WRITE_OFTEN and an input stream consumer usage CPU_READ_OFTEN and
    producer usage 0.  With distinct int32 stream ids the tracker then
    holds every requested stream with the override format and with the
    HAL usage bits added to its usage; streams with other ids and the
    tracked captures are untouched. *)
Theorem configureStreamResult_spec
    (requested_configuration : StreamConfiguration) (s : Session Driver) :
  Forall (fun st => int32_range (stream_id st))
         (streams requested_configuration) ->
  NoDup (map stream_id (streams requested_configuration)) ->
  exists configuration s',
    configureStreamResult implem_defined_format_ requested_configuration s
    = (OK, configuration, s') /\
    Forall2
      (fun st hal_stream =>
         hal_id hal_stream = stream_id st /\
         maxBuffers hal_stream = MAX_BUFFER_NUMBER /\
         overrideFormat hal_stream <> IMPLEMENTATION_DEFINED /\
         (stream_format st <> IMPLEMENTATION_DEFINED ->
          overrideFormat hal_stream = stream_format st) /\
         match streamType st with
         | OUTPUT => consumerUsage hal_stream = 0 /\
                     producerUsage hal_stream = BufferUsage.CPU_WRITE_OFTEN
         | INPUT => consumerUsage hal_stream = BufferUsage.CPU_READ_OFTEN /\
                    producerUsage hal_stream = 0
         end /\
         stream_format (getStream (stream_id st) (camera_tracker_ s'))
         = overrideFormat hal_stream /\
         usage (getStream (stream_id st) (camera_tracker_ s'))
         = Z.lor (usage st)
                 (Z.lor (consumerUsage hal_stream) (producerUsage hal_stream)))
      (streams requested_configuration) configuration /\
    capture_list_ (camera_tracker_ s') = capture_list_ (camera_tracker_ s) /\
    (forall sid,
       int32_range sid ->
       sid ∉ map stream_id (streams requested_configuration) ->
       getStream sid (camera_tracker_ s') = getStream sid (camera_tracker_ s)).
Proof.
  intros Hall Hnd. unfold configureStreamResult.
  destruct (configureStreamResult_loop_configuration
              (streams requested_configuration) (camera_tracker_ s))
    as (Hcfg & Hcap & _).
  pose proof (configureStreamResult_loop_tracked
                (streams requested_configuration) (camera_tracker_ s))
    as Htracked.
  pose proof (configureStreamResult_loop_other
                (streams requested_configuration) (camera_tracker_ s))
    as Hother.
  destruct (loop (streams requested_configuration) (camera_tracker_ s))
    as [configuration tr] eqn:E.
  cbn [fst snd] in *. subst configuration.
  eexists _, _. split; [reflexivity|].
  cbn [camera_tracker_ set_tracker].
  split; [|split; [exact Hcap|]].
  - apply Forall2_fmap_r, Forall_Forall2_diag, Forall_forall.
    intros st Hst.
    destruct (hal_stream_of_spec st) as (H1 & H2 & H3 & H4 & H5).
    repeat (split; [assumption|]).
    rewrite (Htracked st Hall Hnd Hst). unfold tracked_stream_of.
    destruct (stream_format st =? IMPLEMENTATION_DEFINED) eqn:Ef.
    + split; reflexivity.
    + split; [|reflexivity]. cbn [set_stream_usage stream_format].
      unfold hal_stream_of. cbn [overrideFormat]. rewrite Ef. reflexivity.
  - intros sid Hsid Hnot. apply Hother; assumption.
Qed.

End Result.

End Formats.

Lemma configureStreamResult_spec_witness :
  exists configuration s',
    configureStreamResult FourCC.V4L2_PIX_FMT_YUYV Samples.one_output_stream
                          (Samples.session_of empty)
    = (OK, configuration, s') /\
    Forall2
      (fun st hal_stream =>
         hal_id hal_stream = stream_id st /\
         maxBuffers hal_stream = MAX_BUFFER_NUMBER /\
         overrideFormat hal_stream <> IMPLEMENTATION_DEFINED /\
         (stream_format st <> IMPLEMENTATION_DEFINED ->
          overrideFormat hal_stream = stream_format st) /\
         match streamType st with
         | OUTPUT => consumerUsage hal_stream = 0 /\
                     producerUsage hal_stream = BufferUsage.CPU_WRITE_OFTEN
         | INPUT => consumerUsage hal_stream = BufferUsage.CPU_READ_OFTEN /\
                    producerUsage hal_stream = 0
         end /\
         stream_format (getStream (stream_id st) (camera_tracker_ s'))
         = overrideFormat hal_stream /\
         usage (getStream (stream_id st) (camera_tracker_ s'))
         = Z.lor (usage st)
                 (Z.lor (consumerUsage hal_stream) (producerUsage hal_stream)))
      (streams Samples.one_output_stream) configuration /\
    capture_list_ (camera_tracker_ s')
    = capture_list_ (camera_tracker_ (Samples.session_of empty)) /\
    (forall sid,
       int32_range sid ->
       sid ∉ map stream_id (streams Samples.one_output_stream) ->
       getStream sid (camera_tracker_ s')
       = getStream sid (camera_tracker_ (Samples.session_of empty))).
Proof.
  apply (configureStreamResult_spec
           FourCC.V4L2_PIX_FMT_YUYV Samples.one_output_stream
           (Samples.session_of empty)).
  - repeat constructor; vm_compute; discriminate.
  - repeat constructor. intros H. apply elem_of_nil in H. exact H.
Defined.

End ConfigureStreamResultFacts.

(* --------------------------------------------------------------------- *)
(*  CameraDeviceSession: capture requests                                 *)
(* --------------------------------------------------------------------- *)

Module SessionRequestFacts.
Import MachineInt Hidl CameraTracker CameraTrackerMore CameraDeviceSession
       CameraDeviceSessionMore.

Section Requests.

Context {Driver : Type}.
Context (join_capture_thread :
           Session Driver -> Outcome Driver (Session Driver * list Event)).
Context (unassigned_fmqResultSize : Z) (unassigned_status : BufferStatus).
Context (StreamOn : Driver -> Z * Driver).
Context (EnqueueRequest : Z -> Driver -> Z * Driver).
Context (v4l2_buffers_size : Driver -> nat).

Local Abbreviation request_error :=
  (processCaptureRequestError join_capture_thread unassigned_fmqResultSize
                              unassigned_status).
Local Abbreviation result_of :=
  (error_result unassigned_fmqResultSize unassigned_status).
Local Abbreviation verification :=
  (processCaptureRequestVerification join_capture_thread
                                     unassigned_fmqResultSize
                                     unassigned_status).
Local Abbreviation enqueue :=
  (processCaptureRequestEnqueue join_capture_thread unassigned_fmqResultSize
                                unassigned_status StreamOn EnqueueRequest
                                v4l2_buffers_size).

Lemma error_result_spec (request : CaptureRequest) :
  res_frameNumber (result_of request) = frameNumber request /\
  partialResult (result_of request) = 1 /\
  result_metadata (result_of request) = None /\
  Forall2 returned_in_error (outputBuffers request)
          (res_outputBuffers (result_of request)) /\
  (streamId (inputBuffer request) <> -1 ->
   returned_in_error (inputBuffer request)
                     (res_inputBuffer (result_of request))) /\
  (streamId (inputBuffer request) = -1 ->
   streamId (res_inputBuffer (result_of request)) = -1 /\
   bufferId (res_inputBuffer (result_of request)) = 0 /\
   buffer (res_inputBuffer (result_of request)) = None /\
   acquireFence (res_inputBuffer (result_of request)) = None).
Proof.
  unfold error_result. cbn [res_frameNumber partialResult result_metadata
                            res_outputBuffers res_inputBuffer].
  split; [reflexivity|]. split; [reflexivity|]. split; [reflexivity|].
  split; [|split].
  - apply Forall2_fmap_r, Forall_Forall2_diag, Forall_forall.
    intros b _. repeat split.
  - intros Hne. unfold error_input_buffer.
    destruct (Z.eqb_spec (streamId (inputBuffer request)) (-1)) as [E|E];
      [contradiction|]. repeat split.
  - intros E. unfold error_input_buffer. rewrite E. repeat split.
Qed.

(* What ERROR_DEVICE makes of a request, the status apart: the captures
   are dropped; a session that is not closed then waits in close() for
   the lock its thread holds; on a closed session the capture thread is
   joined. *)
Lemma request_error_device (status : Status) (request : CaptureRequest)
    (s : Session Driver) :
  returning status (request_error request ERROR_DEVICE s)
  = if closed_ s then
      match join_capture_thread
              (set_tracker (clearCaptures (camera_tracker_ s)) s) with
      | Returns (s2, log) =>
          Returns (status, s2,
                   Notify (MsgError (frameNumber request) (-1) ERROR_DEVICE)
                     :: log)
      | Undefined => Undefined
      | NeverReturns s2 log =>
          NeverReturns
            s2 (Notify (MsgError (frameNumber request) (-1) ERROR_DEVICE)
                  :: log)
      end
    else NeverReturns
           (set_tracker (clearCaptures (camera_tracker_ s)) s)
           [Notify (MsgError (frameNumber request) (-1) ERROR_DEVICE)].
Proof.
  unfold processCaptureRequestError, close.
  cbn [closed_ set_tracker].
  destruct (closed_ s); cbn [negb]; [|reflexivity].
  destruct (join_capture_thread _) as [[s2 log]| |s2 log]; reflexivity.
Qed.

(** X18: processCaptureRequestError first notifies the client of the
    error for the request's frame with stream id -1, and returns OK
    whenever it returns.  For ERROR_REQUEST it then hands back exactly
    one capture result (partial result 1, no metadata) that returns every
    output buffer of the request once, in order, in the error state with
    a null handle, no acquire fence and the request's acquire fence as
    release fence, and the input buffer likewise when the request has
    one; the session is unchanged.  For ERROR_RESULT and ERROR_BUFFER
    nothing but the notification is sent.  For ERROR_DEVICE the captures
    are dropped and close() is called under the lock of
    processOneCaptureRequest: on a session that is not closed the call
    never returns, the notification being all that was sent; on a closed
    session it goes on as the join of the capture thread does. *)
Theorem processCaptureRequestError_spec
    (request : CaptureRequest) (error : ErrorCode) (s : Session Driver) :
  let error_msg := Notify (MsgError (frameNumber request) (-1) error) in
  let s1 := set_tracker (clearCaptures (camera_tracker_ s)) s in
  (forall status s' log,
     request_error request error s = Returns (status, s', log) ->
     status = OK /\ exists rest, log = error_msg :: rest) /\
  (forall s' log,
     request_error request error s = NeverReturns s' log ->
     error = ERROR_DEVICE /\ exists rest, log = error_msg :: rest) /\
  (error = ERROR_REQUEST ->
   request_error request error s
   = Returns (OK, s, [error_msg; ProcessCaptureResult (result_of request)]) /\
   res_frameNumber (result_of request) = frameNumber request /\
   Forall2 returned_in_error (outputBuffers request)
           (res_outputBuffers (result_of request)) /\
   (streamId (inputBuffer request) <> -1 ->
    returned_in_error (inputBuffer request)
                      (res_inputBuffer (result_of request)))) /\
  (error = ERROR_RESULT \/ error = ERROR_BUFFER ->
   request_error request error s = Returns (OK, s, [error_msg])) /\
  (error = ERROR_DEVICE ->
   capture_list_ (camera_tracker_ s1) = [] /\
   (closed_ s = false ->
    request_error request error s = NeverReturns s1 [error_msg]) /\
   (closed_ s = true ->
    request_error request error s
    = match join_capture_thread s1 with
      | Returns (s2, log) => Returns (OK, s2, error_msg :: log)
      | Undefined => Undefined
      | NeverReturns s2 log => NeverReturns s2 (error_msg :: log)
      end)).
Proof.
  cbv zeta. unfold processCaptureRequestError, close.
  cbn [closed_ set_tracker].
  destruct (error_result_spec request) as (Hf & _ & _ & Hout & Hin & _).
  split; [|split; [|split; [|split]]].
  - intros status s' log.
    destruct error; try (intros [= <- _ <-]; split;
                         [reflexivity|eexists; reflexivity]).
    destruct (closed_ s); cbn [negb]; [|discriminate].
    destruct (join_capture_thread _) as [[s2 log2]| |s2 log2];
      try discriminate.
    intros [= <- _ <-]. split; [reflexivity|eexists; reflexivity].
  - intros s' log. destruct error; try discriminate.
    destruct (closed_ s); cbn [negb].
    + destruct (join_capture_thread _) as [[s2 log2]| |s2 log2];
        try discriminate.
      intros [= _ <-]. split; [reflexivity|eexists; reflexivity].
    + intros [= _ <-]. split; [reflexivity|eexists; reflexivity].
  - intros ->. split; [reflexivity|]. split; [exact Hf|].
    split; [exact Hout|exact Hin].
  - intros [-> | ->]; reflexivity.
  - intros ->. split; [reflexivity|].
    split; intros ->; reflexivity.
Qed.

(** X19: processCaptureRequestVerification lets a request through (status
    OK, nothing sent, session unchanged) exactly when the session is in
    the OK state, some settings are available (from the queue, the
    request or the previous request) and the request has at least one
    output buffer.  A request rejected on a session whose status is not
    INTERNAL_ERROR is answered with an ERROR_REQUEST notification for its
    frame followed by one result that returns all its buffers in error;
    the session is unchanged and the status returned is
    CAMERA_DISCONNECTED on a disconnected session and ILLEGAL_ARGUMENT
    otherwise.  On a session that had failed or was closed (status
    INTERNAL_ERROR) an ERROR_DEVICE notification is sent and the captures
    are dropped; when the session is not closed the call then never
    returns, close() waiting for the lock of processOneCaptureRequest;
    when it is closed the capture thread is joined and INTERNAL_ERROR is
    returned if the join returns. *)
Theorem processCaptureRequestVerification_spec
    (request : CaptureRequest)
    (fmqSettingsSize settings_size previous_settings_size : Z)
    (s : Session Driver) :
  let r := verification request fmqSettingsSize settings_size
                        previous_settings_size s in
  let accepted :=
    initStatus s = OK /\
    ~ (fmqSettingsSize = 0 /\ previous_settings_size = 0 /\ settings_size = 0) /\
    outputBuffers request <> [] in
  let s1 := set_tracker (clearCaptures (camera_tracker_ s)) s in
  let device_error :=
    Notify (MsgError (frameNumber request) (-1) ERROR_DEVICE) in
  ((exists s' log, r = Returns (OK, s', log)) <-> accepted) /\
  (accepted -> r = Returns (OK, s, [])) /\
  (initStatus s = INTERNAL_ERROR ->
   (closed_ s = false -> r = NeverReturns s1 [device_error]) /\
   (closed_ s = true ->
    r = match join_capture_thread s1 with
        | Returns (s2, log) => Returns (INTERNAL_ERROR, s2, device_error :: log)
        | Undefined => Undefined
        | NeverReturns s2 log => NeverReturns s2 (device_error :: log)
        end)) /\
  (~ accepted -> initStatus s <> INTERNAL_ERROR ->
   r = Returns (if Status_eqb (initStatus s) CAMERA_DISCONNECTED
                then CAMERA_DISCONNECTED else ILLEGAL_ARGUMENT,
                s,
                [Notify (MsgError (frameNumber request) (-1) ERROR_REQUEST);
                 ProcessCaptureResult (result_of request)])).
Proof.
  cbv zeta. unfold processCaptureRequestVerification.
  destruct (initStatus s) eqn:Hst; cbn [Status_eqb].
  - (* OK *)
    destruct ((fmqSettingsSize =? 0) && (previous_settings_size =? 0)
              && (settings_size =? 0)) eqn:Eset.
    + assert (Hs : fmqSettingsSize = 0 /\ previous_settings_size = 0 /\
                   settings_size = 0).
      { apply andb_true_iff in Eset as [E E3].
        apply andb_true_iff in E as [E1 E2].
        apply Z.eqb_eq in E1, E2, E3. auto. }
      cbn [processCaptureRequestError returning].
      split; [split; [intros (s' & log & H); discriminate H
                     |intros (_ & H & _); contradiction]|].
      split; [intros (_ & H & _); contradiction|].
      split; [discriminate|]. intros _ _. reflexivity.
    + assert (Hs : ~ (fmqSettingsSize = 0 /\ previous_settings_size = 0 /\
                      settings_size = 0)).
      { intros (-> & -> & ->). discriminate Eset. }
      destruct (outputBuffers request) as [|b q] eqn:Hq.
      * cbn [length Z.of_nat Z.ltb Z.compare processCaptureRequestError
             returning].
        split; [split; [intros (s' & log & H); discriminate H
                       |intros (_ & _ & H); contradiction]|].
        split; [intros (_ & _ & H); contradiction|].
        split; [discriminate|]. intros _ _. reflexivity.
      * replace (Z.of_nat (length (b :: q)) <? 1) with false
          by (symmetry; apply Z.ltb_ge; simpl; lia).
        split; [split; [intros _; split; [reflexivity|];
                        split; [exact Hs|discriminate]
                       |intros _; eexists _, _; reflexivity]|].
        split; [reflexivity|]. split; [discriminate|].
        intros Hna. exfalso. apply Hna. split; [reflexivity|].
        split; [exact Hs|discriminate].
  - exfalso. unfold initStatus in Hst.
    destruct (init_fail_ s), (disconnected_ s), (closed_ s); discriminate.
  - cbn [processCaptureRequestError returning].
    split; [split; [intros (s' & log & H); discriminate H
                   |intros (H & _); discriminate]|].
    split; [intros (H & _); discriminate|]. split; [discriminate|].
    intros _ _. reflexivity.
  - rewrite request_error_device.
    split; [split; [|intros (H & _); discriminate]|].
    { intros (s' & log & H). destruct (closed_ s); [|discriminate H].
      destruct (join_capture_thread _) as [[s2 log2]| |s2 log2];
        discriminate H. }
    split; [intros (H & _); discriminate|].
    split; [|intros _ H; contradiction].
    intros _. split; intros ->; reflexivity.
Qed.

(** X20: processCaptureRequestEnqueue starts streaming on first use (one
    StreamOn, then every driver buffer enqueued once) and leaves a started
    driver alone.  A request with a frame number below 2^31 is appended to
    the tracked captures with its settings stored under its frame number,
    and OK is returned with nothing sent.  A frame number of 2^31 or more
    is read back as a negative id: the request is answered with an
    ERROR_DEVICE notification and every tracked capture is dropped, the
    stream staying started; on a session that is not closed the call
    then never returns, close() waiting for the lock of
    processOneCaptureRequest; on a closed session the capture thread is
    joined and INTERNAL_ERROR is returned if the join returns. *)
Theorem processCaptureRequestEnqueue_spec
    (request : CaptureRequest) (request_settings : option Z) (s : Session Driver) :
  (0 <= frameNumber request < two31 ->
   exists s',
     enqueue request request_settings s = Returns (OK, s', []) /\
     capture_list_ (camera_tracker_ s')
     = capture_list_ (camera_tracker_ s) ++ [tracked_capture_of request] /\
     fst (getCaptureSettings (frameNumber request) 0 (camera_tracker_ s'))
     = request_settings /\
     started_ s' = true /\
     (started_ s = true -> driver_ s' = driver_ s) /\
     (started_ s = false ->
      driver_ s'
      = enqueue_all EnqueueRequest
                    (v4l2_buffers_size (snd (StreamOn (driver_ s)))) 0
                    (snd (StreamOn (driver_ s))))) /\
  (two31 <= frameNumber request < two32 ->
   let device_error :=
     Notify (MsgError (frameNumber request) (-1) ERROR_DEVICE) in
   exists s1,
     capture_list_ (camera_tracker_ s1) = [] /\
     tracked_settings_ (camera_tracker_ s1) = ∅ /\
     tracked_streams_ (camera_tracker_ s1)
     = tracked_streams_ (camera_tracker_ s) /\
     started_ s1 = true /\
     init_fail_ s1 = init_fail_ s /\ disconnected_ s1 = disconnected_ s /\
     closed_ s1 = closed_ s /\
     (started_ s = true -> driver_ s1 = driver_ s) /\
     (closed_ s = false ->
      enqueue request request_settings s = NeverReturns s1 [device_error]) /\
     (closed_ s = true ->
      enqueue request request_settings s
      = match join_capture_thread s1 with
        | Returns (s2, log) => Returns (INTERNAL_ERROR, s2, device_error :: log)
        | Undefined => Undefined
        | NeverReturns s2 log => NeverReturns s2 (device_error :: log)
        end)).
Proof.
  unfold processCaptureRequestEnqueue, trackCapture.
  split.
  - intros Hid.
    rewrite (MachineIntFacts.to_int32_small _ Hid).
    replace (frameNumber request <? 0) with false
      by (symmetry; apply Z.ltb_ge; lia).
    rewrite MachineIntFacts.to_uint32_small
      by (unfold is_uint32, two32, two31 in *; lia).
    unfold setCaptureSettings, getCaptureSettings.
    destruct (started_ s) eqn:Hstarted; cbn [negb camera_tracker_ set_tracker
      tracked_settings_ set_capture_list];
      destruct (tracked_settings_ (camera_tracker_ s) !! frameNumber request);
      (eexists; split; [reflexivity|]);
      cbn [camera_tracker_ set_tracker capture_list_ set_tracked_settings
           set_capture_list tracked_settings_ started_ driver_];
      rewrite lookup_insert_eq; cbn [fst settings];
      (split; [reflexivity|]); (split; [reflexivity|]);
      (split; [first [exact Hstarted | reflexivity]|]);
      (split; [intros H; first [reflexivity | discriminate H]
              |intros H; first [reflexivity | discriminate H]]).
  - intros Hid. cbv zeta.
    rewrite (MachineIntFacts.to_int32_large _ Hid).
    replace (frameNumber request - two32 <? 0) with true
      by (symmetry; apply Z.ltb_lt; lia).
    rewrite request_error_device.
    match goal with
    | |- context [NeverReturns ?x _] => exists x
    end.
    destruct (started_ s) eqn:E;
      cbn [negb started_ set_tracker closed_ init_fail_ disconnected_
           driver_ camera_tracker_ clearCaptures capture_list_
           tracked_settings_ tracked_streams_ set_capture_list];
      repeat (split; [first [reflexivity | exact E
                            | intros H; first [reflexivity | discriminate H]]|]);
      split; intros ->; reflexivity.
Qed.

End Requests.

Section Loop.

Context {Driver : Type}.
Context (processOneCaptureRequest :
           CaptureRequest -> Session Driver
           -> Status * Session Driver * list Event).

Local Abbreviation request_loop :=
  (processCaptureRequest_loop processOneCaptureRequest).

Lemma processCaptureRequest_loop_counts requests :
  forall res num s log,
    0 <= num ->
    num + Z.of_nat (length requests) < two32 ->
    num <= snd (fst (fst (request_loop requests res num s log)))
        <= num + Z.of_nat (length requests) /\
    (fst (fst (fst (request_loop requests res num s log))) = OK <->
     res = OK /\
     snd (fst (fst (request_loop requests res num s log)))
     = num + Z.of_nat (length requests)).
Proof.
  induction requests as [|request rest IH]; intros res num s log Hnum Hlen.
  - cbn [processCaptureRequest_loop fst snd length Z.of_nat].
    split; [lia|]. split; [intros ->; split; [reflexivity|lia]|tauto].
  - cbn [processCaptureRequest_loop]. cbn [length] in Hlen.
    destruct (processOneCaptureRequest request s) as [[st s1] log1].
    destruct (Status_eqb st OK) eqn:Est.
    + rewrite MachineIntFacts.to_uint32_small by (unfold is_uint32; lia).
      destruct (IH res (num + 1) s1 (log ++ log1) ltac:(lia) ltac:(lia))
        as [Hrange Hiff].
      split; [cbn [length]; lia|]. rewrite Hiff. cbn [length].
      split; intros [H1 H2]; (split; [exact H1|lia]).
    + destruct (IH st num s1 (log ++ log1) Hnum ltac:(lia)) as [Hrange Hiff].
      split; [cbn [length]; lia|]. rewrite Hiff. cbn [length].
      split.
      * intros [-> _]. discriminate Est.
      * intros [_ H]. lia.
Qed.

(** X21: what processCaptureRequest reports to the client for its batch
    (fewer than 2^32 requests): the number of processed requests lies
    between 0 and the number of requests, and the status is OK exactly
    when every request of the batch was processed; one failing request
    makes the whole call report an error even though the others were
    accepted and counted. *)
Theorem processCaptureRequest_reports_batch
    (requests : list CaptureRequest) (s : Session Driver) :
  Z.of_nat (length requests) < two32 ->
  0 <= snd (fst (fst (request_loop requests OK 0 s [])))
    <= Z.of_nat (length requests) /\
  (fst (fst (fst (request_loop requests OK 0 s []))) = OK <->
   snd (fst (fst (request_loop requests OK 0 s [])))
   = Z.of_nat (length requests)).
Proof.
  intros Hlen.
  destruct (processCaptureRequest_loop_counts requests OK 0 s []
              ltac:(lia) ltac:(lia)) as [Hrange Hiff].
  split; [lia|]. rewrite Hiff. rewrite Z.add_0_l. tauto.
Qed.

End Loop.

Lemma processCaptureRequestEnqueue_spec_witness :
  processCaptureRequestEnqueue
    Samples.join_returns 0 BUFFER_OK stream_on enqueue_nothing no_buffers
    late_request None (Samples.session_of Samples.two_in_flight)
  = NeverReturns
      (Samples.session_of empty)
      [Notify (MsgError (frameNumber late_request) (-1) ERROR_DEVICE)].
Proof.
  destruct (processCaptureRequestEnqueue_spec
              Samples.join_returns 0 BUFFER_OK stream_on enqueue_nothing
              no_buffers late_request None
              (Samples.session_of Samples.two_in_flight)) as [_ H].
  destruct H as (s1 & Hl & Hset & Hstr & Hst & Hi & Hd & Hc & Hdrv & Hnever & _).
  { vm_compute. split; [discriminate|reflexivity]. }
  rewrite (Hnever eq_refl). f_equal.
  destruct s1 as [[streams l sets] i d c st []].
  cbn in Hl, Hset, Hstr, Hst, Hi, Hd, Hc.
  subst. reflexivity.
Defined.

Lemma processCaptureRequest_reports_batch_witness :
  0 <= snd (fst (fst (processCaptureRequest_loop
                        accept_below_ten
                        [Samples.sample_request 1; Samples.sample_request 12]
                        OK 0 (Samples.session_of empty) [])))
    <= 2 /\
  (fst (fst (fst (processCaptureRequest_loop
                    accept_below_ten
                    [Samples.sample_request 1; Samples.sample_request 12]
                    OK 0 (Samples.session_of empty) []))) = OK <->
   snd (fst (fst (processCaptureRequest_loop
                    accept_below_ten
                    [Samples.sample_request 1; Samples.sample_request 12]
                    OK 0 (Samples.session_of empty) [])))
   = 2).
Proof.
  apply (processCaptureRequest_reports_batch
           accept_below_ten
           [Samples.sample_request 1; Samples.sample_request 12]
           (Samples.session_of empty)).
  vm_compute. reflexivity.
Defined.

End SessionRequestFacts.

Module BufferCacheFacts.
Import TrackedBuffers CameraDeviceSessionMore.

Lemma untrackBuffer_untracks stream_id buffer_id m :
  ~ is_tracked stream_id buffer_id (snd (untrackBuffer stream_id buffer_id m)).
Proof.
  unfold untrackBuffer, is_tracked, BufferMap in *.
  destruct (m !! stream_id) as [tracked|] eqn:Hs; cbn [snd].
  - destruct (tracked !! buffer_id) as [b|] eqn:Hb; cbn [snd].
    + intros (t & h & Ht & Hh). rewrite lookup_insert_eq in Ht.
      injection Ht as <-. rewrite lookup_delete_eq in Hh. discriminate.
    + intros (t & h & Ht & Hh). congruence.
  - intros (t & h & Ht & _). congruence.
Qed.

Lemma untrackBuffer_tracks_nothing_new stream_id buffer_id m stream_id' buffer_id' :
  is_tracked stream_id' buffer_id' (snd (untrackBuffer stream_id buffer_id m)) ->
  is_tracked stream_id' buffer_id' m.
Proof.
  unfold untrackBuffer, is_tracked, BufferMap in *.
  destruct (m !! stream_id) as [tracked|] eqn:Hs; cbn [snd]; [|auto].
  destruct (tracked !! buffer_id) as [b|] eqn:Hb; cbn [snd]; [|auto].
  intros (t & h & Ht & Hh).
  destruct (decide (stream_id' = stream_id)) as [-> | Hne].
  - rewrite lookup_insert_eq in Ht. injection Ht as <-.
    exists tracked, h. split; [exact Hs|].
    apply lookup_delete_Some in Hh as [_ Hh]. exact Hh.
  - rewrite lookup_insert_ne in Ht by (intros E; apply Hne; symmetry; exact E).
    exists t, h. auto.
Qed.

Lemma untrackBuffer_keeps_others stream_id buffer_id m stream_id' buffer_id' :
  (stream_id', buffer_id') <> (stream_id, buffer_id) ->
  getBuffer stream_id' buffer_id' (snd (untrackBuffer stream_id buffer_id m))
  = getBuffer stream_id' buffer_id' m.
Proof.
  intros Hne. unfold untrackBuffer, getBuffer, BufferMap in *.
  destruct (m !! stream_id) as [tracked|] eqn:Hs; cbn [snd]; [|reflexivity].
  destruct (tracked !! buffer_id) as [b|] eqn:Hb; cbn [snd]; [|reflexivity].
  destruct (decide (stream_id' = stream_id)) as [-> | Hd].
  - rewrite lookup_insert_eq, Hs.
    rewrite lookup_delete_ne by (intros ->; apply Hne; reflexivity).
    reflexivity.
  - rewrite lookup_insert_ne by (intros E; apply Hd; symmetry; exact E).
    reflexivity.
Qed.

Lemma untrackBuffer_keeps_streams stream_id buffer_id m stream_id' :
  is_Some (m !! stream_id') ->
  is_Some (snd (untrackBuffer stream_id buffer_id m) !! stream_id').
Proof.
  unfold untrackBuffer, BufferMap in *.
  destruct (m !! stream_id) as [tracked|] eqn:Hs; cbn [snd]; [|auto].
  destruct (tracked !! buffer_id) as [b|] eqn:Hb; cbn [snd]; [|auto].
  intros H. destruct (decide (stream_id' = stream_id)) as [-> | Hd].
  - rewrite lookup_insert_eq. eexists; reflexivity.
  - rewrite lookup_insert_ne by (intros E; apply Hd; symmetry; exact E).
    exact H.
Qed.

Lemma updateBufferCaches_step stream_id buffer_id rest m :
  exists freed_here,
    updateBufferCaches ((stream_id, buffer_id) :: rest) m
    = (freed_here
         ++ fst (updateBufferCaches
                   rest (snd (untrackBuffer stream_id buffer_id m))),
       snd (updateBufferCaches
              rest (snd (untrackBuffer stream_id buffer_id m)))) /\
    (length freed_here <= 1)%nat /\
    (~ is_tracked stream_id buffer_id m ->
     freed_here = [] /\ snd (untrackBuffer stream_id buffer_id m) = m).
Proof.
  cbn [updateBufferCaches]. unfold untrackBuffer, is_tracked, BufferMap in *.
  destruct (m !! stream_id) as [tracked|] eqn:Hs.
  - destruct (tracked !! buffer_id) as [b|] eqn:Hb; cbn [snd Z.ltb Z.compare].
    + destruct (updateBufferCaches rest _) as [freed m'].
      exists [b]. split; [reflexivity|]. split; [reflexivity|].
      intros Hnot. exfalso. apply Hnot. exists tracked, b. auto.
    + exists []. destruct (updateBufferCaches rest m) as [freed m'].
      split; [reflexivity|]. split; [simpl; lia|]. auto.
  - exists []. cbn [snd]. destruct (updateBufferCaches rest m) as [freed m'].
    split; [reflexivity|]. split; [simpl; lia|]. auto.
Qed.

(** X22: updateBufferCaches removes from the tracker every (stream, buffer
    id) pair it is given: afterwards none of them is tracked, while every
    pair that was not listed keeps its handle and no stream is forgotten.
    A handle is passed to freeBuffer only for a pair that was tracked, at
    most once per listed entry, so that an entry listed twice or never
    tracked is skipped rather than freed again. *)
Theorem updateBufferCaches_spec
    (caches_to_remove : list (Z * Z)) (m : gmap Z BufferMap) :
  (forall stream_id buffer_id,
     (stream_id, buffer_id) ∈ caches_to_remove ->
     ~ is_tracked stream_id buffer_id
                  (snd (updateBufferCaches caches_to_remove m))) /\
  (forall stream_id buffer_id,
     is_tracked stream_id buffer_id
                (snd (updateBufferCaches caches_to_remove m)) ->
     is_tracked stream_id buffer_id m) /\
  (forall stream_id buffer_id,
     (stream_id, buffer_id) ∉ caches_to_remove ->
     getBuffer stream_id buffer_id (snd (updateBufferCaches caches_to_remove m))
     = getBuffer stream_id buffer_id m) /\
  (forall stream_id,
     is_Some (m !! stream_id) ->
     is_Some (snd (updateBufferCaches caches_to_remove m) !! stream_id)) /\
  (length (fst (updateBufferCaches caches_to_remove m))
   <= length caches_to_remove)%nat /\
  ((forall stream_id buffer_id,
      (stream_id, buffer_id) ∈ caches_to_remove ->
      ~ is_tracked stream_id buffer_id m) ->
   updateBufferCaches caches_to_remove m = ([], m)).
Proof.
  revert m. induction caches_to_remove as [|[sid bid] rest IH]; intros m.
  - cbn [updateBufferCaches fst snd length].
    split; [intros ? ? H; apply elem_of_nil in H; contradiction|].
    split; [auto|]. split; [reflexivity|]. split; [auto|].
    split; [lia|reflexivity].
  - destruct (updateBufferCaches_step sid bid rest m)
      as (freed_here & Heq & Hlen & Hnone).
    destruct (IH (snd (untrackBuffer sid bid m)))
      as (H1 & Hmono & H2 & H3 & H4 & H5).
    rewrite Heq. cbn [fst snd].
    split; [|split; [|split; [|split; [|split]]]].
    + intros stream_id buffer_id Hin.
      destruct (decide ((stream_id, buffer_id) ∈ rest)) as [Hr|Hr];
        [apply H1; exact Hr|].
      apply elem_of_cons in Hin as [[= -> ->] | Hin]; [|contradiction].
      intros Ht. apply Hmono in Ht.
      exact (untrackBuffer_untracks sid bid m Ht).
    + intros stream_id buffer_id Ht. apply Hmono in Ht.
      exact (untrackBuffer_tracks_nothing_new sid bid m _ _ Ht).
    + intros stream_id buffer_id Hnot.
      apply not_elem_of_cons in Hnot as [Hne Hnot].
      rewrite (H2 _ _ Hnot). apply untrackBuffer_keeps_others. exact Hne.
    + intros stream_id Hsome. apply H3, untrackBuffer_keeps_streams, Hsome.
    + rewrite length_app. cbn [length]. lia.
    + intros Hall.
      destruct (Hnone (Hall sid bid ltac:(left))) as [-> Hm].
      rewrite Hm in *. rewrite H5; [reflexivity|].
      intros stream_id buffer_id Hin. apply Hall. right. exact Hin.
Qed.

End BufferCacheFacts.

(* --------------------------------------------------------------------- *)
(*  ImageProcessor: supported conversions and the NV21 kernel             *)
(* --------------------------------------------------------------------- *)

Module ImageProcessorFormatsFacts.
Import FourCC ImageProcessor ImageProcessorFormats.

Lemma SetDataSize_fourcc new_array size f :
  FrameBuffer.fourcc_ (snd (FrameBuffer.SetDataSize new_array size f))
  = FrameBuffer.fourcc_ f.
Proof.
  unfold FrameBuffer.SetDataSize, FrameBuffer.AllocatedFrameBuffer_SetDataSize,
    FrameBuffer.FrameBuffer_SetDataSize.
  destruct (FrameBuffer.kind f);
    destruct (FrameBuffer.buffer_size_ f <? size); reflexivity.
Qed.

Section Target.

Context (size_bits : Z).
Context (new_array : Z -> list Z).
Context {CameraMetadata : Type}.
Context (run_kernel : Kernel -> CameraMetadata -> FrameBuffer.t -> FrameBuffer.t
                      -> Z * FrameBuffer.t).

Local Abbreviation convert := (ConvertFormat size_bits new_array run_kernel).

Lemma ConvertFormat_success_inv metadata in_frame out_frame :
  fst (convert metadata in_frame out_frame) = 0 ->
  SupportsConversion (FrameBuffer.GetFourcc in_frame)
                     (FrameBuffer.GetFourcc out_frame) = true /\
  FrameBuffer.GetWidth in_frame mod 2 = 0 /\
  FrameBuffer.GetHeight in_frame mod 2 = 0 /\
  fst (FrameBuffer.SetDataSize
         new_array
         (GetConvertedSize size_bits (FrameBuffer.GetFourcc out_frame)
                           (FrameBuffer.GetWidth in_frame)
                           (FrameBuffer.GetHeight in_frame))
         out_frame) = 0.
Proof.
  unfold ConvertFormat.
  destruct (Z.eqb_spec (FrameBuffer.GetWidth in_frame mod 2) 0) as [Hw|Hw];
    [|intros H; discriminate H].
  destruct (Z.eqb_spec (FrameBuffer.GetHeight in_frame mod 2) 0) as [Hh|Hh];
    [|intros H; discriminate H].
  cbn [negb orb].
  pose proof (SetDataSize_fourcc
                new_array
                (GetConvertedSize size_bits (FrameBuffer.GetFourcc out_frame)
                                  (FrameBuffer.GetWidth in_frame)
                                  (FrameBuffer.GetHeight in_frame))
                out_frame) as Hfourcc.
  destruct (FrameBuffer.SetDataSize _ _ out_frame) as [r out1].
  cbn [fst snd] in *.
  destruct (Z.eqb_spec r 0) as [Hr|Hr]; [|intros H; discriminate H].
  cbn [negb]. unfold FrameBuffer.GetFourcc in *. rewrite Hfourcc.
  intros H. split; [|auto]. revert H.
  unfold SupportsConversion.
  repeat match goal with
         | |- context [FrameBuffer.fourcc_ ?f =? ?c] =>
             let E := fresh "E" in
             destruct (Z.eqb_spec (FrameBuffer.fourcc_ f) c) as [E | E];
             [rewrite ?E|]; cbn
         end;
    first [intros H; discriminate H | intros _; reflexivity].
Qed.

(** X23: ConvertFormat succeeds only on a conversion that
    SupportsConversion announces: whenever it returns 0, the pair (source
    format, destination format) is one SupportsConversion accepts, the
    source width and height are even and the destination buffer accepted
    the converted size; and on every pair that SupportsConversion refuses
    it returns -EINVAL, whatever the kernels would do. *)
Theorem ConvertFormat_succeeds_only_if_supported
    (metadata : CameraMetadata) (in_frame out_frame : FrameBuffer.t) :
  (fst (convert metadata in_frame out_frame) = 0 ->
   SupportsConversion (FrameBuffer.GetFourcc in_frame)
                      (FrameBuffer.GetFourcc out_frame) = true /\
   FrameBuffer.GetWidth in_frame mod 2 = 0 /\
   FrameBuffer.GetHeight in_frame mod 2 = 0 /\
   fst (FrameBuffer.SetDataSize
          new_array
          (GetConvertedSize size_bits (FrameBuffer.GetFourcc out_frame)
                            (FrameBuffer.GetWidth in_frame)
                            (FrameBuffer.GetHeight in_frame))
          out_frame) = 0) /\
  (SupportsConversion (FrameBuffer.GetFourcc in_frame)
                      (FrameBuffer.GetFourcc out_frame) = false ->
   fst (convert metadata in_frame out_frame) = - Errno.EINVAL).
Proof.
  split; [apply ConvertFormat_success_inv|].
  unfold ConvertFormat.
  destruct (negb (FrameBuffer.GetWidth in_frame mod 2 =? 0)
            || negb (FrameBuffer.GetHeight in_frame mod 2 =? 0));
    [reflexivity|].
  pose proof (SetDataSize_fourcc
                new_array
                (GetConvertedSize size_bits (FrameBuffer.GetFourcc out_frame)
                                  (FrameBuffer.GetWidth in_frame)
                                  (FrameBuffer.GetHeight in_frame))
                out_frame) as Hfourcc.
  destruct (FrameBuffer.SetDataSize _ _ out_frame) as [r out1].
  cbn [snd] in Hfourcc.
  destruct (negb (r =? 0)); [reflexivity|].
  unfold FrameBuffer.GetFourcc in *. rewrite Hfourcc.
  unfold SupportsConversion.
  repeat match goal with
         | |- context [FrameBuffer.fourcc_ ?f =? ?c] =>
             let E := fresh "E" in
             destruct (Z.eqb_spec (FrameBuffer.fourcc_ f) c) as [E | E];
             [rewrite ?E|]; cbn
         end;
    first [intros H; discriminate H | intros _; reflexivity].
Qed.

End Target.

Lemma ConvertFormat_succeeds_only_if_supported_witness :
  fst (ConvertFormat 32 Samples.zeroed Samples.failing_kernel tt
                     (Samples.yu12_frame 4 4) Samples.small_v4l2_buffer)
  = - Errno.EINVAL.
Proof.
  apply (ConvertFormat_succeeds_only_if_supported
           32 Samples.zeroed Samples.failing_kernel tt
           (Samples.yu12_frame 4 4) Samples.small_v4l2_buffer).
  vm_compute. reflexivity.
Defined.

Lemma existsb_eqb_app f l1 l2 :
  existsb (Z.eqb f) (l1 ++ l2) = existsb (Z.eqb f) l1 || existsb (Z.eqb f) l2.
Proof. apply existsb_app. Qed.

Lemma fold_qualify_format f supported :
  forall qualified,
    fold_left (qualify_format f) supported qualified
    = qualified ++ newly_qualified f supported qualified.
Proof.
  induction supported as [|x rest IH]; intros qualified.
  - unfold newly_qualified. simpl. rewrite app_nil_r. reflexivity.
  - cbn [fold_left]. rewrite IH. unfold qualify_format, newly_qualified.
    cbn [existsb].
    destruct (Z.eqb_spec x f) as [-> | Hne].
    + rewrite Z.eqb_refl. cbn [negb orb].
      destruct (existsb (Z.eqb f) qualified) eqn:E.
      * rewrite E, !andb_false_r. reflexivity.
      * rewrite existsb_eqb_app. cbn [existsb]. rewrite Z.eqb_refl.
        rewrite orb_true_r, andb_false_r. cbn [andb negb].
        rewrite app_nil_r. reflexivity.
    + cbn [negb]. replace (f =? x) with false
        by (symmetry; apply Z.eqb_neq; intros ->; apply Hne; reflexivity).
      reflexivity.
Qed.

(** X24: GetQualifiedFormats returns 0 and appends to the vector, in the
    priority order YUYV then MJPEG, each of the two formats that is in the
    supported set and not already in the vector, and nothing else; called
    on an empty vector it therefore yields the list [YUYV, MJPEG]
    restricted to the supported formats. *)
Theorem GetQualifiedFormats_appends_in_priority_order
    (supported_formats qualified_formats : list Z) :
  GetQualifiedFormats supported_formats qualified_formats
  = (0,
     qualified_formats
       ++ newly_qualified V4L2_PIX_FMT_YUYV supported_formats qualified_formats
       ++ newly_qualified
            V4L2_PIX_FMT_MJPEG supported_formats
            (qualified_formats
               ++ newly_qualified V4L2_PIX_FMT_YUYV supported_formats
                                  qualified_formats)) /\
  snd (GetQualifiedFormats supported_formats [])
  = List.filter (fun f => existsb (Z.eqb f) supported_formats)
                kSupportedFourCCs.
Proof.
  unfold GetQualifiedFormats, kSupportedFourCCs. cbn [fold_left snd].
  rewrite !fold_qualify_format. split.
  - rewrite <- app_assoc. reflexivity.
  - unfold newly_qualified. cbn [List.filter existsb app negb].
    rewrite andb_true_r.
    destruct (existsb (Z.eqb V4L2_PIX_FMT_YUYV) supported_formats);
      cbn [app existsb]; [|rewrite andb_true_r];
      destruct (existsb (Z.eqb V4L2_PIX_FMT_MJPEG) supported_formats);
      reflexivity.
Qed.

End ImageProcessorFormatsFacts.

Module YU12KernelFacts.
Import MachineInt YU12Kernel.

Lemma store_Some i v dst :
  (i < length dst)%nat -> store i v dst = Some (<[i := v]> dst).
Proof. intros H. unfold store. rewrite decide_True by exact H. reflexivity. Qed.

Lemma interleave_row_spec n :
  forall src dst u v vu,
    (v + n <= length src)%nat ->
    (u + n <= length src)%nat ->
    (vu + 2 * n <= length dst)%nat ->
    exists dst',
      interleave_row n src (dst, u, v, vu)
      = Some (dst', (u + n)%nat, (v + n)%nat, (vu + 2 * n)%nat) /\
      length dst' = length dst /\
      (forall k, (k < n)%nat ->
                 dst' !! (vu + 2 * k)%nat = src !! (v + k)%nat /\
                 dst' !! (vu + 2 * k + 1)%nat = src !! (u + k)%nat) /\
      (forall i, (i < vu)%nat \/ (vu + 2 * n <= i)%nat -> dst' !! i = dst !! i).
Proof.
  induction n as [|n IH]; intros src dst u v vu Hv Hu Hvu.
  - exists dst. cbn [interleave_row].
    replace (u + 0)%nat with u by lia. replace (v + 0)%nat with v by lia.
    replace (vu + 2 * 0)%nat with vu by lia.
    split; [reflexivity|]. split; [reflexivity|]. split; [intros k Hk; lia|auto].
  - cbn [interleave_row].
    destruct (lookup_lt_is_Some_2 src v ltac:(lia)) as [x Hx].
    destruct (lookup_lt_is_Some_2 src u ltac:(lia)) as [y Hy].
    rewrite Hx. cbn [mbind option_bind].
    rewrite store_Some by lia. cbn [mbind option_bind].
    rewrite Hy. cbn [mbind option_bind].
    rewrite store_Some by (rewrite length_insert; lia).
    cbn [mbind option_bind].
    destruct (IH src (<[S vu := y]> (<[vu := x]> dst)) (S u) (S v) (S (S vu)))
      as (dst' & Heq & Hlen & Hpairs & Hrest);
      [lia|lia|rewrite !length_insert; lia|].
    exists dst'. rewrite Heq. split; [f_equal; f_equal; [f_equal; [f_equal|]|]; lia|].
    split; [rewrite Hlen, !length_insert; reflexivity|].
    split.
    + intros k Hk. destruct k as [|k].
      * replace (vu + 2 * 0)%nat with vu by lia.
        replace (vu + 1)%nat with (S vu) by lia.
        replace (v + 0)%nat with v by lia. replace (u + 0)%nat with u by lia.
        rewrite !Hrest by lia. split.
        -- rewrite list_lookup_insert_ne by lia.
           rewrite list_lookup_insert_eq by lia. symmetry. exact Hx.
        -- rewrite list_lookup_insert_eq by (rewrite length_insert; lia).
           symmetry. exact Hy.
      * destruct (Hpairs k ltac:(lia)) as [H1 H2].
        replace (vu + 2 * S k)%nat with (S (S vu) + 2 * k)%nat by lia.
        replace (v + S k)%nat with (S v + k)%nat by lia.
        replace (u + S k)%nat with (S u + k)%nat by lia.
        split; [exact H1|exact H2].
    + intros i Hi. rewrite Hrest by lia.
      rewrite !list_lookup_insert_ne by lia. reflexivity.
Qed.

Lemma interleave_row_add a :
  forall b src st,
    interleave_row (a + b) src st
    = interleave_row a src st ≫= interleave_row b src.
Proof.
  induction a as [|a IH]; intros b src st; [reflexivity|].
  cbn [Nat.add interleave_row]. destruct st as [[[dst u] v] vu].
  destruct (src !! v) as [x|]; cbn [mbind option_bind]; [|reflexivity].
  destruct (store vu x dst) as [dst1|]; cbn [mbind option_bind]; [|reflexivity].
  destruct (src !! u) as [y|]; cbn [mbind option_bind]; [|reflexivity].
  destruct (store (S vu) y dst1) as [dst2|]; cbn [mbind option_bind];
    [|reflexivity].
  apply IH.
Qed.

Lemma interleave_rows_flat rows cols src :
  forall st,
    interleave_rows rows cols src st = interleave_row (rows * cols) src st.
Proof.
  induction rows as [|rows IH]; intros st; [reflexivity|].
  cbn [interleave_rows Nat.mul]. rewrite interleave_row_add.
  destruct (interleave_row cols src st) as [st'|]; cbn [mbind option_bind];
    [apply IH|reflexivity].
Qed.

(** X25: on a YU12 frame of even, non-negative width and height whose
    offsets fit an int, with source and destination buffers of at least
    width * height * 3 / 2 bytes, YU12ToNV21 returns 0 and writes an NV21
    frame: the width * height luma bytes are copied unchanged, and the
    chroma plane that follows holds, for the k-th chroma sample, the V
    byte of the source at the even position and its U byte at the odd
    position; the destination keeps its length and the bytes beyond the
    frame are untouched. *)
Theorem YU12ToNV21_interleaves_chroma
    (yu12 nv21 : list Z) (width height : Z) :
  0 <= width -> 0 <= height ->
  width mod 2 = 0 -> height mod 2 = 0 ->
  width * height * 5 <= int_max ->
  (Z.to_nat (width * height * 3 / 2) <= length yu12)%nat ->
  (Z.to_nat (width * height * 3 / 2) <= length nv21)%nat ->
  let y_size := Z.to_nat (width * height) in
  let samples := Z.to_nat (width * height / 4) in
  exists out,
    YU12ToNV21 yu12 nv21 width height = Some (0, out) /\
    length out = length nv21 /\
    (forall i, (i < y_size)%nat -> out !! i = yu12 !! i) /\
    (forall k, (k < samples)%nat ->
               out !! (y_size + 2 * k)%nat
               = yu12 !! (y_size + samples + k)%nat /\
               out !! (y_size + 2 * k + 1)%nat = yu12 !! (y_size + k)%nat) /\
    (forall i, (y_size + 2 * samples <= i)%nat -> out !! i = nv21 !! i).
Proof.
  intros Hw Hh Hwe Hhe Hmax Hsrc Hdst. cbv zeta.
  apply Z.mod_divide in Hwe; [|lia]. apply Z.mod_divide in Hhe; [|lia].
  destruct Hwe as [a ->]. destruct Hhe as [b ->].
  assert (Ha : 0 <= a) by lia. assert (Hb : 0 <= b) by lia.
  set (m := (Z.to_nat b * Z.to_nat a)%nat).
  assert (Hm : Z.of_nat m = a * b) by (unfold m; nia).
  assert (Hy : Z.to_nat (a * 2 * (b * 2)) = (4 * m)%nat) by nia.
  assert (Hs : Z.to_nat (a * 2 * (b * 2) / 4) = m).
  { replace (a * 2 * (b * 2)) with (a * b * 4) by lia.
    rewrite Z.div_mul by lia. lia. }
  assert (Hsize : Z.to_nat (a * 2 * (b * 2) * 3 / 2) = (6 * m)%nat).
  { replace (a * 2 * (b * 2) * 3) with (a * b * 6 * 2) by lia.
    rewrite Z.div_mul by lia. lia. }
  rewrite Hy, Hs. rewrite Hsize in Hsrc, Hdst.
  unfold YU12ToNV21.
  rewrite !Z.rem_mul by lia. cbn [Z.eqb negb orb].
  unfold checked_int, int_min, int_max, two31 in *.
  replace ((- 2 ^ 31 <=? a * 2 * (b * 2)) && (a * 2 * (b * 2) <=? 2 ^ 31 - 1))
    with true by (symmetry; apply andb_true_iff; split; apply Z.leb_le; nia).
  cbn [mbind option_bind].
  replace ((- 2 ^ 31 <=? a * 2 * (b * 2) * 5)
           && (a * 2 * (b * 2) * 5 <=? 2 ^ 31 - 1))
    with true by (symmetry; apply andb_true_iff; split; apply Z.leb_le; nia).
  cbn [mbind option_bind].
  replace (a * 2 * (b * 2) <? 0) with false by (symmetry; apply Z.ltb_ge; nia).
  rewrite Hy. unfold memcpy.
  rewrite decide_True by lia. rewrite decide_True by lia.
  cbn [mbind option_bind].
  rewrite interleave_rows_flat.
  rewrite !Z.quot_mul by lia. fold m.
  replace (Z.to_nat (Z.quot (a * 2 * (b * 2) * 5) 4)) with (5 * m)%nat.
  2:{ replace (a * 2 * (b * 2) * 5) with (a * b * 5 * 4) by lia.
      rewrite Z.quot_mul by lia. lia. }
  set (dst := take (4 * m) yu12 ++ drop (4 * m) nv21).
  assert (Hlen : length dst = length nv21).
  { unfold dst. rewrite length_app, length_take, length_drop. lia. }
  destruct (interleave_row_spec m yu12 dst (4 * m) (5 * m) (4 * m))
    as (out & Heq & Hout & Hpairs & Hrest); [lia|lia|lia|].
  rewrite Heq. cbn [mbind option_bind fst]. exists out.
  split; [reflexivity|]. split; [lia|]. split; [|split].
  - intros i Hi. rewrite Hrest by lia. unfold dst.
    rewrite lookup_app_l by (rewrite length_take; lia).
    apply lookup_take_lt. exact Hi.
  - intros k Hk. destruct (Hpairs k Hk) as [H1 H2]. split.
    + rewrite H1. f_equal. lia.
    + exact H2.
  - intros i Hi. rewrite Hrest by lia. unfold dst.
    rewrite lookup_app_r by (rewrite length_take; lia).
    rewrite length_take, lookup_drop. f_equal. lia.
Qed.

Lemma YU12ToNV21_interleaves_chroma_witness :
  exists out,
    YU12ToNV21 tiny_yu12 (Samples.zeroed 6) 2 2 = Some (0, out) /\
    length out = length (Samples.zeroed 6) /\
    (forall i, (i < 4)%nat -> out !! i = tiny_yu12 !! i) /\
    (forall k, (k < 1)%nat ->
               out !! (4 + 2 * k)%nat = tiny_yu12 !! (4 + 1 + k)%nat /\
               out !! (4 + 2 * k + 1)%nat = tiny_yu12 !! (4 + k)%nat) /\
    (forall i, (4 + 2 * 1 <= i)%nat -> out !! i = Samples.zeroed 6 !! i).
Proof.
  apply (YU12ToNV21_interleaves_chroma tiny_yu12 (Samples.zeroed 6) 2 2);
    vm_compute; first [reflexivity | discriminate | lia].
Defined.

End YU12KernelFacts.

(* --------------------------------------------------------------------- *)
(*  CachedFrame::SetSource                                                *)
(* --------------------------------------------------------------------- *)

Module CachedFrameSourceFacts.
Import FourCC CachedFrameSource.

Section Libyuv.

Context (size_bits : Z).
Context (new_array : Z -> list Z).
Context {CameraMetadata : Type}.
Context (empty_metadata : CameraMetadata).
Context (run_kernel : ImageProcessor.Kernel -> CameraMetadata -> FrameBuffer.t
                      -> FrameBuffer.t -> Z * FrameBuffer.t).
Context (ConvertToI420 : CachedFrame.ConvertToI420Args -> Z).
Context (I420Scale : CachedFrame.I420ScaleArgs -> Z).

Local Abbreviation to_yu12 :=
  (ConvertToYU12 size_bits new_array empty_metadata run_kernel).
Local Abbreviation set_source :=
  (SetSource size_bits new_array empty_metadata run_kernel ConvertToI420
             I420Scale).

Lemma ConvertToYU12_success_inv source yu12 :
  fst (to_yu12 source yu12) = 0 ->
  ImageProcessorFormats.SupportsConversion (FrameBuffer.GetFourcc source)
                                           V4L2_PIX_FMT_YUV420 = true /\
  FrameBuffer.GetWidth source mod 2 = 0 /\
  FrameBuffer.GetHeight source mod 2 = 0 /\
  ImageProcessor.GetConvertedSize size_bits V4L2_PIX_FMT_YUV420
                                  (FrameBuffer.GetWidth source)
                                  (FrameBuffer.GetHeight source) <> 0.
Proof.
  unfold ConvertToYU12.
  destruct (Z.eqb_spec
              (ImageProcessor.GetConvertedSize
                 size_bits V4L2_PIX_FMT_YUV420 (FrameBuffer.GetWidth source)
                 (FrameBuffer.GetHeight source)) 0) as [E|E];
    [intros H; discriminate H|].
  pose proof (ImageProcessorFormatsFacts.SetDataSize_fourcc
                new_array
                (ImageProcessor.GetConvertedSize
                   size_bits V4L2_PIX_FMT_YUV420 (FrameBuffer.GetWidth source)
                   (FrameBuffer.GetHeight source)) yu12) as Hf.
  destruct (FrameBuffer.SetDataSize _ _ yu12) as [r f1].
  match goal with
  | |- context [ImageProcessor.ConvertFormat ?sb ?na ?rk ?md ?i ?o] =>
      pose proof (ImageProcessorFormatsFacts.ConvertFormat_success_inv
                    sb na rk md i o) as Hinv;
      destruct (ImageProcessor.ConvertFormat sb na rk md i o) as [res f5]
  end.
  cbn [fst] in Hinv.
  destruct (Z.eqb_spec res 0) as [-> | Hres]; cbn [negb fst];
    [|intros H; contradiction].
  intros _. destruct (Hinv eq_refl) as (Hs & Hw & Hh & _).
  split; [exact Hs|]. split; [exact Hw|]. split; [exact Hh|exact E].
Qed.


End Libyuv.


End CachedFrameSourceFacts.

(* --------------------------------------------------------------------- *)
(*  V4L2Wrapper: negotiated format and connections                        *)
(* --------------------------------------------------------------------- *)

Module V4L2WrapperMoreFacts.
Import V4L2Wrapper.

Section Device.

Context (device_s_fmt : v4l2_format -> Z * v4l2_format).

(** X27: a format that SetFormat has negotiated is not negotiated again:
    whenever SetFormat(f) returns 0, the wrapper holds a format equal to
    f, and calling SetFormat(f) once more returns 0 without issuing any
    command to the device and without changing the wrapper. *)
Theorem SetFormat_twice_negotiates_once
    (resolved_format : StreamFormat.t) (w : t) :
  fst (fst (SetFormat device_s_fmt resolved_format w)) = 0 ->
  let w' := snd (fst (SetFormat device_s_fmt resolved_format w)) in
  already_negotiated resolved_format w' = true /\
  SetFormat device_s_fmt resolved_format w' = (0, w', []).
Proof.
  cbv zeta.
  assert (Hagain : forall w0,
             already_negotiated resolved_format w0 = true ->
             SetFormat device_s_fmt resolved_format w0 = (0, w0, [])).
  { intros w0 H. unfold SetFormat. rewrite H. reflexivity. }
  destruct (SetFormat device_s_fmt resolved_format w) as [[r0 w'] cmds0] eqn:E.
  cbn [fst snd]. intros ->.
  assert (Hnow : already_negotiated resolved_format w' = true).
  { unfold SetFormat in E.
    destruct (already_negotiated resolved_format w) eqn:Hneg.
    - injection E as <- _. exact Hneg.
    - destruct (ioctlLocked_S_FMT device_s_fmt w
                                  (FillFormatRequest resolved_format))
        as [[r new_format] cmds].
      destruct (r <? 0); [discriminate E|].
      destruct (StreamFormat.neqb resolved_format (StreamFormat_of new_format))
        eqn:Hne; [discriminate E|].
      injection E as <- _.
      unfold already_negotiated. cbn [format_].
      unfold StreamFormat.neqb in Hne. apply negb_false_iff in Hne.
      exact Hne. }
  split; [exact Hnow|apply Hagain; exact Hnow].
Qed.

End Device.

Lemma SetFormat_twice_negotiates_once_witness :
  already_negotiated
    Samples.yuyv_vga
    (snd (fst (SetFormat Samples.accepting_device Samples.yuyv_vga
                         Samples.fresh_wrapper))) = true /\
  SetFormat Samples.accepting_device Samples.yuyv_vga
            (snd (fst (SetFormat Samples.accepting_device Samples.yuyv_vga
                                 Samples.fresh_wrapper)))
  = (0,
     snd (fst (SetFormat Samples.accepting_device Samples.yuyv_vga
                         Samples.fresh_wrapper)),
     []).
Proof.
  apply (SetFormat_twice_negotiates_once
           Samples.accepting_device Samples.yuyv_vga Samples.fresh_wrapper).
  reflexivity.
Defined.

End V4L2WrapperMoreFacts.

Module V4L2ConnectionFacts.
Import MachineInt V4L2Connection.

(** X28: on a consistent wrapper (the device descriptor is open exactly
    while connections remain, and a closed wrapper holds no negotiated
    format) whose connection count is below the largest int, Connect and
    Disconnect do exactly this.  Connect on a connected wrapper returns 0
    and only adds a connection: descriptor, format and extended-query
    flag stay.  Connect on a closed wrapper returns -ENODEV and leaves
    the wrapper as it was when open fails; otherwise it returns 0 with
    the new descriptor, one connection, no format, and the flag set
    exactly when the extended query ioctl returned 0.  Disconnect does
    nothing without connection; it only removes a connection when others
    remain (descriptor, format and flag stay); on the last one it closes
    the descriptor and forgets the format, the flag staying.  Both leave
    the wrapper consistent. *)
Theorem connections_are_counted (w : t) (open_result query_result : Z) :
  consistent w ->
  connection_count_ w < int_max ->
  (Connected w = true ->
   Connect open_result query_result w
   = Some (0, mk (device_fd_ w) (connection_count_ w + 1) (format_ w)
                 (extended_query_supported_ w))) /\
  (Connected w = false -> open_result < 0 ->
   Connect open_result query_result w = Some (- Errno.ENODEV, w)) /\
  (Connected w = false -> 0 <= open_result ->
   Connect open_result query_result w
   = Some (0, mk open_result 1 None (query_result =? 0))) /\
  (connection_count_ w = 0 -> Disconnect w = Some w) /\
  (connection_count_ w = 1 ->
   Disconnect w = Some (mk (-1) 0 None (extended_query_supported_ w))) /\
  (1 < connection_count_ w ->
   Disconnect w
   = Some (mk (device_fd_ w) (connection_count_ w - 1) (format_ w)
              (extended_query_supported_ w))) /\
  (exists r w',
     Connect open_result query_result w = Some (r, w') /\ consistent w') /\
  (exists w', Disconnect w = Some w' /\ consistent w').
Proof.
  unfold consistent, Connected, int_max, two31.
  intros (Hcount & Hopen & Hformat) Hmax.
  assert (Hup : checked_int (connection_count_ w + 1)
                = Some (connection_count_ w + 1)).
  { unfold checked_int, int_min, int_max, two31.
    replace ((- 2 ^ 31 <=? connection_count_ w + 1)
             && (connection_count_ w + 1 <=? 2 ^ 31 - 1)) with true;
      [reflexivity|].
    symmetry. apply andb_true_iff. split; apply Z.leb_le; lia. }
  assert (Hdown : checked_int (connection_count_ w - 1)
                  = Some (connection_count_ w - 1)).
  { unfold checked_int, int_min, int_max, two31.
    replace ((- 2 ^ 31 <=? connection_count_ w - 1)
             && (connection_count_ w - 1 <=? 2 ^ 31 - 1)) with true;
      [reflexivity|].
    symmetry. apply andb_true_iff. split; apply Z.leb_le; lia. }
  assert (Hclosed : (0 <=? device_fd_ w) = false ->
                    connection_count_ w = 0 /\ format_ w = None).
  { intros Hfd. split; [|exact (Hformat Hfd)].
    destruct (Z.eq_dec (connection_count_ w) 0) as [E|E]; [exact E|].
    assert (H : 0 < connection_count_ w) by lia.
    apply Hopen in H. rewrite H in Hfd. discriminate Hfd. }
  assert (Hconnect_open :
            (0 <=? device_fd_ w) = true ->
            Connect open_result query_result w
            = Some (0, mk (device_fd_ w) (connection_count_ w + 1) (format_ w)
                          (extended_query_supported_ w))).
  { intros Hfd. unfold Connect, Connected. rewrite Hfd, Hup. reflexivity. }
  assert (Hconnect_fail :
            (0 <=? device_fd_ w) = false -> open_result < 0 ->
            Connect open_result query_result w = Some (- Errno.ENODEV, w)).
  { intros Hfd Hlt. unfold Connect, Connected. rewrite Hfd.
    replace (open_result <? 0) with true
      by (symmetry; apply Z.ltb_lt; exact Hlt).
    reflexivity. }
  assert (Hconnect_new :
            (0 <=? device_fd_ w) = false -> 0 <= open_result ->
            Connect open_result query_result w
            = Some (0, mk open_result 1 None (query_result =? 0))).
  { intros Hfd Hge. destruct (Hclosed Hfd) as [Hz Hnone].
    unfold Connect, Connected. rewrite Hfd, Hup, Hz, Hnone.
    replace (open_result <? 0) with false
      by (symmetry; apply Z.ltb_ge; exact Hge).
    reflexivity. }
  assert (Hdisconnect_none : connection_count_ w = 0 -> Disconnect w = Some w).
  { intros Hz. unfold Disconnect. rewrite Hz. reflexivity. }
  assert (Hdisconnect_last :
            connection_count_ w = 1 ->
            Disconnect w = Some (mk (-1) 0 None (extended_query_supported_ w))).
  { intros H1. unfold Disconnect. rewrite Hdown, H1. reflexivity. }
  assert (Hdisconnect_one :
            1 < connection_count_ w ->
            Disconnect w
            = Some (mk (device_fd_ w) (connection_count_ w - 1) (format_ w)
                       (extended_query_supported_ w))).
  { intros Hgt. unfold Disconnect. rewrite Hdown.
    replace (connection_count_ w =? 0) with false
      by (symmetry; apply Z.eqb_neq; lia).
    cbn [mbind option_bind].
    replace (0 <? connection_count_ w - 1) with true
      by (symmetry; apply Z.ltb_lt; lia).
    reflexivity. }
  repeat (split; [assumption|]).
  split.
  - destruct (0 <=? device_fd_ w) eqn:Hfd.
    + eexists _, _. split; [exact (Hconnect_open eq_refl)|].
      cbn [connection_count_ device_fd_ format_].
      split; [lia|]. split; [split; [lia|intros _; exact Hfd]|].
      rewrite Hfd. discriminate.
    + destruct (Z.lt_ge_cases open_result 0) as [Hlt|Hge].
      * eexists _, _. split; [exact (Hconnect_fail eq_refl Hlt)|].
        rewrite Hfd.
        exact (conj Hcount (conj Hopen Hformat)).
      * eexists _, _. split; [exact (Hconnect_new eq_refl Hge)|].
        cbn [connection_count_ device_fd_ format_].
        split; [lia|].
        split; [split; [lia|intros _; apply Z.leb_le; exact Hge]|reflexivity].
  - destruct (Z.eq_dec (connection_count_ w) 0) as [Hz|Hnz].
    + exists w. split; [exact (Hdisconnect_none Hz)|].
      exact (conj Hcount (conj Hopen Hformat)).
    + destruct (Z.eq_dec (connection_count_ w) 1) as [H1|Hn1].
      * eexists. split; [exact (Hdisconnect_last H1)|].
        cbn [connection_count_ device_fd_ format_].
        split; [lia|]. split; [split; [discriminate|lia]|reflexivity].
      * eexists. split; [exact (Hdisconnect_one ltac:(lia))|].
        cbn [connection_count_ device_fd_ format_].
        assert (Hfd : (0 <=? device_fd_ w) = true) by (apply Hopen; lia).
        split; [lia|]. split; [split; [lia|intros _; exact Hfd]|].
        rewrite Hfd. discriminate.
Qed.

Lemma connections_are_counted_witness :
  Connect 7 0 (mk 5 2 (Some Samples.yuyv_vga) false)
  = Some (0, mk 5 3 (Some Samples.yuyv_vga) false) /\
  Disconnect (mk 5 2 (Some Samples.yuyv_vga) false)
  = Some (mk 5 1 (Some Samples.yuyv_vga) false).
Proof.
  destruct (connections_are_counted
              (mk 5 2 (Some Samples.yuyv_vga) false) 7 0)
    as (Hconnect & _ & _ & _ & _ & Hdisconnect & _).
  - unfold consistent. cbn. split; [lia|].
    split; [split; [lia|reflexivity]|discriminate].
  - vm_compute. reflexivity.
  - split; [apply Hconnect; reflexivity|apply Hdisconnect; reflexivity].
Defined.

End V4L2ConnectionFacts.

(* --------------------------------------------------------------------- *)
(*  V4L2FrameBuffer: Map and Unmap                                        *)
(* --------------------------------------------------------------------- *)

Module V4L2MappingFacts.
Import V4L2Mapping.

Lemma live_mappings_app l1 l2 :
  live_mappings (l1 ++ l2) = live_mappings l1 + live_mappings l2.
Proof.
  induction l1 as [|[[|]|[|]] rest IH]; cbn [app live_mappings]; lia.
Qed.

Lemma call_balance c is_mapped_ :
  live_mappings (snd (call c is_mapped_))
  = (if snd (fst (call c is_mapped_)) then 1 else 0)
    - (if is_mapped_ then 1 else 0).
Proof.
  destruct c as [[|]|[|]], is_mapped_; reflexivity.
Qed.

Lemma run_balance calls :
  forall is_mapped_,
    live_mappings (snd (run calls is_mapped_))
    = (if fst (run calls is_mapped_) then 1 else 0)
      - (if is_mapped_ then 1 else 0).
Proof.
  induction calls as [|c rest IH]; intros is_mapped_.
  - cbn [run fst snd live_mappings]. lia.
  - cbn [run]. pose proof (call_balance c is_mapped_) as Hc.
    destruct (call c is_mapped_) as [[r mapped] log].
    pose proof (IH mapped) as Hr.
    destruct (run rest mapped) as [mapped' log'].
    cbn [fst snd] in *. rewrite live_mappings_app. lia.
Qed.

(** X29: whatever sequence of Map and Unmap calls is made on a V4L2 frame
    buffer that starts unmapped, and whatever mmap and munmap answer, the
    number of mappings established minus the number released is 1 while
    is_mapped_ is set and 0 otherwise: the buffer is never mapped twice
    and never unmapped without being mapped.  Map on a mapped buffer
    fails with -EINVAL without calling mmap, and a failing munmap leaves
    the buffer mapped. *)
Theorem mappings_are_balanced (calls : list Call) (mmap_ok munmap_ok : bool) :
  live_mappings (snd (run calls false))
  = (if fst (run calls false) then 1 else 0) /\
  Map mmap_ok true = (- Errno.EINVAL, true, []) /\
  Unmap false true = (- Errno.EINVAL, true, [Munmap false]) /\
  Unmap munmap_ok false = (0, false, []).
Proof.
  split; [|repeat split].
  rewrite run_balance. lia.
Qed.

End V4L2MappingFacts.
